(** * Blockly.WorkspaceSvg: a shallow embedding of core/workspace_svg.js

    The workspace object is a record of the fields the file reads and
    writes.  Calls into collaborators whose code lives elsewhere (blocks,
    trashcan, flyout, DOM, CSS, HTML5 audio) are recorded, in program
    order, as a trace of [Effect]s.  Numbers that the file computes with
    (block coordinates, the snap radius, rectangle bounds) are integers
    here: [parseInt] yields integers and [Blockly.SNAP_RADIUS] is an
    integer constant.  Audio volumes are rationals. *)

From Stdlib Require Import ZArith List String Ascii Bool Lia QArith DecimalString.
Import ListNotations.

#[local] Set Warnings "-register-all".
#[local] Open Scope string_scope.
#[local] Open Scope list_scope.
#[local] Open Scope Z_scope.

(* ------------------------------------------------------------------ *)
(** ** JavaScript values and library helpers *)

(** The value of an optional numeric argument ([@param {?number}]). *)
Inductive JsValue : Type :=
| Undefined
| Null
| Number (q : Q).

(** JavaScript truthiness of a string: only the empty string is falsy. *)
Definition truthy (s : string) : bool :=
  match s with
  | EmptyString => false
  | String _ _ => true
  end.

Definition isWhiteSpace (c : ascii) : bool :=
  let n := nat_of_ascii c in
  ((9 <=? n)%nat && (n <=? 13)%nat) || (n =? 32)%nat.

Fixpoint trimLeft (s : string) : string :=
  match s with
  | EmptyString => EmptyString
  | String c s' => if isWhiteSpace c then trimLeft s' else s
  end.

Definition digitValue (c : ascii) : option Z :=
  let n := Z.of_nat (nat_of_ascii c) in
  if (48 <=? n) && (n <=? 57) then Some (n - 48) else None.

(** Longest prefix of decimal digits; [acc] is [None] until a digit is seen. *)
Fixpoint parseDigits (s : string) (acc : option Z) : option Z :=
  match s with
  | EmptyString => acc
  | String c s' =>
      match digitValue c with
      | Some d =>
          parseDigits s' (Some (10 * match acc with Some a => a | None => 0 end + d))
      | None => acc
      end
  end.

(** [parseInt(v, 10)] on the result of [getAttribute]: [None] as argument is
    JavaScript [null], [None] as result is [NaN].  White space is the ASCII
    part of the language's white space, and the value is the integer the
    digits denote, which is the number of the source below 2^53. *)
Definition parseInt (v : option string) : option Z :=
  match v with
  | None => None
  | Some s =>
      match trimLeft s with
      | String "-"%char s' => option_map Z.opp (parseDigits s' None)
      | String "+"%char s' => parseDigits s' None
      | s' => parseDigits s' None
      end
  end.

(** [\w] of JavaScript regular expressions. *)
Definition isWordChar (c : ascii) : bool :=
  let n := nat_of_ascii c in
  ((48 <=? n)%nat && (n <=? 57)%nat) || ((65 <=? n)%nat && (n <=? 90)%nat)
  || ((97 <=? n)%nat && (n <=? 122)%nat) || (n =? 95)%nat.

Fixpoint allWordChars (s : string) : bool :=
  match s with
  | EmptyString => true
  | String c s' => isWordChar c && allWordChars s'
  end.

(** [filename.match(/\.(\w+)$/)]: the capture group of the leftmost dot that is
    followed by one or more word characters up to the end of the string. *)
Fixpoint matchExt (filename : string) : option string :=
  match filename with
  | EmptyString => None
  | String c rest =>
      if Ascii.eqb c "."%char && truthy rest && allWordChars rest
      then Some rest
      else matchExt rest
  end.

(* ------------------------------------------------------------------ *)
(** ** DOM elements (the serialized block handed to [paste]) *)

Inductive Element : Type :=
  mkElement { tagName : string;
              attributes : list (string * string);
              childNodes : list Element }.

Fixpoint getAttributeFrom (attrs : list (string * string)) (name : string)
  : option string :=
  match attrs with
  | [] => None
  | (k, v) :: rest => if String.eqb k name then Some v else getAttributeFrom rest name
  end.

Definition getAttribute (e : Element) (name : string) : option string :=
  getAttributeFrom (attributes e) name.

(** All descendants of [e] (not [e] itself), in document order. *)
Fixpoint descendantElements (e : Element) : list Element :=
  match e with
  | mkElement _ _ kids => flat_map (fun k => k :: descendantElements k) kids
  end.

Definition getElementsByTagName (e : Element) (name : string) : list Element :=
  filter (fun d => String.eqb (tagName d) name) (descendantElements e).

(* ------------------------------------------------------------------ *)
(** ** Geometry: goog.math.Coordinate and goog.math.Rect *)

Module Coordinate.
Record t : Type := mk { x : Z; y : Z }.
End Coordinate.

Module Rect.
Record t : Type := mk { left : Z; top : Z; width : Z; height : Z }.

(** Modelled from the spec: [goog.math.Rect.prototype.contains] is Closure
    Library code; the spec fixes closed rectangle semantics (the boundary
    counts as inside). *)
Definition contains (r : t) (p : Coordinate.t) : bool :=
  (left r <=? Coordinate.x p) && (Coordinate.x p <=? left r + width r)
  && (top r <=? Coordinate.y p) && (Coordinate.y p <=? top r + height r).
End Rect.

(* ------------------------------------------------------------------ *)
(** ** Collaborators *)

(** A block as this file sees it: its identity, what
    [getRelativeToSurfaceXY()] returns and what [getChildren()] returns. *)
Inductive Block : Type :=
  mkBlock { blockId : nat;
            getRelativeToSurfaceXY : Coordinate.t;
            getChildren : list Block }.

Fixpoint descendantBlocks (b : Block) : list Block :=
  match b with
  | mkBlock _ _ kids => flat_map (fun k => k :: descendantBlocks k) kids
  end.

Record Trashcan : Type := mkTrashcan { trashcanNode : nat; trashcanRect : Rect.t }.
Record Flyout : Type := mkFlyout { flyoutNode : nat; flyoutRect : Rect.t }.
Record Toolbox : Type := mkToolbox { toolboxNode : nat; toolboxRect : Rect.t }.

(** An HTML5 audio node: made by [new window['Audio'](filename)] or by
    [cloneNode()] on another one. *)
Inductive Sound : Type :=
| Audio (filename : string)
| cloneNode (original : Sound).

Inductive Cursor : Type := OPEN | CLOSED | DELETE.

Record MouseEvent : Type := mkMouseEvent { clientX : Z; clientY : Z }.

(** [goog.userAgent]; [DOCUMENT_MODE] is [undefined] outside Internet Explorer. *)
Record UserAgent : Type :=
  mkUserAgent { IPAD : bool; IPHONE : bool; ANDROID : bool;
                DOCUMENT_MODE : option Z }.

(** [window['Audio']], when the browser has it: what [canPlayType] answers
    (the empty string, "maybe" or "probably") and whether audio nodes have a
    [play] member. *)
Record AudioSupport : Type :=
  mkAudioSupport { canPlayType : string -> string; hasPlay : bool }.

(** What [remainingCapacity()] returns; [Infinity] when no maximum is set. *)
Inductive Capacity : Type :=
| Finite (n : Z)
| Infinity.

(* ------------------------------------------------------------------ *)
(** ** The workspace object *)

Inductive WorkspaceSvg : Type :=
  mkWorkspaceSvg {
      parentWorkspace : option WorkspaceSvg;   (* this.options.parentWorkspace *)
      RTL : bool;
      topBlocks_ : list Block;
      rendered : bool;
      svgGroup_ : option nat;
      svgBlockCanvas_ : option nat;
      svgBubbleCanvas_ : option nat;
      flyout_ : option Flyout;
      toolbox_ : option Toolbox;
      trashcan : option Trashcan;
      deleteAreaTrash_ : option Rect.t;
      deleteAreaToolbox_ : option Rect.t;
      SOUNDS_ : list (string * Sound) }.

(** Field assignments [this.f = v]. *)
Definition set_topBlocks_ (v : list Block) (w : WorkspaceSvg) : WorkspaceSvg :=
  mkWorkspaceSvg (parentWorkspace w) (RTL w) v (rendered w) (svgGroup_ w)
    (svgBlockCanvas_ w) (svgBubbleCanvas_ w) (flyout_ w) (toolbox_ w)
    (trashcan w) (deleteAreaTrash_ w) (deleteAreaToolbox_ w) (SOUNDS_ w).

Definition set_rendered (v : bool) (w : WorkspaceSvg) : WorkspaceSvg :=
  mkWorkspaceSvg (parentWorkspace w) (RTL w) (topBlocks_ w) v (svgGroup_ w)
    (svgBlockCanvas_ w) (svgBubbleCanvas_ w) (flyout_ w) (toolbox_ w)
    (trashcan w) (deleteAreaTrash_ w) (deleteAreaToolbox_ w) (SOUNDS_ w).

Definition set_svgGroup_ (v : option nat) (w : WorkspaceSvg) : WorkspaceSvg :=
  mkWorkspaceSvg (parentWorkspace w) (RTL w) (topBlocks_ w) (rendered w) v
    (svgBlockCanvas_ w) (svgBubbleCanvas_ w) (flyout_ w) (toolbox_ w)
    (trashcan w) (deleteAreaTrash_ w) (deleteAreaToolbox_ w) (SOUNDS_ w).

Definition set_svgBlockCanvas_ (v : option nat) (w : WorkspaceSvg) : WorkspaceSvg :=
  mkWorkspaceSvg (parentWorkspace w) (RTL w) (topBlocks_ w) (rendered w)
    (svgGroup_ w) v (svgBubbleCanvas_ w) (flyout_ w) (toolbox_ w)
    (trashcan w) (deleteAreaTrash_ w) (deleteAreaToolbox_ w) (SOUNDS_ w).

Definition set_svgBubbleCanvas_ (v : option nat) (w : WorkspaceSvg) : WorkspaceSvg :=
  mkWorkspaceSvg (parentWorkspace w) (RTL w) (topBlocks_ w) (rendered w)
    (svgGroup_ w) (svgBlockCanvas_ w) v (flyout_ w) (toolbox_ w)
    (trashcan w) (deleteAreaTrash_ w) (deleteAreaToolbox_ w) (SOUNDS_ w).

Definition set_flyout_ (v : option Flyout) (w : WorkspaceSvg) : WorkspaceSvg :=
  mkWorkspaceSvg (parentWorkspace w) (RTL w) (topBlocks_ w) (rendered w)
    (svgGroup_ w) (svgBlockCanvas_ w) (svgBubbleCanvas_ w) v (toolbox_ w)
    (trashcan w) (deleteAreaTrash_ w) (deleteAreaToolbox_ w) (SOUNDS_ w).

Definition set_trashcan (v : option Trashcan) (w : WorkspaceSvg) : WorkspaceSvg :=
  mkWorkspaceSvg (parentWorkspace w) (RTL w) (topBlocks_ w) (rendered w)
    (svgGroup_ w) (svgBlockCanvas_ w) (svgBubbleCanvas_ w) (flyout_ w)
    (toolbox_ w) v (deleteAreaTrash_ w) (deleteAreaToolbox_ w) (SOUNDS_ w).

Definition set_deleteAreaTrash_ (v : option Rect.t) (w : WorkspaceSvg) : WorkspaceSvg :=
  mkWorkspaceSvg (parentWorkspace w) (RTL w) (topBlocks_ w) (rendered w)
    (svgGroup_ w) (svgBlockCanvas_ w) (svgBubbleCanvas_ w) (flyout_ w)
    (toolbox_ w) (trashcan w) v (deleteAreaToolbox_ w) (SOUNDS_ w).

Definition set_deleteAreaToolbox_ (v : option Rect.t) (w : WorkspaceSvg) : WorkspaceSvg :=
  mkWorkspaceSvg (parentWorkspace w) (RTL w) (topBlocks_ w) (rendered w)
    (svgGroup_ w) (svgBlockCanvas_ w) (svgBubbleCanvas_ w) (flyout_ w)
    (toolbox_ w) (trashcan w) (deleteAreaTrash_ w) v (SOUNDS_ w).

Definition set_SOUNDS_ (v : list (string * Sound)) (w : WorkspaceSvg) : WorkspaceSvg :=
  mkWorkspaceSvg (parentWorkspace w) (RTL w) (topBlocks_ w) (rendered w)
    (svgGroup_ w) (svgBlockCanvas_ w) (svgBubbleCanvas_ w) (flyout_ w)
    (toolbox_ w) (trashcan w) (deleteAreaTrash_ w) (deleteAreaToolbox_ w) v.

(** Modelled from the spec: [Blockly.Workspace.prototype.getAllBlocks] belongs
    to the base workspace, which is not part of this file; the spec describes
    its result as every block reachable from the top-level set.  The order of
    the result is not relied upon below. *)
Definition getAllBlocks (w : WorkspaceSvg) : list Block :=
  flat_map (fun b => b :: descendantBlocks b) (topBlocks_ w).

(** Calls into collaborators, in the order the code makes them. *)
Inductive Effect : Type :=
| Workspace_dispose                                   (* superClass_.dispose.call(this) *)
| Dom_removeNode (node : nat)
| Flyout_dispose (f : Flyout)
| Trashcan_dispose (t : Trashcan)
| Trashcan_setOpen_ (t : Trashcan) (open : bool)
| Css_setCursor (c : Cursor)
| FireUiEvent (node : nat) (eventName : string)
| Block_render (b : Block)
| Xml_domToBlock (xmlBlock : Element)
| Block_moveBy (b : Block) (dx dy : Z)
| Block_select (b : Block)
| Audio_new_test                                      (* new window['Audio']() *)
| Audio_canPlayType (mime : string)
| Audio_new (filename : string)
| Audio_cloneNode (s : Sound)
| Audio_setVolume (s : Sound) (v : JsValue)
| Audio_play (s : Sound)
| Audio_pause (s : Sound)
| Parent_playAudio (parent : WorkspaceSvg) (name : string) (opt_volume : JsValue).

(** The trace-and-state result of a method that updates [this]. *)
Definition Step : Type := WorkspaceSvg -> WorkspaceSvg * list Effect.

Definition seq (s1 s2 : Step) : Step :=
  fun w =>
    let (w1, t1) := s1 w in
    let (w2, t2) := s2 w1 in
    (w2, t1 ++ t2).

Definition skip : Step := fun w => (w, []).

Definition run (steps : list Step) : Step := fold_right seq skip steps.

Definition assign (set : WorkspaceSvg -> WorkspaceSvg) : Step := fun w => (set w, []).

Definition call (e : Effect) : Step := fun w => (w, [e]).

(** [if (this.f) { body(this.f) }] *)
Definition whenSome {A : Type} (field : WorkspaceSvg -> option A) (body : A -> Step)
  : Step :=
  fun w =>
    match field w with
    | Some a => body a w
    | None => (w, [])
    end.

(* ------------------------------------------------------------------ *)
(** ** dispose *)

(** The statements of [Blockly.WorkspaceSvg.prototype.dispose], in order.  The
    base class's [dispose] is a call into code outside this file; its work on
    the block set is not part of this model. *)
Definition dispose_statements : list Step :=
  [ assign (set_rendered false);
    call Workspace_dispose;
    whenSome svgGroup_
      (fun g => seq (call (Dom_removeNode g)) (assign (set_svgGroup_ None)));
    assign (set_svgBlockCanvas_ None);
    assign (set_svgBubbleCanvas_ None);
    whenSome flyout_
      (fun f => seq (call (Flyout_dispose f)) (assign (set_flyout_ None)));
    whenSome trashcan
      (fun t => seq (call (Trashcan_dispose t)) (assign (set_trashcan None))) ].

Definition dispose : Step := run dispose_statements.

(** [fireChangeEvent]: the notification that re-rendering code listens to. *)
Definition fireChangeEvent (w : WorkspaceSvg) : list Effect :=
  if rendered w then
    match svgBlockCanvas_ w with
    | Some canvas => [FireUiEvent canvas "blocklyWorkspaceChange"]
    | None => []
    end
  else [].

(* ------------------------------------------------------------------ *)
(** ** render *)

(** [for (var x = 0, block; block = renderList[x]; x++)] *)
Fixpoint render_loop (renderList : list Block) : list Effect :=
  match renderList with
  | [] => []
  | block :: rest =>
      (if (List.length (getChildren block) =? 0)%nat then [Block_render block] else [])
      ++ render_loop rest
  end.

Definition render (w : WorkspaceSvg) : list Effect :=
  render_loop (getAllBlocks w).

(* ------------------------------------------------------------------ *)
(** ** recordDeleteAreas and isDeleteArea *)

Definition recordDeleteAreas (w : WorkspaceSvg) : WorkspaceSvg :=
  let w1 :=
    match trashcan w with
    | Some t => set_deleteAreaTrash_ (Some (trashcanRect t)) w
    | None => set_deleteAreaTrash_ None w
    end in
  match flyout_ w1 with
  | Some f => set_deleteAreaToolbox_ (Some (flyoutRect f)) w1
  | None =>
      match toolbox_ w1 with
      | Some tb => set_deleteAreaToolbox_ (Some (toolboxRect tb)) w1
      | None => set_deleteAreaToolbox_ None w1
      end
  end.

Section DeleteArea.

(** [Blockly.mouseToSvg]: pointer event to surface coordinates. *)
Variable mouseToSvg : MouseEvent -> Coordinate.t.

(** The tail of [isDeleteArea], from the toolbox test on. *)
Definition isDeleteArea_toolbox (w : WorkspaceSvg) (xy : Coordinate.t)
  : bool * list Effect :=
  match deleteAreaToolbox_ w with
  | Some area =>
      if Rect.contains area xy
      then (true, [Css_setCursor DELETE])
      else (false, [Css_setCursor CLOSED])
  | None => (false, [Css_setCursor CLOSED])
  end.

(** [None] is the TypeError of [this.trashcan.setOpen_] on a null trashcan. *)
Definition isDeleteArea (w : WorkspaceSvg) (e : MouseEvent)
  : option (bool * list Effect) :=
  let mouseXY := mouseToSvg e in
  let xy := Coordinate.mk (Coordinate.x mouseXY) (Coordinate.y mouseXY) in
  match deleteAreaTrash_ w with
  | Some area =>
      match trashcan w with
      | None => None
      | Some t =>
          if Rect.contains area xy
          then Some (true, [Trashcan_setOpen_ t true; Css_setCursor DELETE])
          else
            let (isDelete, trace) := isDeleteArea_toolbox w xy in
            Some (isDelete, Trashcan_setOpen_ t false :: trace)
      end
  | None => Some (isDeleteArea_toolbox w xy)
  end.

End DeleteArea.

(* ------------------------------------------------------------------ *)
(** ** paste *)

(** The variables of the collision loop of [paste]. *)
Record Candidate : Type := mkCandidate { blockX : Z; blockY : Z; collide : bool }.

(** [length >= this.remainingCapacity()] *)
Definition reachesCapacity (length : nat) (capacity : Capacity) : bool :=
  match capacity with
  | Finite n => n <=? Z.of_nat length
  | Infinity => false
  end.

(** The capacity condition in the words of the specification: the blocks of
    the serialized subtree (its root and every block element below it) are more
    than the workspace can still take. *)
Definition blocksIn (xmlBlock : Element) : Z :=
  1 + Z.of_nat (List.length (getElementsByTagName xmlBlock "block")).

Definition exceedsCapacity (xmlBlock : Element) (capacity : Capacity) : bool :=
  match capacity with
  | Finite n => n <? blocksIn xmlBlock
  | Infinity => false
  end.

Section Paste.

(** [Blockly.SNAP_RADIUS], a constant of the library's main file. *)
Variable SNAP_RADIUS : Z.

(** [this.remainingCapacity()], a method of the base workspace. *)
Variable remainingCapacity : WorkspaceSvg -> Capacity.

(** [Blockly.Xml.domToBlock(this, xmlBlock)]: the workspace once the block is
    in it, and the new block. *)
Variable domToBlock : WorkspaceSvg -> Element -> WorkspaceSvg * Block.

(** The test inside the [for] loop. *)
Definition clobbers (bx by_ : Z) (otherBlock : Block) : bool :=
  let otherXY := getRelativeToSurfaceXY otherBlock in
  (Z.abs (bx - Coordinate.x otherXY) <=? 1)
  && (Z.abs (by_ - Coordinate.y otherXY) <=? 1).

(** One offset of the candidate. *)
Definition offset (rtl : bool) (c : Candidate) : Candidate :=
  mkCandidate
    (if rtl then blockX c - SNAP_RADIUS else blockX c + SNAP_RADIUS)
    (blockY c + SNAP_RADIUS * 2)
    true.

(** The body of the [for] loop. *)
Definition scan_body (rtl : bool) (c : Candidate) (otherBlock : Block) : Candidate :=
  if clobbers (blockX c) (blockY c) otherBlock then offset rtl c else c.

(** One pass of the [for] loop over [allBlocks], entered with
    [collide = false]. *)
Definition scan (rtl : bool) (allBlocks : list Block) (bx by_ : Z) : Candidate :=
  fold_left (scan_body rtl) allBlocks (mkCandidate bx by_ false).

(** The [do ... while (collide)] loop; [None] when [fuel] passes do not
    suffice.  Coordinates are integers: the sums and differences are those of
    the source as long as they stay in the range where its floating-point
    numbers are exact ([inExactRange]). *)
Fixpoint offset_loop (fuel : nat) (rtl : bool) (allBlocks : list Block)
  (bx by_ : Z) : option (Z * Z) :=
  match fuel with
  | O => None
  | S fuel' =>
      let c := scan rtl allBlocks bx by_ in
      if collide c
      then offset_loop fuel' rtl allBlocks (blockX c) (blockY c)
      else Some (blockX c, blockY c)
  end.

(** The values the loop variables take: after each iteration of the [for]
    loop ... *)
Fixpoint scan_history (rtl : bool) (allBlocks : list Block) (c : Candidate)
  : list Candidate :=
  match allBlocks with
  | [] => []
  | otherBlock :: rest =>
      let c' := scan_body rtl c otherBlock in
      c' :: scan_history rtl rest c'
  end.

(** ... over all passes of the [do] loop. *)
Fixpoint offset_history (fuel : nat) (rtl : bool) (allBlocks : list Block)
  (bx by_ : Z) : list Candidate :=
  match fuel with
  | O => []
  | S fuel' =>
      let c := scan rtl allBlocks bx by_ in
      scan_history rtl allBlocks (mkCandidate bx by_ false)
      ++ (if collide c
          then offset_history fuel' rtl allBlocks (blockX c) (blockY c)
          else [])
  end.

(** [paste]: the workspace afterwards and the calls made, or [None] when the
    collision loop has not ended within [fuel] passes. *)
Definition paste (fuel : nat) (w : WorkspaceSvg) (xmlBlock : Element)
  : option (WorkspaceSvg * list Effect) :=
  if reachesCapacity (List.length (getElementsByTagName xmlBlock "block"))
       (remainingCapacity w)
  then Some (w, [])
  else
    let (w', block) := domToBlock w xmlBlock in
    match parseInt (getAttribute xmlBlock "x"),
          parseInt (getAttribute xmlBlock "y") with
    | Some bx, Some by_ =>
        let bx := if RTL w' then - bx else bx in
        match offset_loop fuel (RTL w') (getAllBlocks w') bx by_ with
        | Some (bx', by') =>
            Some (w', [Xml_domToBlock xmlBlock; Block_moveBy block bx' by';
                       Block_select block])
        | None => None
        end
    | _, _ => Some (w', [Xml_domToBlock xmlBlock; Block_select block])
    end.

(** Modelled from the spec: [Blockly.Block.prototype.moveBy] is block code
    outside this file; the spec describes it as a relative move from the
    block's current position. *)
Definition positionAfterMoveBy (b : Block) (dx dy : Z) : Coordinate.t :=
  Coordinate.mk (Coordinate.x (getRelativeToSurfaceXY b) + dx)
                (Coordinate.y (getRelativeToSurfaceXY b) + dy).

(** The placement algorithm in the words of the specification: test the
    candidate against every block; on a collision shift it and start over;
    stop at a candidate that no block collides with. *)
Definition collision (allBlocks : list Block) (bx by_ : Z) : bool :=
  existsb (clobbers bx by_) allBlocks.

Fixpoint place_by_words (fuel : nat) (rtl : bool) (allBlocks : list Block)
  (bx by_ : Z) : option (Z * Z) :=
  match fuel with
  | O => None
  | S fuel' =>
      if collision allBlocks bx by_
      then place_by_words fuel' rtl allBlocks
             (if rtl then bx - SNAP_RADIUS else bx + SNAP_RADIUS)
             (by_ + 2 * SNAP_RADIUS)
      else Some (bx, by_)
  end.

(** *** Vocabulary for the properties of the loop *)

(** The horizontal step, signed by the direction of the workspace. *)
Definition stepX (rtl : bool) : Z := if rtl then - SNAP_RADIUS else SNAP_RADIUS.

(** The candidate after [k] offsets. *)
Definition shifted (rtl : bool) (k : nat) (c : Candidate) (flag : bool) : Candidate :=
  mkCandidate (blockX c + Z.of_nat k * stepX rtl)
    (blockY c + Z.of_nat k * (SNAP_RADIUS * 2)) flag.

Definition position (c : Candidate) : Z * Z := (blockX c, blockY c).

(** Relative to the initial candidate [(x0, y0)]: the ordinate has grown by
    twice the distance the abscissa has moved, and the abscissa has moved
    towards the side the direction prescribes. *)
Definition two_to_one (rtl : bool) (x0 y0 : Z) (c : Candidate) : Prop :=
  (if rtl then blockX c <= x0 else x0 <= blockX c)
  /\ blockY c - y0 = 2 * Z.abs (blockX c - x0).

(** No block lies lower than this. *)
Definition lowestEdge (allBlocks : list Block) : Z :=
  fold_right (fun b m => Z.max (Coordinate.y (getRelativeToSurfaceXY b)) m) 0 allBlocks.

(** Passes of the [do] loop that suffice from ordinate [by_]. *)
Definition enoughFuel (allBlocks : list Block) (by_ : Z) : nat :=
  S (Z.to_nat (lowestEdge allBlocks + 2 - by_)).

End Paste.

(* ------------------------------------------------------------------ *)
(** ** Sounds *)

(** [this.SOUNDS_[name]] on an object without prototype. *)
Fixpoint lookupSound (name : string) (sounds : list (string * Sound)) : option Sound :=
  match sounds with
  | [] => None
  | (k, v) :: rest => if String.eqb k name then Some v else lookupSound name rest
  end.

(** [this.SOUNDS_[name] = sound]: an existing property keeps its place, a new
    one is added at the end.  The list is in the order [for ... in] visits the
    properties as long as no name is an array index (such names are visited
    first, in numeric order); the properties that depend on the order assume
    [plainRegistry]. *)
Fixpoint storeSound (name : string) (sound : Sound) (sounds : list (string * Sound))
  : list (string * Sound) :=
  match sounds with
  | [] => [(name, sound)]
  | (k, v) :: rest =>
      if String.eqb k name then (k, sound) :: rest
      else (k, v) :: storeSound name sound rest
  end.

Section Audio.

(** [window['Audio']]; [None] when the browser has no audio support. *)
Variable window_Audio : option AudioSupport.

Variable userAgent : UserAgent.

(** The [for] loop of [loadAudio_]: the chosen sound, if any, and the calls
    made on the test node and the constructor. *)
Fixpoint loadAudio_loop (audioTest : AudioSupport) (filenames : list string)
  : option Sound * list Effect :=
  match filenames with
  | [] => (None, [])
  | filename :: rest =>
      match matchExt filename with
      | Some ext =>
          let mime := String.append "audio/" ext in
          if truthy (canPlayType audioTest mime)
          then (Some (Audio filename), [Audio_canPlayType mime; Audio_new filename])
          else
            let (sound, trace) := loadAudio_loop audioTest rest in
            (sound, Audio_canPlayType mime :: trace)
      | None => loadAudio_loop audioTest rest
      end
  end.

Definition loadAudio_ (w : WorkspaceSvg) (filenames : list string) (name : string)
  : WorkspaceSvg * list Effect :=
  match window_Audio, filenames with
  | None, _ => (w, [])
  | Some _, [] => (w, [])
  | Some audioTest, _ :: _ =>
      let (sound, trace) := loadAudio_loop audioTest filenames in
      match sound with
      | Some s =>
          if hasPlay audioTest
          then (set_SOUNDS_ (storeSound name s (SOUNDS_ w)) w, Audio_new_test :: trace)
          else (w, Audio_new_test :: trace)
      | None => (w, Audio_new_test :: trace)
      end
  end.

(** The [for ... in] loop of [preloadAudio_]. *)
Fixpoint preloadAudio_loop (sounds : list (string * Sound)) : list Effect :=
  match sounds with
  | [] => []
  | (_, sound) :: rest =>
      [Audio_setVolume sound (Number (1 # 100)); Audio_play sound; Audio_pause sound]
      ++ (if IPAD userAgent || IPHONE userAgent then [] else preloadAudio_loop rest)
  end.

Definition preloadAudio_ (w : WorkspaceSvg) : list Effect :=
  preloadAudio_loop (SOUNDS_ w).

(** [goog.userAgent.DOCUMENT_MODE && goog.userAgent.DOCUMENT_MODE === 9] *)
Definition ie9 : bool :=
  match DOCUMENT_MODE userAgent with
  | Some mode => mode =? 9
  | None => false
  end.

(** The branch of [playAudio] for a sound this workspace has. *)
Definition playSound (sound : Sound) (opt_volume : JsValue) : list Effect :=
  let volume :=
    match opt_volume with
    | Undefined => Number 1
    | _ => opt_volume
    end in
  if ie9 || IPAD userAgent || ANDROID userAgent
  then [Audio_setVolume sound volume; Audio_play sound]
  else [Audio_cloneNode sound;
        Audio_setVolume (cloneNode sound) volume; Audio_play (cloneNode sound)].

Fixpoint playAudio (w : WorkspaceSvg) (name : string) (opt_volume : JsValue)
  {struct w} : list Effect :=
  match lookupSound name (SOUNDS_ w) with
  | Some sound => playSound sound opt_volume
  | None =>
      match parentWorkspace w with
      | Some parent =>
          Parent_playAudio parent name opt_volume :: playAudio parent name opt_volume
      | None => []
      end
  end.

End Audio.

(* ------------------------------------------------------------------ *)
(** ** Vocabulary of the specification *)

(** The point lies in the trash rectangle last recorded, if there is one. *)
Definition insideTrash (w : WorkspaceSvg) (p : Coordinate.t) : bool :=
  match deleteAreaTrash_ w with
  | Some area => Rect.contains area p
  | None => false
  end.

(** The point lies in the palette rectangle last recorded, if there is one. *)
Definition insideToolbox (w : WorkspaceSvg) (p : Coordinate.t) : bool :=
  match deleteAreaToolbox_ w with
  | Some area => Rect.contains area p
  | None => false
  end.

(** A block with no children. *)
Definition isLeaf (b : Block) : bool := (List.length (getChildren b) =? 0)%nat.

(** [b] is a child of [p], or a child of a descendant of [p]. *)
Inductive descendantOf (p : Block) : Block -> Prop :=
| descendant_child (b : Block) :
    In b (getChildren p) -> descendantOf p b
| descendant_step (c b : Block) :
    descendantOf p c -> In b (getChildren c) -> descendantOf p b.

(** [b] is reachable from the top-level set. *)
Definition reachable (w : WorkspaceSvg) (b : Block) : Prop :=
  In b (topBlocks_ w)
  \/ exists top : Block, In top (topBlocks_ w) /\ descendantOf top b.

(** The parent, the parent's parent, and so on. *)
Fixpoint ancestors (w : WorkspaceSvg) : list WorkspaceSvg :=
  match parentWorkspace w with
  | Some parent => parent :: ancestors parent
  | None => []
  end.

(** How many workspaces at the head of [chain] do not have the sound. *)
Fixpoint misses (name : string) (chain : list WorkspaceSvg) : nat :=
  match chain with
  | [] => 0
  | w :: rest =>
      match lookupSound name (SOUNDS_ w) with
      | Some _ => 0
      | None => S (misses name rest)
      end
  end.

(** The candidate's extension is declared playable by the capability probe. *)
Definition playable (audioTest : AudioSupport) (filename : string) : bool :=
  match matchExt filename with
  | Some ext => truthy (canPlayType audioTest (String.append "audio/" ext))
  | None => false
  end.

(** The elements of [l] up to and including the first that satisfies [f]. *)
Fixpoint upToFirst {A : Type} (f : A -> bool) (l : list A) : list A :=
  match l with
  | [] => []
  | a :: rest => if f a then [a] else a :: upToFirst f rest
  end.

(** The capability questions asked for a list of candidates. *)
Definition probes (filenames : list string) : list Effect :=
  flat_map
    (fun filename =>
       match matchExt filename with
       | Some ext => [Audio_canPlayType (String.append "audio/" ext)]
       | None => []
       end)
    filenames.

(** Calls that belong to format probing. *)
Definition isProbe (e : Effect) : bool :=
  match e with
  | Audio_new_test | Audio_canPlayType _ => true
  | _ => false
  end.

(** What preloading does to one sound. *)
Definition preloadOne (sound : Sound) : list Effect :=
  [Audio_setVolume sound (Number (1 # 100)); Audio_play sound; Audio_pause sound].

(** The references the specification expects to be null after teardown: the
    surface, its two layers, the palette of either kind and the trash target. *)
Definition componentsReleased (w : WorkspaceSvg) : Prop :=
  svgGroup_ w = None /\ svgBlockCanvas_ w = None /\ svgBubbleCanvas_ w = None
  /\ flyout_ w = None /\ toolbox_ w = None /\ trashcan w = None.

(** Induction on a block with the hypothesis for all its children. *)
Fixpoint Block_children_ind (P : Block -> Prop)
  (step : forall (i : nat) (xy : Coordinate.t) (kids : list Block),
      Forall P kids -> P (mkBlock i xy kids))
  (b : Block) {struct b} : P b :=
  match b with
  | mkBlock i xy kids =>
      step i xy kids
        ((fix all (l : list Block) : Forall P l :=
            match l with
            | [] => Forall_nil P
            | k :: l' => Forall_cons k (Block_children_ind P step k) (all l')
            end) kids)
  end.

(** Induction on a workspace with the hypothesis for its parent. *)
Fixpoint WorkspaceSvg_parent_ind (P : WorkspaceSvg -> Prop)
  (root : forall w : WorkspaceSvg, parentWorkspace w = None -> P w)
  (child : forall w parent : WorkspaceSvg,
      parentWorkspace w = Some parent -> P parent -> P w)
  (w : WorkspaceSvg) {struct w} : P w :=
  match w as w0 return P w0 with
  | mkWorkspaceSvg (Some parent) rt tb rd g bc uc f x tc dt dx sn =>
      child (mkWorkspaceSvg (Some parent) rt tb rd g bc uc f x tc dt dx sn) parent
        eq_refl (WorkspaceSvg_parent_ind P root child parent)
  | mkWorkspaceSvg None rt tb rd g bc uc f x tc dt dx sn =>
      root (mkWorkspaceSvg None rt tb rd g bc uc f x tc dt dx sn) eq_refl
  end.

(** The workspace has a sound under [name]. *)
Definition hasSound (name : string) (w : WorkspaceSvg) : bool :=
  match lookupSound name (SOUNDS_ w) with
  | Some _ => true
  | None => false
  end.

(** Calls that start the playing of a node. *)
Definition isPlay (e : Effect) : bool :=
  match e with
  | Audio_play _ => true
  | _ => false
  end.

(** Calls that go to the parent workspace. *)
Definition isDelegation (e : Effect) : bool :=
  match e with
  | Parent_playAudio _ _ _ => true
  | _ => false
  end.

(** The rectangle of the palette that [recordDeleteAreas] reads: the flyout's,
    else the toolbox's. *)
Definition paletteRect (w : WorkspaceSvg) : option Rect.t :=
  match flyout_ w with
  | Some f => Some (flyoutRect f)
  | None => option_map toolboxRect (toolbox_ w)
  end.

Definition insideRect (area : option Rect.t) (p : Coordinate.t) : bool :=
  match area with
  | Some r => Rect.contains r p
  | None => false
  end.

(* ------------------------------------------------------------------ *)
(** ** Trace mode: traceOn and highlightBlock *)

(** What [Blockly.bindEvent_] returns: the data of the binding, that is the
    node and the name of the event (the handler is always the same closure). *)
Record Wrapper : Type := mkWrapper { wrapperNode : option nat; wrapperEvent : string }.

(** The workspace together with the two fields of trace mode; [traceOn_] is
    [undefined], that is falsy, until [traceOn] is first called. *)
Record Traced : Type :=
  mkTraced { workspace : WorkspaceSvg;
             traceOn_ : bool;
             traceWrapper_ : option Wrapper }.

(** The calls of trace mode into the rest of the library and the browser. *)
Inductive TraceCall : Type :=
| Blockly_unbindEvent_ (wrapper : Wrapper)
| Blockly_bindEvent_ (node : option nat) (eventName : string)
| Highlight_select (block : Block)                 (* block.select() *)
| Selected_unselect (block : Block)                (* Blockly.selected.unselect() *)
| SetTimeout_traceOn (armed : bool) (delay : Z).   (* setTimeout(... traceOn(armed) ..., delay) *)

Definition traceOn (armed : bool) (t : Traced) : Traced * list TraceCall :=
  let unbinding :=
    match traceWrapper_ t with
    | Some wrapper => [Blockly_unbindEvent_ wrapper]
    | None => []
    end in
  if armed
  then (mkTraced (workspace t) armed
          (Some (mkWrapper (svgBlockCanvas_ (workspace t)) "blocklySelectChange")),
        unbinding
        ++ [Blockly_bindEvent_ (svgBlockCanvas_ (workspace t)) "blocklySelectChange"])
  else (mkTraced (workspace t) armed None, unbinding).

(** The handler bound by [traceOn]: [function() {this.traceOn_ = false}]. *)
Definition onSelectChange (t : Traced) : Traced :=
  mkTraced (workspace t) false (traceWrapper_ t).

(** The function handed to [setTimeout] by [highlightBlock]. *)
Definition onTimeout (t : Traced) : Traced * list TraceCall := traceOn true t.

(** [if (id)] on a [?string]. *)
Definition idGiven (id : option string) : bool :=
  match id with
  | Some s => truthy s
  | None => false
  end.

Section Highlight.

(** [this.getBlockById(id)], a method of the base workspace; [None] is null. *)
Variable getBlockById : WorkspaceSvg -> string -> option Block.

(** [highlightBlock(id)] with the globals it reads: [Blockly.dragMode_] and
    [Blockly.selected]. *)
Definition highlightBlock (dragMode_ : Z) (selected : option Block)
  (id : option string) (t : Traced) : Traced * list TraceCall :=
  let (t1, calls1) :=
    if traceOn_ t && negb (dragMode_ =? 0) then traceOn false t else (t, []) in
  if negb (traceOn_ t1) then (t1, calls1)
  else
    let block :=
      match id with
      | Some s => if truthy s then getBlockById (workspace t1) s else None
      | None => None
      end in
    match idGiven id, block with
    | true, None => (t1, calls1)
    | _, _ =>
        let (t2, calls2) := traceOn false t1 in
        let selecting :=
          match block with
          | Some b => [Highlight_select b]
          | None =>
              match selected with
              | Some s => [Selected_unselect s]
              | None => []
              end
          end in
        (t2, calls1 ++ calls2 ++ selecting ++ [SetTimeout_traceOn true 1])
    end.

End Highlight.

Definition Wrapper_eqb (a b : Wrapper) : bool :=
  match wrapperNode a, wrapperNode b with
  | Some n, Some m => (n =? m)%nat
  | None, None => true
  | _, _ => false
  end
  && String.eqb (wrapperEvent a) (wrapperEvent b).

(** Modelled from the spec: [Blockly.bindEvent_] and [Blockly.unbindEvent_]
    are library code outside this file; the spec speaks of the listener that
    watches for selection changes while trace mode is on.  Binding adds a
    listener, unbinding removes the one the wrapper stands for. *)
Fixpoint unbind (wrapper : Wrapper) (bound : list Wrapper) : list Wrapper :=
  match bound with
  | [] => []
  | b :: rest => if Wrapper_eqb b wrapper then rest else b :: unbind wrapper rest
  end.

Definition afterCall (bound : list Wrapper) (c : TraceCall) : list Wrapper :=
  match c with
  | Blockly_bindEvent_ node eventName => mkWrapper node eventName :: bound
  | Blockly_unbindEvent_ wrapper => unbind wrapper bound
  | _ => bound
  end.

(** The listeners bound once the calls have been made, starting from [bound]. *)
Definition listenersAfter (bound : list Wrapper) (calls : list TraceCall) : list Wrapper :=
  fold_left afterCall calls bound.

(** The listeners are exactly the one the workspace holds a wrapper for. *)
Definition listenersHeld (t : Traced) (bound : list Wrapper) : Prop :=
  bound = match traceWrapper_ t with
          | Some wrapper => [wrapper]
          | None => []
          end.

(* ------------------------------------------------------------------ *)
(** ** Building the surface: createDom, addTrashcan_, addFlyout_, translate *)

(** The options [createDom] reads; [languageTree] stands for the truthiness of
    [options.languageTree]. *)
Record Options : Type :=
  mkOptions { hasTrashcan : bool; hasCategories : bool; languageTree : bool }.

(** The workspace with its options and the one further field [createDom]
    writes. *)
Record Surface : Type :=
  mkSurface { this : WorkspaceSvg; options : Options; svgBackground_ : option nat }.

(** The document: the next node to be made, and the children of the nodes that
    have some, the latest entry for a node being the current one. *)
Record Document : Type := mkDocument { fresh : nat; tree : list (nat * list nat) }.

Fixpoint childrenIn (entries : list (nat * list nat)) (parent : nat) : list nat :=
  match entries with
  | [] => []
  | (node, kids) :: rest => if (node =? parent)%nat then kids else childrenIn rest parent
  end.

Definition childrenOf (d : Document) (parent : nat) : list nat :=
  childrenIn (tree d) parent.

Definition setChildren (parent : nat) (kids : list nat) (d : Document) : Document :=
  mkDocument (fresh d) ((parent, kids) :: tree d).

Definition newNode (d : Document) : nat * Document :=
  (fresh d, mkDocument (S (fresh d)) (tree d)).

(** [parent.appendChild(node)] of the DOM. *)
Definition appendChild (parent node : nat) (d : Document) : Document :=
  setChildren parent (childrenOf d parent ++ [node]) d.

Fixpoint insertAt (node ref : nat) (kids : list nat) : option (list nat) :=
  match kids with
  | [] => None
  | kid :: rest =>
      if (kid =? ref)%nat then Some (node :: kid :: rest)
      else option_map (cons kid) (insertAt node ref rest)
  end.

(** [parent.insertBefore(node, ref)] of the DOM: at the end when [ref] is
    null, an error ([None]) when [ref] is not a child of [parent]. *)
Definition insertBefore (parent node : nat) (ref : option nat) (d : Document)
  : option Document :=
  match ref with
  | None => Some (appendChild parent node d)
  | Some r =>
      option_map (fun kids => setChildren parent kids d)
        (insertAt node r (childrenOf d parent))
  end.

(** The calls of [createDom] and [translate]. *)
Inductive DomCall : Type :=
| Blockly_createSvgElement (name : string) (attrs : list (string * string))
    (parent : option nat) (node : nat)
| Trashcan_new (t : Trashcan)
| Trashcan_createDom (t : Trashcan)
| Trashcan_init (t : Trashcan)
| Toolbox_new (tb : Toolbox)
| Flyout_new (f : Flyout) (rtl : bool)
| Flyout_set_autoClose (f : Flyout) (v : bool)
| Flyout_createDom (f : Flyout)
| Node_insertBefore (parent node : nat) (ref : option nat)
| Node_setAttribute (node : nat) (name value : string)
| Workspace_call (e : Effect).

(** Modelled from the spec: [Blockly.createSvgElement(name, attrs, parent)] is
    library code outside this file; the spec has [createDom] build the drawing
    surface and its child regions.  It makes a new element and, when a parent
    is given, appends it to the parent. *)
Definition createSvgElement (name : string) (attrs : list (string * string))
  (parent : option nat) (d : Document) : nat * Document * list DomCall :=
  let (node, d1) := newNode d in
  (node,
   match parent with
   | Some p => appendChild p node d1
   | None => d1
   end,
   [Blockly_createSvgElement name attrs parent node]).

Definition set_this (w : WorkspaceSvg) (s : Surface) : Surface :=
  mkSurface w (options s) (svgBackground_ s).

Definition set_toolbox_ (v : option Toolbox) (w : WorkspaceSvg) : WorkspaceSvg :=
  mkWorkspaceSvg (parentWorkspace w) (RTL w) (topBlocks_ w) (rendered w)
    (svgGroup_ w) (svgBlockCanvas_ w) (svgBubbleCanvas_ w) (flyout_ w) v
    (trashcan w) (deleteAreaTrash_ w) (deleteAreaToolbox_ w) (SOUNDS_ w).

Section CreateDom.

(** The rectangles the new trashcan, flyout and toolbox will report. *)
Variable trashRect flyRect boxRect : Rect.t.

(** [addTrashcan_]; the trashcan's [createDom] makes a node of its own.
    [None] is the TypeError of [this.svgGroup_.insertBefore] on a null group,
    or the DOM's error when the block canvas is not in the group. *)
Definition addTrashcan_ (s : Surface) (d : Document)
  : option (Surface * Document * list DomCall) :=
  let (svgTrashcan, d1) := newNode d in
  let t := mkTrashcan svgTrashcan trashRect in
  let w := set_trashcan (Some t) (this s) in
  match svgGroup_ w with
  | None => None
  | Some group =>
      match insertBefore group svgTrashcan (svgBlockCanvas_ w) d1 with
      | None => None
      | Some d2 =>
          Some (set_this w s, d2,
                [Trashcan_new t; Trashcan_createDom t;
                 Node_insertBefore group svgTrashcan (svgBlockCanvas_ w);
                 Trashcan_init t])
      end
  end.

(** [addFlyout_] *)
Definition addFlyout_ (s : Surface) (d : Document)
  : option (Surface * Document * list DomCall) :=
  let (svgFlyout, d1) := newNode d in
  let f := mkFlyout svgFlyout flyRect in
  let w := set_flyout_ (Some f) (this s) in
  match svgGroup_ w with
  | None => None
  | Some group =>
      match insertBefore group svgFlyout (svgBlockCanvas_ w) d1 with
      | None => None
      | Some d2 =>
          Some (set_this w s, d2,
                [Flyout_new f (RTL w); Flyout_set_autoClose f false;
                 Flyout_createDom f;
                 Node_insertBefore group svgFlyout (svgBlockCanvas_ w)])
      end
  end.

(** [createDom(opt_backgroundClass)]: the group returned, the workspace and
    the document afterwards, and the calls made. *)
Definition createDom (opt_backgroundClass : option string) (s : Surface) (d : Document)
  : option (option nat * Surface * Document * list DomCall) :=
  let '(group, d1, c1) := createSvgElement "g" [] None d in
  let s1 := set_this (set_svgGroup_ (Some group) (this s)) s in
  let '(s2, d2, c2) :=
    match opt_backgroundClass with
    | Some class =>
        if truthy class then
          let '(background, d', c') :=
            createSvgElement "rect"
              [("height", "100%"); ("width", "100%"); ("class", class)]
              (svgGroup_ (this s1)) d1 in
          (mkSurface (this s1) (options s1) (Some background), d', c')
        else (s1, d1, [])
    | None => (s1, d1, [])
    end in
  let '(blockCanvas, d3, c3) := createSvgElement "g" [] (svgGroup_ (this s2)) d2 in
  let s3 := set_this (set_svgBlockCanvas_ (Some blockCanvas) (this s2)) s2 in
  let '(bubbleCanvas, d4, c4) := createSvgElement "g" [] (svgGroup_ (this s3)) d3 in
  let s4 := set_this (set_svgBubbleCanvas_ (Some bubbleCanvas) (this s3)) s3 in
  match (if hasTrashcan (options s4) then addTrashcan_ s4 d4 else Some (s4, d4, [])) with
  | None => None
  | Some (s5, d5, c5) =>
      match
        (if hasCategories (options s5) then
           (* the toolbox takes a handle of its own; it adds nothing to the group *)
           let (node, d') := newNode d5 in
           let tb := mkToolbox node boxRect in
           Some (set_this (set_toolbox_ (Some tb) (this s5)) s5, d', [Toolbox_new tb])
         else if languageTree (options s5) then addFlyout_ s5 d5
         else Some (s5, d5, []))
      with
      | None => None
      | Some (s6, d6, c6) =>
          Some (svgGroup_ (this s6), s6, d6,
                c1 ++ c2 ++ c3 ++ c4 ++ c5 ++ c6
                ++ map Workspace_call (fireChangeEvent (this s6)))
      end
  end.

End CreateDom.

Definition getCanvas (w : WorkspaceSvg) : option nat := svgBlockCanvas_ w.

Definition getBubbleCanvas (w : WorkspaceSvg) : option nat := svgBubbleCanvas_ w.

(** The text of an integer as string concatenation produces it. *)
Definition numberToString (z : Z) : string := NilZero.string_of_int (Z.to_int z).

(** [translate(x, y)]; [None] is the TypeError of [setAttribute] on a null
    layer. *)
Definition translate (x y : Z) (w : WorkspaceSvg) : option (list DomCall) :=
  let translation :=
    String.append "translate("
      (String.append (numberToString x)
         (String.append "," (String.append (numberToString y) ")"))) in
  match svgBlockCanvas_ w, svgBubbleCanvas_ w with
  | Some blockCanvas, Some bubbleCanvas =>
      Some [Node_setAttribute blockCanvas "transform" translation;
            Node_setAttribute bubbleCanvas "transform" translation]
  | _, _ => None
  end.

(** The layers of a freshly built surface, from back to front, as the comment
    at the head of [createDom] draws them: the background, the trashcan and
    the flyout where there are such, the block canvas, the bubble canvas. *)
Definition layers (s : Surface) : list nat :=
  match svgBackground_ s with Some n => [n] | None => [] end
  ++ match trashcan (this s) with Some t => [trashcanNode t] | None => [] end
  ++ match flyout_ (this s) with Some f => [flyoutNode f] | None => [] end
  ++ match svgBlockCanvas_ (this s) with Some n => [n] | None => [] end
  ++ match svgBubbleCanvas_ (this s) with Some n => [n] | None => [] end.

(** A workspace as it is before [createDom]: no node, no component. *)
Definition unbuilt (s : Surface) : Prop :=
  svgBackground_ s = None /\ trashcan (this s) = None /\ flyout_ (this s) = None
  /\ toolbox_ (this s) = None.

(** [if (opt_backgroundClass)] on a [string=]: the argument is given and not
    the empty string. *)
Definition backgroundGiven (opt_backgroundClass : option string) : bool :=
  match opt_backgroundClass with
  | Some class => truthy class
  | None => false
  end.

(** The calls that go through the workspace's own notifications. *)
Definition isNotification (c : DomCall) : bool :=
  match c with
  | Workspace_call _ => true
  | _ => false
  end.

(** The text [translate] puts together for the [transform] attribute, for
    integers that string concatenation prints in full. *)
Definition translation (x y : Z) : string :=
  String.append "translate("
    (String.append (numberToString x)
       (String.append "," (String.append (numberToString y) ")"))).

(* ------------------------------------------------------------------ *)
(** ** The placement of the specification, with its own collision test *)

(** Two coordinates at most 1 unit apart, the bound included. *)
Definition withinOne (a b : Z) : bool := (a - b <=? 1) && (b - a <=? 1).

(** Some block of [others] has its position within 1 unit of the candidate on
    both axes. *)
Definition collisionByWords (others : list Block) (bx by_ : Z) : bool :=
  existsb
    (fun other =>
       withinOne bx (Coordinate.x (getRelativeToSurfaceXY other))
       && withinOne by_ (Coordinate.y (getRelativeToSurfaceXY other)))
    others.

(** The algorithm of the specification over the blocks [others]: on a
    collision shift the candidate by the snap increment sideways (to the left
    when right-to-left) and by twice the increment downwards, and scan again;
    stop at a candidate without collision. *)
Fixpoint place_by_spec (increment : Z) (fuel : nat) (rtl : bool) (others : list Block)
  (bx by_ : Z) : option (Z * Z) :=
  match fuel with
  | O => None
  | S fuel' =>
      if collisionByWords others bx by_
      then place_by_spec increment fuel' rtl others
             (if rtl then bx - increment else bx + increment)
             (by_ + 2 * increment)
      else Some (bx, by_)
  end.

(** A property name that is certainly no array index: it does not start with a
    digit.  ([for ... in] visits array indices first, in numeric order, and the
    other names in the order in which they were added.) *)
Definition plainName (name : string) : bool :=
  match name with
  | EmptyString => true
  | String c _ =>
      match digitValue c with
      | Some _ => false
      | None => true
      end
  end.

(** The registry lists its sounds in the order [for ... in] visits them: none
    of its names is an array index. *)
Definition plainRegistry (sounds : list (string * Sound)) : bool :=
  forallb (fun entry => plainName (fst entry)) sounds.

(* ------------------------------------------------------------------ *)
(** ** The range in which the arithmetic of the loop is exact *)

(** The numbers of the source are binary64 floating-point numbers: sums and
    differences of integers are the integers of this model as long as operands
    and result stay below 2^53 in absolute value. *)
Definition inExactRange (z : Z) : Prop := Z.abs z < 2 ^ 53.

(** The values of the loop variables and the two differences the [for] loop
    computes against each block are in that range. *)
Definition exactPass (allBlocks : list Block) (c : Candidate) : Prop :=
  inExactRange (blockX c) /\ inExactRange (blockY c)
  /\ Forall
       (fun otherBlock =>
          inExactRange (blockX c - Coordinate.x (getRelativeToSurfaceXY otherBlock))
          /\ inExactRange (blockY c - Coordinate.y (getRelativeToSurfaceXY otherBlock)))
       allBlocks.

(** Every block lies within [bound] of the origin, on both axes. *)
Definition blocksWithin (bound : Z) (allBlocks : list Block) : Prop :=
  Forall
    (fun b =>
       Z.abs (Coordinate.x (getRelativeToSurfaceXY b)) <= bound
       /\ Z.abs (Coordinate.y (getRelativeToSurfaceXY b)) <= bound)
    allBlocks.

(* ------------------------------------------------------------------ *)
(** ** Sample inputs *)

Module Sample.

Definition emptyWorkspace : WorkspaceSvg :=
  mkWorkspaceSvg None false [] true (Some 1%nat) (Some 2%nat) (Some 3%nat)
    None None None None None [].

(** One block at (10, 10). *)
Definition existing : Block := mkBlock 1 (Coordinate.mk 10 10) [].

Definition workspace : WorkspaceSvg := set_topBlocks_ [existing] emptyWorkspace.

(** A deserializer that puts a childless block at the origin. *)
Definition pasted : Block := mkBlock 2 (Coordinate.mk 0 0) [].

Definition domToBlock (w : WorkspaceSvg) (xmlBlock : Element) : WorkspaceSvg * Block :=
  (set_topBlocks_ (topBlocks_ w ++ [pasted]) w, pasted).

(** [<block type="text" x="10" y="10"></block>] *)
Definition xmlBlock : Element :=
  mkElement "block" [("type", "text"); ("x", "10"); ("y", "10")] [].

Definition unlimited (w : WorkspaceSvg) : Capacity := Infinity.

(** A trashcan and a flyout, and the workspace once their rectangles are
    recorded. *)
Definition bin : Trashcan := mkTrashcan 7 (Rect.mk 100 100 50 60).

Definition tray : Flyout := mkFlyout 8 (Rect.mk 0 0 40 300).

Definition withZones : WorkspaceSvg :=
  recordDeleteAreas (set_trashcan (Some bin) (set_flyout_ (Some tray) emptyWorkspace)).

Definition mouseToSvg (e : MouseEvent) : Coordinate.t :=
  Coordinate.mk (clientX e) (clientY e).

(** A workspace built with a category toolbox and a trashcan. *)
Definition categories : Toolbox := mkToolbox 9 (Rect.mk 0 0 120 300).

Definition withCategories : WorkspaceSvg :=
  mkWorkspaceSvg None false [] true (Some 1%nat) (Some 2%nat) (Some 3%nat)
    None (Some categories) (Some bin) None None [].

(** A browser that plays wav files only, and one for an iPad. *)
Definition wavOnly : AudioSupport :=
  mkAudioSupport (fun mime => if String.eqb mime "audio/wav" then "maybe" else "") true.

Definition desktop : UserAgent := mkUserAgent false false false None.

Definition tablet : UserAgent := mkUserAgent true false false None.

Definition click : Sound := Audio "media/click.wav".

Definition withSounds : WorkspaceSvg :=
  set_SOUNDS_ [("click", click); ("delete", Audio "media/delete.wav")] emptyWorkspace.

(** A flyout's workspace: no sounds of its own, [withSounds] as parent. *)
Definition nested : WorkspaceSvg :=
  mkWorkspaceSvg (Some withSounds) false [] true None (Some 5%nat) (Some 6%nat)
    None None None None None [].

(** Block A with the childless block B as its only child. *)
Definition blockB : Block := mkBlock 4 (Coordinate.mk 20 45) [].

Definition blockA : Block := mkBlock 3 (Coordinate.mk 20 20) [blockB].

Definition withStack : WorkspaceSvg := set_topBlocks_ [blockA] emptyWorkspace.

End Sample.

Module SampleTrace.

(** A workspace with a canvas and the block of [Sample.workspace]; its blocks
    are found under the names "one" and "two". *)
Definition getBlockById (w : WorkspaceSvg) (id : string) : option Block :=
  if String.eqb id "one" then Some Sample.existing
  else if String.eqb id "two" then Some Sample.pasted
  else None.

Definition idle : Traced := mkTraced Sample.workspace false None.

Definition tracing : Traced := fst (traceOn true idle).

End SampleTrace.

Module SampleDom.

(** A workspace straight from the constructor, with a trashcan and a flat
    palette asked for, and a document whose next node is 5. *)
Definition fresh_workspace : WorkspaceSvg :=
  mkWorkspaceSvg None false [] true None None None None None None None None [].

Definition surface : Surface :=
  mkSurface fresh_workspace (mkOptions true false true) None.

Definition document : Document := mkDocument 5 [].

Definition binRect : Rect.t := Rect.mk 100 100 50 60.

Definition trayRect : Rect.t := Rect.mk 0 0 40 300.

Definition boxRect : Rect.t := Rect.mk 0 0 120 300.

End SampleDom.

(* ------------------------------------------------------------------ *)
(** * Properties *)

(** ** The collision loop of paste *)

Section PasteFacts.

Variable SNAP_RADIUS : Z.
Variable rtl : bool.

#[local] Notation "'dx'" := (stepX SNAP_RADIUS rtl).

Lemma offset_shifted (c : Candidate) :
  offset SNAP_RADIUS rtl c = shifted SNAP_RADIUS rtl 1 c true.
Proof.
  unfold offset, shifted, stepX. destruct rtl; f_equal; lia.
Qed.

(** A pass of the [for] loop offsets the candidate some [k] times; each of
    the [k] positions it left collided with a block of the list, and when
    [k = 0] no block of the list collides with it. *)
Lemma scan_body_fold (allBlocks : list Block) :
  forall c : Candidate,
  exists k : nat,
    fold_left (scan_body SNAP_RADIUS rtl) allBlocks c
    = shifted SNAP_RADIUS rtl k c (collide c || negb (k =? 0)%nat)
    /\ (forall i : nat, (i < k)%nat ->
          collision allBlocks (blockX c + Z.of_nat i * dx)
            (blockY c + Z.of_nat i * (SNAP_RADIUS * 2)) = true)
    /\ (k = 0%nat -> collision allBlocks (blockX c) (blockY c) = false).
Proof.
  induction allBlocks as [|b rest IH]; intros c.
  - exists 0%nat. split; [|split].
    + unfold shifted; simpl. destruct c as [cx cy cf]; simpl.
      rewrite orb_false_r. f_equal; lia.
    + intros i Hi; lia.
    + reflexivity.
  - simpl. unfold scan_body at 2.
    destruct (clobbers (blockX c) (blockY c) b) eqn:Hhit.
    + destruct (IH (offset SNAP_RADIUS rtl c)) as [k [Hfold [Hleft _]]].
      exists (S k). rewrite Hfold. rewrite offset_shifted.
      unfold shifted; cbn [blockX blockY collide Nat.eqb negb orb].
      split; [|split].
      * rewrite orb_true_r. f_equal; lia.
      * intros i Hi. unfold collision; cbn [existsb].
        destruct i as [|i].
        -- replace (blockX c + Z.of_nat 0 * dx) with (blockX c) by lia.
           replace (blockY c + Z.of_nat 0 * (SNAP_RADIUS * 2)) with (blockY c) by lia.
           rewrite Hhit. reflexivity.
        -- apply orb_true_iff. right.
           assert (Hi' : (i < k)%nat) by lia.
           specialize (Hleft i Hi').
           rewrite offset_shifted in Hleft. unfold shifted in Hleft.
           simpl in Hleft. unfold collision in Hleft.
           replace (blockX c + Z.of_nat (S i) * dx)
             with (blockX c + 1 * dx + Z.of_nat i * dx) by lia.
           replace (blockY c + Z.of_nat (S i) * (SNAP_RADIUS * 2))
             with (blockY c + 1 * (SNAP_RADIUS * 2) + Z.of_nat i * (SNAP_RADIUS * 2)) by lia.
           exact Hleft.
      * intros Hk; discriminate.
    + destruct (IH c) as [k [Hfold [Hleft Hzero]]].
      exists k. split; [exact Hfold|]. split.
      * intros i Hi. unfold collision; cbn [existsb].
        apply orb_true_iff. right. apply Hleft; exact Hi.
      * intros Hk. unfold collision; cbn [existsb]. rewrite ?Hhit. cbn [orb].
        apply Hzero; exact Hk.
Qed.

Lemma scan_spec (allBlocks : list Block) (bx by_ : Z) :
  exists k : nat,
    scan SNAP_RADIUS rtl allBlocks bx by_
    = mkCandidate (bx + Z.of_nat k * dx) (by_ + Z.of_nat k * (SNAP_RADIUS * 2))
        (negb (k =? 0)%nat)
    /\ (forall i : nat, (i < k)%nat ->
          collision allBlocks (bx + Z.of_nat i * dx)
            (by_ + Z.of_nat i * (SNAP_RADIUS * 2)) = true)
    /\ (k = 0%nat -> collision allBlocks bx by_ = false).
Proof.
  unfold scan.
  destruct (scan_body_fold allBlocks (mkCandidate bx by_ false))
    as [k [Hfold [Hleft Hzero]]].
  exists k. split; [|split]; auto.
Qed.

(** What the [do] loop returns: the first candidate, counting offsets from
    the initial one, that no block collides with. *)
Lemma offset_loop_sound (allBlocks : list Block) :
  forall (fuel : nat) (bx by_ rx ry : Z),
    offset_loop SNAP_RADIUS fuel rtl allBlocks bx by_ = Some (rx, ry) ->
    exists k : nat,
      rx = bx + Z.of_nat k * dx
      /\ ry = by_ + Z.of_nat k * (SNAP_RADIUS * 2)
      /\ collision allBlocks rx ry = false
      /\ (forall i : nat, (i < k)%nat ->
            collision allBlocks (bx + Z.of_nat i * dx)
              (by_ + Z.of_nat i * (SNAP_RADIUS * 2)) = true).
Proof.
  induction fuel as [|fuel IH]; intros bx by_ rx ry Hrun.
  - discriminate.
  - cbn [offset_loop] in Hrun.
    destruct (scan_spec allBlocks bx by_) as [k [Hscan [Hleft Hzero]]].
    rewrite Hscan in Hrun. cbn [collide blockX blockY] in Hrun.
    destruct k as [|k]; cbn [Nat.eqb negb] in Hrun.
    + replace (bx + Z.of_nat 0 * dx) with bx in Hrun by lia.
      replace (by_ + Z.of_nat 0 * (SNAP_RADIUS * 2)) with by_ in Hrun by lia.
      inversion Hrun; subst rx ry.
      exists 0%nat.
      split; [lia|]. split; [lia|]. split; [apply Hzero; reflexivity|].
      intros i Hi; lia.
    + apply IH in Hrun.
      destruct Hrun as [j [Hx [Hy [Hfree Hbusy]]]].
      exists (S k + j)%nat.
      split; [rewrite Hx; lia|]. split; [rewrite Hy; lia|].
      split; [exact Hfree|].
      intros i Hi.
      destruct (Nat.lt_ge_cases i (S k)) as [Hlow|Hhigh].
      * apply Hleft; exact Hlow.
      * assert (Hi' : (i - S k < j)%nat) by lia.
        specialize (Hbusy (i - S k)%nat Hi').
        assert (Hz : Z.of_nat i = Z.of_nat (S k) + Z.of_nat (i - S k)) by lia.
        replace (bx + Z.of_nat i * dx)
          with (bx + Z.of_nat (S k) * dx + Z.of_nat (i - S k) * dx)
          by (rewrite Hz; ring).
        replace (by_ + Z.of_nat i * (SNAP_RADIUS * 2))
          with (by_ + Z.of_nat (S k) * (SNAP_RADIUS * 2)
                + Z.of_nat (i - S k) * (SNAP_RADIUS * 2))
          by (rewrite Hz; ring).
        exact Hbusy.
Qed.

Lemma place_by_words_step (allBlocks : list Block) (fuel : nat) (bx by_ : Z) :
  place_by_words SNAP_RADIUS (S fuel) rtl allBlocks bx by_
  = if collision allBlocks bx by_
    then place_by_words SNAP_RADIUS fuel rtl allBlocks (bx + dx) (by_ + 2 * SNAP_RADIUS)
    else Some (bx, by_).
Proof.
  cbn [place_by_words]. unfold stepX.
  destruct rtl; reflexivity.
Qed.

(** The algorithm in the spec's words stops at that same candidate. *)
Lemma place_by_words_first_free (allBlocks : list Block) :
  forall (k : nat) (bx by_ : Z),
    (forall i : nat, (i < k)%nat ->
       collision allBlocks (bx + Z.of_nat i * dx)
         (by_ + Z.of_nat i * (SNAP_RADIUS * 2)) = true) ->
    collision allBlocks (bx + Z.of_nat k * dx)
      (by_ + Z.of_nat k * (SNAP_RADIUS * 2)) = false ->
    place_by_words SNAP_RADIUS (S k) rtl allBlocks bx by_
    = Some (bx + Z.of_nat k * dx, by_ + Z.of_nat k * (SNAP_RADIUS * 2)).
Proof.
  induction k as [|k IH]; intros bx by_ Hbusy Hfree.
  - cbn [place_by_words].
    replace (bx + Z.of_nat 0 * dx) with bx in * by lia.
    replace (by_ + Z.of_nat 0 * (SNAP_RADIUS * 2)) with by_ in * by lia.
    rewrite Hfree. reflexivity.
  - rewrite place_by_words_step.
    assert (H0 : collision allBlocks bx by_ = true).
    { specialize (Hbusy 0%nat ltac:(lia)).
      replace (bx + Z.of_nat 0 * dx) with bx in Hbusy by lia.
      replace (by_ + Z.of_nat 0 * (SNAP_RADIUS * 2)) with by_ in Hbusy by lia.
      exact Hbusy. }
    rewrite H0.
    rewrite IH.
    + f_equal. f_equal; lia.
    + intros i Hi. specialize (Hbusy (S i) ltac:(lia)).
      replace (bx + dx + Z.of_nat i * dx) with (bx + Z.of_nat (S i) * dx) by lia.
      replace (by_ + 2 * SNAP_RADIUS + Z.of_nat i * (SNAP_RADIUS * 2))
        with (by_ + Z.of_nat (S i) * (SNAP_RADIUS * 2)) by lia.
      exact Hbusy.
    + replace (bx + dx + Z.of_nat k * dx) with (bx + Z.of_nat (S k) * dx) by lia.
      replace (by_ + 2 * SNAP_RADIUS + Z.of_nat k * (SNAP_RADIUS * 2))
        with (by_ + Z.of_nat (S k) * (SNAP_RADIUS * 2)) by lia.
      exact Hfree.
Qed.

Lemma offset_loop_refines_words (allBlocks : list Block) (fuel : nat)
  (bx by_ rx ry : Z) :
  offset_loop SNAP_RADIUS fuel rtl allBlocks bx by_ = Some (rx, ry) ->
  exists fuel' : nat,
    place_by_words SNAP_RADIUS fuel' rtl allBlocks bx by_ = Some (rx, ry).
Proof.
  intros Hrun.
  destruct (offset_loop_sound allBlocks fuel bx by_ rx ry Hrun)
    as [k [Hx [Hy [Hfree Hbusy]]]].
  exists (S k). subst rx ry.
  apply place_by_words_first_free; assumption.
Qed.

(** *** Termination *)

Lemma lowestEdge_bounds (allBlocks : list Block) (b : Block) :
  In b allBlocks ->
  Coordinate.y (getRelativeToSurfaceXY b) <= lowestEdge allBlocks.
Proof.
  induction allBlocks as [|b' rest IH]; intros Hin.
  - destruct Hin.
  - cbn [lowestEdge fold_right]. fold (lowestEdge rest).
    destruct Hin as [Heq|Hin].
    + subst b'. lia.
    + specialize (IH Hin). lia.
Qed.

Lemma clobbers_near (bx by_ : Z) (b : Block) :
  clobbers bx by_ b = true <->
  Z.abs (bx - Coordinate.x (getRelativeToSurfaceXY b)) <= 1
  /\ Z.abs (by_ - Coordinate.y (getRelativeToSurfaceXY b)) <= 1.
Proof.
  unfold clobbers. cbv zeta.
  rewrite andb_true_iff, !Z.leb_le. reflexivity.
Qed.

Lemma collision_above_lowestEdge (allBlocks : list Block) (bx by_ : Z) :
  collision allBlocks bx by_ = true -> by_ <= lowestEdge allBlocks + 1.
Proof.
  unfold collision. intros Hex.
  apply existsb_exists in Hex. destruct Hex as [b [Hin Hhit]].
  apply clobbers_near in Hhit. destruct Hhit as [_ Hy].
  pose proof (lowestEdge_bounds allBlocks b Hin). lia.
Qed.

Lemma offset_loop_terminates_within (allBlocks : list Block) :
  0 < SNAP_RADIUS ->
  forall (n : nat) (bx by_ : Z),
    lowestEdge allBlocks + 2 - by_ <= Z.of_nat n ->
    exists r : Z * Z, offset_loop SNAP_RADIUS (S n) rtl allBlocks bx by_ = Some r.
Proof.
  intros Hpos. induction n as [|n IH]; intros bx by_ Hn.
  - cbn [offset_loop].
    destruct (scan_spec allBlocks bx by_) as [k [Hscan [Hleft Hzero]]].
    rewrite Hscan. cbn [collide blockX blockY].
    destruct k as [|k]; cbn [Nat.eqb negb].
    + eexists; reflexivity.
    + exfalso. specialize (Hleft 0%nat ltac:(lia)).
      apply collision_above_lowestEdge in Hleft. lia.
  - change (offset_loop SNAP_RADIUS (S (S n)) rtl allBlocks bx by_)
      with (let c := scan SNAP_RADIUS rtl allBlocks bx by_ in
            if collide c
            then offset_loop SNAP_RADIUS (S n) rtl allBlocks (blockX c) (blockY c)
            else Some (blockX c, blockY c)).
    cbv zeta.
    destruct (scan_spec allBlocks bx by_) as [k [Hscan [Hleft Hzero]]].
    rewrite Hscan. cbn [collide blockX blockY].
    destruct k as [|k]; cbn [Nat.eqb negb].
    + eexists; reflexivity.
    + apply IH.
      specialize (Hleft 0%nat ltac:(lia)).
      apply collision_above_lowestEdge in Hleft. nia.
Qed.

Lemma offset_loop_terminates (allBlocks : list Block) (bx by_ : Z) :
  0 < SNAP_RADIUS ->
  exists r : Z * Z,
    offset_loop SNAP_RADIUS (enoughFuel allBlocks by_) rtl allBlocks bx by_ = Some r.
Proof.
  intros Hpos. unfold enoughFuel.
  apply offset_loop_terminates_within; [exact Hpos|]. lia.
Qed.

(** *** The ratio of the accumulated displacement *)

Lemma scan_body_two_to_one (x0 y0 : Z) (c : Candidate) (b : Block) :
  0 <= SNAP_RADIUS ->
  two_to_one rtl x0 y0 c ->
  two_to_one rtl x0 y0 (scan_body SNAP_RADIUS rtl c b).
Proof.
  intros Hpos [Hside Hratio]. unfold scan_body.
  destruct (clobbers (blockX c) (blockY c) b); [|split; assumption].
  unfold two_to_one, offset; cbn [blockX blockY].
  destruct rtl; split; lia.
Qed.

Lemma scan_history_two_to_one (x0 y0 : Z) (allBlocks : list Block) :
  0 <= SNAP_RADIUS ->
  forall c : Candidate,
    two_to_one rtl x0 y0 c ->
    Forall (two_to_one rtl x0 y0) (scan_history SNAP_RADIUS rtl allBlocks c)
    /\ two_to_one rtl x0 y0 (fold_left (scan_body SNAP_RADIUS rtl) allBlocks c).
Proof.
  intros Hpos. induction allBlocks as [|b rest IH]; intros c Hc.
  - split; [constructor | exact Hc].
  - cbn [scan_history fold_left].
    pose proof (scan_body_two_to_one x0 y0 c b Hpos Hc) as Hc'.
    destruct (IH _ Hc') as [Hall Hend].
    split; [constructor; assumption | exact Hend].
Qed.

Lemma offset_history_two_to_one (x0 y0 : Z) (allBlocks : list Block) :
  0 <= SNAP_RADIUS ->
  forall (fuel : nat) (bx by_ : Z),
    two_to_one rtl x0 y0 (mkCandidate bx by_ false) ->
    Forall (two_to_one rtl x0 y0) (offset_history SNAP_RADIUS fuel rtl allBlocks bx by_).
Proof.
  intros Hpos. induction fuel as [|fuel IH]; intros bx by_ Hc.
  - constructor.
  - cbn [offset_history]. apply Forall_app.
    destruct (scan_history_two_to_one x0 y0 allBlocks Hpos _ Hc) as [Hall Hend].
    split; [exact Hall|].
    fold (scan SNAP_RADIUS rtl allBlocks bx by_) in Hend.
    destruct (collide (scan SNAP_RADIUS rtl allBlocks bx by_)); [|constructor].
    apply IH. destruct Hend as [Hside Hratio]. split; assumption.
Qed.

(** *** The history ends where the loop ends *)

Lemma last_cons_default {A : Type} (l : list A) :
  forall a d d' : A, last (a :: l) d = last (a :: l) d'.
Proof.
  induction l as [|b l IH]; intros a d d'.
  - reflexivity.
  - change (last (a :: b :: l) d) with (last (b :: l) d).
    change (last (a :: b :: l) d') with (last (b :: l) d').
    apply IH.
Qed.

Lemma last_app_default {A : Type} (l l' : list A) (d : A) :
  last (l ++ l') d = last l' (last l d).
Proof.
  induction l as [|a l IH].
  - reflexivity.
  - destruct l as [|a' l].
    + destruct l' as [|b l']; [reflexivity|].
      change (last (b :: l') d = last (b :: l') a).
      apply last_cons_default.
    + change (last ((a :: a' :: l) ++ l') d) with (last ((a' :: l) ++ l') d).
      rewrite IH. reflexivity.
Qed.

Lemma scan_history_last (allBlocks : list Block) :
  forall c : Candidate,
    last (map position (scan_history SNAP_RADIUS rtl allBlocks c)) (position c)
    = position (fold_left (scan_body SNAP_RADIUS rtl) allBlocks c).
Proof.
  induction allBlocks as [|b rest IH]; intros c.
  - reflexivity.
  - cbn [scan_history fold_left map].
    rewrite <- IH.
    destruct (map position (scan_history SNAP_RADIUS rtl rest (scan_body SNAP_RADIUS rtl c b)))
      as [|p l]; [reflexivity|].
    change (last (p :: l) (position c)
            = last (p :: l) (position (scan_body SNAP_RADIUS rtl c b))).
    apply last_cons_default.
Qed.

Lemma offset_history_last (allBlocks : list Block) :
  forall (fuel : nat) (bx by_ : Z) (r : Z * Z),
    offset_loop SNAP_RADIUS fuel rtl allBlocks bx by_ = Some r ->
    last (map position (offset_history SNAP_RADIUS fuel rtl allBlocks bx by_)) (bx, by_) = r.
Proof.
  induction fuel as [|fuel IH]; intros bx by_ r Hrun.
  - discriminate.
  - cbn [offset_loop offset_history] in *.
    rewrite map_app, last_app_default.
    pose proof (scan_history_last allBlocks (mkCandidate bx by_ false)) as Hlast.
    fold (scan SNAP_RADIUS rtl allBlocks bx by_) in Hlast.
    change (position (mkCandidate bx by_ false)) with (bx, by_) in Hlast.
    rewrite Hlast.
    destruct (collide (scan SNAP_RADIUS rtl allBlocks bx by_)).
    + apply IH; exact Hrun.
    + inversion Hrun. reflexivity.
Qed.

(** *** Fuel only bounds the number of passes *)

Lemma offset_loop_more_fuel (allBlocks : list Block) :
  forall (fuel fuel' : nat) (bx by_ : Z) (r : Z * Z),
    offset_loop SNAP_RADIUS fuel rtl allBlocks bx by_ = Some r ->
    (fuel <= fuel')%nat ->
    offset_loop SNAP_RADIUS fuel' rtl allBlocks bx by_ = Some r.
Proof.
  induction fuel as [|fuel IH]; intros fuel' bx by_ r Hrun Hle.
  - discriminate.
  - destruct fuel' as [|fuel']; [lia|].
    cbn [offset_loop] in *.
    destruct (collide (scan SNAP_RADIUS rtl allBlocks bx by_)); [|exact Hrun].
    apply IH; [exact Hrun | lia].
Qed.

Lemma place_by_words_more_fuel (allBlocks : list Block) :
  forall (fuel fuel' : nat) (bx by_ : Z) (r : Z * Z),
    place_by_words SNAP_RADIUS fuel rtl allBlocks bx by_ = Some r ->
    (fuel <= fuel')%nat ->
    place_by_words SNAP_RADIUS fuel' rtl allBlocks bx by_ = Some r.
Proof.
  induction fuel as [|fuel IH]; intros fuel' bx by_ r Hrun Hle.
  - discriminate.
  - destruct fuel' as [|fuel']; [lia|].
    rewrite place_by_words_step in *.
    destruct (collision allBlocks bx by_); [|exact Hrun].
    apply IH; [exact Hrun | lia].
Qed.

(** The algorithm in the spec's words has one answer, whatever the fuel. *)
Lemma place_by_words_deterministic (allBlocks : list Block)
  (fuel fuel' : nat) (bx by_ : Z) (r r' : Z * Z) :
  place_by_words SNAP_RADIUS fuel rtl allBlocks bx by_ = Some r ->
  place_by_words SNAP_RADIUS fuel' rtl allBlocks bx by_ = Some r' ->
  r = r'.
Proof.
  intros Hr Hr'.
  apply place_by_words_more_fuel with (fuel' := Nat.max fuel fuel') in Hr; [|lia].
  apply place_by_words_more_fuel with (fuel' := Nat.max fuel fuel') in Hr'; [|lia].
  congruence.
Qed.

End PasteFacts.

(** ** paste as a whole *)

Section PasteTheorems.

Variable SNAP_RADIUS : Z.
Variable remainingCapacity : WorkspaceSvg -> Capacity.
Variable domToBlock : WorkspaceSvg -> Element -> WorkspaceSvg * Block.

#[local] Notation "'paste''" := (paste SNAP_RADIUS remainingCapacity domToBlock).

Lemma reachesCapacity_exceeds (xmlBlock : Element) (capacity : Capacity) :
  reachesCapacity (List.length (getElementsByTagName xmlBlock "block")) capacity
  = exceedsCapacity xmlBlock capacity.
Proof.
  unfold reachesCapacity, exceedsCapacity, blocksIn.
  destruct capacity as [n|]; [|reflexivity].
  destruct (Z.leb_spec n (Z.of_nat (List.length (getElementsByTagName xmlBlock "block"))));
    destruct (Z.ltb_spec n (1 + Z.of_nat (List.length (getElementsByTagName xmlBlock "block"))));
    try reflexivity; lia.
Qed.

Lemma paste_rejects (fuel : nat) (w : WorkspaceSvg) (xmlBlock : Element) :
  exceedsCapacity xmlBlock (remainingCapacity w) = true ->
  paste' fuel w xmlBlock = Some (w, []).
Proof.
  intros Hfull. unfold paste.
  rewrite reachesCapacity_exceeds, Hfull. reflexivity.
Qed.

(** An accepted paste with a recorded position: the loop ends within
    [enoughFuel] passes, and the block is moved by what the loop returns. *)
Lemma paste_accepts (w : WorkspaceSvg) (xmlBlock : Element) (x0 y0 : Z) :
  0 < SNAP_RADIUS ->
  exceedsCapacity xmlBlock (remainingCapacity w) = false ->
  parseInt (getAttribute xmlBlock "x") = Some x0 ->
  parseInt (getAttribute xmlBlock "y") = Some y0 ->
  let w' := fst (domToBlock w xmlBlock) in
  let block := snd (domToBlock w xmlBlock) in
  let cx := if RTL w' then - x0 else x0 in
  let fuel := enoughFuel (getAllBlocks w') y0 in
  exists px py : Z,
    offset_loop SNAP_RADIUS fuel (RTL w') (getAllBlocks w') cx y0 = Some (px, py)
    /\ paste' fuel w xmlBlock
       = Some (w', [Xml_domToBlock xmlBlock; Block_moveBy block px py;
                    Block_select block]).
Proof.
  intros Hpos Hroom Hx Hy w' block cx fuel.
  destruct (offset_loop_terminates SNAP_RADIUS (RTL w') (getAllBlocks w') cx y0 Hpos)
    as [[px py] Hrun].
  exists px, py. split; [exact Hrun|].
  unfold paste. rewrite reachesCapacity_exceeds, Hroom, Hx, Hy.
  subst w' block cx fuel.
  destruct (domToBlock w xmlBlock) as [w1 b1].
  cbn [fst snd] in *. rewrite Hrun. reflexivity.
Qed.

(** An accepted paste without a usable position. *)
Lemma paste_without_position (fuel : nat) (w : WorkspaceSvg) (xmlBlock : Element) :
  exceedsCapacity xmlBlock (remainingCapacity w) = false ->
  parseInt (getAttribute xmlBlock "x") = None
  \/ parseInt (getAttribute xmlBlock "y") = None ->
  paste' fuel w xmlBlock
  = Some (fst (domToBlock w xmlBlock),
          [Xml_domToBlock xmlBlock; Block_select (snd (domToBlock w xmlBlock))]).
Proof.
  intros Hroom Hnan. unfold paste.
  rewrite reachesCapacity_exceeds, Hroom.
  destruct (domToBlock w xmlBlock) as [w1 b1]. cbn [fst snd].
  destruct Hnan as [Hx|Hy].
  - rewrite Hx. reflexivity.
  - rewrite Hy. destruct (parseInt (getAttribute xmlBlock "x")); reflexivity.
Qed.

(** Whatever an accepted paste returns starts with the deserialization. *)
Lemma paste_trace_nonempty (fuel : nat) (w w1 : WorkspaceSvg) (xmlBlock : Element)
  (trace : list Effect) :
  exceedsCapacity xmlBlock (remainingCapacity w) = false ->
  paste' fuel w xmlBlock = Some (w1, trace) ->
  exists rest : list Effect, trace = Xml_domToBlock xmlBlock :: rest.
Proof.
  intros Hroom Hrun. unfold paste in Hrun.
  rewrite reachesCapacity_exceeds, Hroom in Hrun.
  destruct (domToBlock w xmlBlock) as [w2 b2].
  destruct (parseInt (getAttribute xmlBlock "x")) as [bx|];
    destruct (parseInt (getAttribute xmlBlock "y")) as [by_|];
    try (inversion Hrun; eexists; reflexivity).
  destruct (offset_loop SNAP_RADIUS fuel (RTL w2) (getAllBlocks w2)
              (if RTL w2 then - bx else bx) by_) as [[px py]|];
    [inversion Hrun; eexists; reflexivity | discriminate].
Qed.

End PasteTheorems.

Lemma clobbers_far (bx by_ : Z) (b : Block) :
  clobbers bx by_ b = false <->
  1 < Z.abs (bx - Coordinate.x (getRelativeToSurfaceXY b))
  \/ 1 < Z.abs (by_ - Coordinate.y (getRelativeToSurfaceXY b)).
Proof.
  unfold clobbers. cbv zeta.
  rewrite andb_false_iff, !Z.leb_gt. reflexivity.
Qed.

Lemma collision_free_far (allBlocks : list Block) (bx by_ : Z) :
  collision allBlocks bx by_ = false ->
  forall other : Block,
    In other allBlocks ->
    1 < Z.abs (bx - Coordinate.x (getRelativeToSurfaceXY other))
    \/ 1 < Z.abs (by_ - Coordinate.y (getRelativeToSurfaceXY other)).
Proof.
  intros Hfree other Hin. apply clobbers_far.
  destruct (clobbers bx by_ other) eqn:Hhit; [|reflexivity].
  assert (Hex : collision allBlocks bx by_ = true).
  { unfold collision. apply existsb_exists. exists other. split; assumption. }
  congruence.
Qed.

(** The loop of [paste] over the blocks the workspace holds once the new block
    is in it.  A paste that is accepted and carries a parseable position (x0, y0)
    places the block as the restarting algorithm does on those blocks: the candidate
    starts at (x0, y0), with x0 negated in a right-to-left workspace; while
    some block of the workspace lies within 1 unit of it on both axes it is
    shifted by the snap radius horizontally (to the right, or to the left when
    right-to-left) and by twice the snap radius downwards; the candidate that
    no block collides with is handed to [moveBy] on the new block, which is
    then selected.  In the scenario of one block at (10, 10), a paste recorded
    at (10, 10) and a left-to-right workspace, the first pass offsets once, the
    second pass finds no collision, and the block, deserialized at the origin,
    ends at (10 + S, 10 + 2S) and is selected. *)
Theorem paste_placement_algorithm :
  forall (SNAP_RADIUS : Z) (remainingCapacity : WorkspaceSvg -> Capacity)
         (domToBlock : WorkspaceSvg -> Element -> WorkspaceSvg * Block),
    0 < SNAP_RADIUS ->
    (forall (w : WorkspaceSvg) (xmlBlock : Element) (x0 y0 : Z),
        exceedsCapacity xmlBlock (remainingCapacity w) = false ->
        parseInt (getAttribute xmlBlock "x") = Some x0 ->
        parseInt (getAttribute xmlBlock "y") = Some y0 ->
        let w' := fst (domToBlock w xmlBlock) in
        let block := snd (domToBlock w xmlBlock) in
        let cx := if RTL w' then - x0 else x0 in
        exists (fuel fuel' : nat) (px py : Z),
          place_by_words SNAP_RADIUS fuel' (RTL w') (getAllBlocks w') cx y0 = Some (px, py)
          /\ paste SNAP_RADIUS remainingCapacity domToBlock fuel w xmlBlock
             = Some (w', [Xml_domToBlock xmlBlock; Block_moveBy block px py;
                          Block_select block]))
    /\ (forall (w : WorkspaceSvg) (xmlBlock : Element) (id1 id2 : nat),
           let existing := mkBlock id1 (Coordinate.mk 10 10) [] in
           let block := mkBlock id2 (Coordinate.mk 0 0) [] in
           let w' := set_topBlocks_ (topBlocks_ w ++ [block]) w in
           topBlocks_ w = [existing] ->
           RTL w = false ->
           exceedsCapacity xmlBlock (remainingCapacity w) = false ->
           getAttribute xmlBlock "x" = Some "10" ->
           getAttribute xmlBlock "y" = Some "10" ->
           domToBlock w xmlBlock = (w', block) ->
           paste SNAP_RADIUS remainingCapacity domToBlock 2 w xmlBlock
           = Some (w', [Xml_domToBlock xmlBlock;
                        Block_moveBy block (10 + SNAP_RADIUS) (10 + 2 * SNAP_RADIUS);
                        Block_select block])
           /\ positionAfterMoveBy block (10 + SNAP_RADIUS) (10 + 2 * SNAP_RADIUS)
              = Coordinate.mk (10 + SNAP_RADIUS) (10 + 2 * SNAP_RADIUS)
           /\ offset_history SNAP_RADIUS 2 false (getAllBlocks w') 10 10
              = [mkCandidate (10 + SNAP_RADIUS) (10 + SNAP_RADIUS * 2) true;
                 mkCandidate (10 + SNAP_RADIUS) (10 + SNAP_RADIUS * 2) true;
                 mkCandidate (10 + SNAP_RADIUS) (10 + SNAP_RADIUS * 2) false;
                 mkCandidate (10 + SNAP_RADIUS) (10 + SNAP_RADIUS * 2) false]).
Proof.
  intros SNAP_RADIUS rc dtb Hpos. split.
  - intros w xmlBlock x0 y0 Hroom Hx Hy w' block cx.
    destruct (paste_accepts SNAP_RADIUS rc dtb w xmlBlock x0 y0 Hpos Hroom Hx Hy)
      as [px [py [Hloop Hpaste]]].
    destruct (offset_loop_refines_words SNAP_RADIUS (RTL w') (getAllBlocks w') _ cx y0 px py Hloop)
      as [fuel' Hwords].
    exists (enoughFuel (getAllBlocks w') y0), fuel', px, py.
    split; [exact Hwords | exact Hpaste].
  - intros w xmlBlock id1 id2 existing block w' Htop Hltr Hroom Hx Hy Hdom.
    assert (Hall : getAllBlocks w' = [existing; block]).
    { unfold getAllBlocks, w'. cbn [topBlocks_ set_topBlocks_]. rewrite Htop.
      reflexivity. }
    assert (Hhit : clobbers 10 10 existing = true) by reflexivity.
    assert (Hfar1 : clobbers (10 + SNAP_RADIUS) (10 + SNAP_RADIUS * 2) block = false).
    { apply clobbers_far. unfold block.
      cbn [getRelativeToSurfaceXY Coordinate.x Coordinate.y]. lia. }
    assert (Hfar2 : clobbers (10 + SNAP_RADIUS) (10 + SNAP_RADIUS * 2) existing = false).
    { apply clobbers_far. unfold existing.
      cbn [getRelativeToSurfaceXY Coordinate.x Coordinate.y]. lia. }
    assert (Hb1 : scan_body SNAP_RADIUS false (mkCandidate 10 10 false) existing
                  = mkCandidate (10 + SNAP_RADIUS) (10 + SNAP_RADIUS * 2) true).
    { unfold scan_body. cbn [blockX blockY]. rewrite Hhit. reflexivity. }
    assert (Hb2 : forall flag,
               scan_body SNAP_RADIUS false
                 (mkCandidate (10 + SNAP_RADIUS) (10 + SNAP_RADIUS * 2) flag) block
               = mkCandidate (10 + SNAP_RADIUS) (10 + SNAP_RADIUS * 2) flag).
    { intros flag. unfold scan_body. cbn [blockX blockY]. rewrite Hfar1. reflexivity. }
    assert (Hb3 : scan_body SNAP_RADIUS false
                    (mkCandidate (10 + SNAP_RADIUS) (10 + SNAP_RADIUS * 2) false)
                    existing
                  = mkCandidate (10 + SNAP_RADIUS) (10 + SNAP_RADIUS * 2) false).
    { unfold scan_body. cbn [blockX blockY]. rewrite Hfar2. reflexivity. }
    assert (Hscan1 : scan SNAP_RADIUS false [existing; block] 10 10
                     = mkCandidate (10 + SNAP_RADIUS) (10 + SNAP_RADIUS * 2) true).
    { unfold scan. cbn [fold_left]. rewrite Hb1, Hb2. reflexivity. }
    assert (Hscan2 : scan SNAP_RADIUS false [existing; block]
                       (10 + SNAP_RADIUS) (10 + SNAP_RADIUS * 2)
                     = mkCandidate (10 + SNAP_RADIUS) (10 + SNAP_RADIUS * 2) false).
    { unfold scan. cbn [fold_left]. rewrite Hb3, Hb2. reflexivity. }
    split; [|split].
    + unfold paste. rewrite reachesCapacity_exceeds, Hroom, Hdom, Hx, Hy.
      change (parseInt (Some "10")) with (Some 10).
      replace (RTL w') with false by (symmetry; exact Hltr).
      rewrite Hall. cbn [offset_loop]. rewrite Hscan1. cbn [collide blockX blockY].
      rewrite Hscan2. cbn [collide blockX blockY].
      replace (10 + 2 * SNAP_RADIUS) with (10 + SNAP_RADIUS * 2) by lia. reflexivity.
    + unfold positionAfterMoveBy, block.
      cbn [getRelativeToSurfaceXY Coordinate.x Coordinate.y]. f_equal; lia.
    + rewrite Hall. cbn [offset_history]. rewrite Hscan1. cbn [collide blockX blockY].
      rewrite Hscan2. cbn [collide blockX blockY scan_history].
      rewrite Hb1, Hb2, Hb3, Hb2. reflexivity.
Qed.

Lemma paste_placement_algorithm_witness :
  0 < 20
  /\ (exists (fuel fuel' : nat) (px py : Z),
         place_by_words 20 fuel' false [Sample.existing; Sample.pasted] 10 10
         = Some (px, py)
         /\ paste 20 Sample.unlimited Sample.domToBlock fuel Sample.workspace
              Sample.xmlBlock
            = Some (set_topBlocks_ [Sample.existing; Sample.pasted] Sample.workspace,
                    [Xml_domToBlock Sample.xmlBlock; Block_moveBy Sample.pasted px py;
                     Block_select Sample.pasted]))
  /\ paste 20 Sample.unlimited Sample.domToBlock 2 Sample.workspace Sample.xmlBlock
     = Some (set_topBlocks_ [Sample.existing; Sample.pasted] Sample.workspace,
             [Xml_domToBlock Sample.xmlBlock; Block_moveBy Sample.pasted 30 50;
              Block_select Sample.pasted]).
Proof.
  assert (Hpos : 0 < 20) by lia.
  split; [exact Hpos|]. split.
  - exact (proj1 (paste_placement_algorithm 20 Sample.unlimited Sample.domToBlock Hpos)
             Sample.workspace Sample.xmlBlock 10 10 eq_refl eq_refl eq_refl).
  - exact (proj1 (proj2 (paste_placement_algorithm 20 Sample.unlimited
                           Sample.domToBlock Hpos)
                    Sample.workspace Sample.xmlBlock 1%nat 2%nat
                    eq_refl eq_refl eq_refl eq_refl eq_refl eq_refl)).
Defined.

(** The blocks the loop scans are those the workspace holds after the
    deserialization, the new block at its deserialized position among them: a
    block recorded at the origin and pasted into an empty workspace is offset
    once. *)
Example paste_scans_the_new_block :
  paste 20 Sample.unlimited Sample.domToBlock 2 Sample.emptyWorkspace
    (mkElement "block" [("x", "0"); ("y", "0")] [])
  = Some (set_topBlocks_ [Sample.pasted] Sample.emptyWorkspace,
          [Xml_domToBlock (mkElement "block" [("x", "0"); ("y", "0")] []);
           Block_moveBy Sample.pasted 20 40; Block_select Sample.pasted]).
Proof. reflexivity. Qed.

Lemma withinOne_abs (a b : Z) : withinOne a b = (Z.abs (a - b) <=? 1).
Proof.
  unfold withinOne.
  destruct (Z.leb_spec (a - b) 1); destruct (Z.leb_spec (b - a) 1);
    destruct (Z.leb_spec (Z.abs (a - b)) 1); cbn [andb]; try reflexivity; lia.
Qed.

(** The test of the [for] loop is the test of the specification. *)
Lemma clobbers_by_words (bx by_ : Z) (other : Block) :
  clobbers bx by_ other
  = withinOne bx (Coordinate.x (getRelativeToSurfaceXY other))
    && withinOne by_ (Coordinate.y (getRelativeToSurfaceXY other)).
Proof.
  unfold clobbers. cbv zeta. rewrite !withinOne_abs. reflexivity.
Qed.

Lemma collisionByWords_collision (others : list Block) (bx by_ : Z) :
  collisionByWords others bx by_ = collision others bx by_.
Proof.
  unfold collisionByWords, collision.
  induction others as [|other rest IH]; [reflexivity|].
  cbn [existsb]. rewrite IH, clobbers_by_words. reflexivity.
Qed.

Lemma place_by_spec_words (SNAP_RADIUS : Z) (rtl : bool) (others : list Block) :
  forall (fuel : nat) (bx by_ : Z),
    place_by_spec SNAP_RADIUS fuel rtl others bx by_
    = place_by_words SNAP_RADIUS fuel rtl others bx by_.
Proof.
  induction fuel as [|fuel IH]; intros bx by_; [reflexivity|].
  cbn [place_by_spec place_by_words].
  rewrite collisionByWords_collision, IH. reflexivity.
Qed.

(** C1.  The loop of [paste] runs the algorithm of the specification, with
    its collision test (within 1 unit, the bound included, on both axes), its
    shifts and its stop, but over the blocks the workspace holds after the
    deserialization, and these include the block just pasted, at the position
    where it was deserialized.  In the scenario of one block at (10, 10), a
    paste recorded at (10, 10) and a left-to-right workspace this makes no
    difference: the new block is moved by (10 + S, 10 + 2S), as the algorithm
    over the one existing block says, and selected.  But a block recorded at
    (0, 0) and deserialized at the origin of a workspace with no block at all
    collides with itself and is moved by one offset, where the algorithm over
    the existing blocks, of which there are none, leaves it at (0, 0). *)
Theorem paste_scans_pasted_block :
  forall (SNAP_RADIUS : Z) (remainingCapacity : WorkspaceSvg -> Capacity)
         (domToBlock : WorkspaceSvg -> Element -> WorkspaceSvg * Block),
    0 < SNAP_RADIUS ->
    (forall (w : WorkspaceSvg) (xmlBlock : Element) (x0 y0 : Z),
        exceedsCapacity xmlBlock (remainingCapacity w) = false ->
        parseInt (getAttribute xmlBlock "x") = Some x0 ->
        parseInt (getAttribute xmlBlock "y") = Some y0 ->
        let w' := fst (domToBlock w xmlBlock) in
        let block := snd (domToBlock w xmlBlock) in
        let cx := if RTL w' then - x0 else x0 in
        exists (fuel fuel' : nat) (px py : Z),
          place_by_spec SNAP_RADIUS fuel' (RTL w') (getAllBlocks w') cx y0
          = Some (px, py)
          /\ paste SNAP_RADIUS remainingCapacity domToBlock fuel w xmlBlock
             = Some (w', [Xml_domToBlock xmlBlock; Block_moveBy block px py;
                          Block_select block]))
    /\ (forall (w : WorkspaceSvg) (xmlBlock : Element) (id1 id2 : nat),
           let existing := mkBlock id1 (Coordinate.mk 10 10) [] in
           let block := mkBlock id2 (Coordinate.mk 0 0) [] in
           let w' := set_topBlocks_ (topBlocks_ w ++ [block]) w in
           topBlocks_ w = [existing] ->
           RTL w = false ->
           exceedsCapacity xmlBlock (remainingCapacity w) = false ->
           getAttribute xmlBlock "x" = Some "10" ->
           getAttribute xmlBlock "y" = Some "10" ->
           domToBlock w xmlBlock = (w', block) ->
           paste SNAP_RADIUS remainingCapacity domToBlock 2 w xmlBlock
           = Some (w', [Xml_domToBlock xmlBlock;
                        Block_moveBy block (10 + SNAP_RADIUS) (10 + 2 * SNAP_RADIUS);
                        Block_select block])
           /\ place_by_spec SNAP_RADIUS 2 false (getAllBlocks w) 10 10
              = Some (10 + SNAP_RADIUS, 10 + 2 * SNAP_RADIUS)
           /\ positionAfterMoveBy block (10 + SNAP_RADIUS) (10 + 2 * SNAP_RADIUS)
              = Coordinate.mk (10 + SNAP_RADIUS) (10 + 2 * SNAP_RADIUS))
    /\ (forall (w : WorkspaceSvg) (xmlBlock : Element) (id : nat),
           let block := mkBlock id (Coordinate.mk 0 0) [] in
           let w' := set_topBlocks_ [block] w in
           topBlocks_ w = [] ->
           exceedsCapacity xmlBlock (remainingCapacity w) = false ->
           getAttribute xmlBlock "x" = Some "0" ->
           getAttribute xmlBlock "y" = Some "0" ->
           domToBlock w xmlBlock = (w', block) ->
           paste SNAP_RADIUS remainingCapacity domToBlock 2 w xmlBlock
           = Some (w', [Xml_domToBlock xmlBlock;
                        Block_moveBy block
                          (if RTL w then - SNAP_RADIUS else SNAP_RADIUS)
                          (2 * SNAP_RADIUS);
                        Block_select block])
           /\ place_by_spec SNAP_RADIUS 1 (RTL w) (getAllBlocks w) 0 0 = Some (0, 0)
           /\ (2 * SNAP_RADIUS <> 0)).
Proof.
  intros SNAP_RADIUS rc dtb Hpos.
  destruct (paste_placement_algorithm SNAP_RADIUS rc dtb Hpos) as [Hloop Hscenario].
  split; [|split].
  - intros w xmlBlock x0 y0 Hroom Hx Hy w' block cx.
    destruct (Hloop w xmlBlock x0 y0 Hroom Hx Hy)
      as [fuel [fuel' [px [py [Hwords Hpaste]]]]].
    exists fuel, fuel', px, py. split; [|exact Hpaste].
    rewrite place_by_spec_words. exact Hwords.
  - intros w xmlBlock id1 id2 existing block w' Htop Hltr Hroom Hx Hy Hdom.
    destruct (Hscenario w xmlBlock id1 id2 Htop Hltr Hroom Hx Hy Hdom)
      as [Hpaste [Hmoved _]].
    split; [exact Hpaste|]. split; [|exact Hmoved].
    assert (Hall : getAllBlocks w = [existing])
      by (unfold getAllBlocks; rewrite Htop; reflexivity).
    rewrite Hall. unfold existing.
    cbn [place_by_spec collisionByWords existsb
         getRelativeToSurfaceXY Coordinate.x Coordinate.y].
    rewrite !orb_false_r.
    replace (withinOne 10 10) with true by reflexivity. cbn [andb].
    replace (withinOne (10 + SNAP_RADIUS) 10) with (SNAP_RADIUS <=? 1)
      by (unfold withinOne;
          destruct (Z.leb_spec SNAP_RADIUS 1);
          destruct (Z.leb_spec (10 + SNAP_RADIUS - 10) 1);
          destruct (Z.leb_spec (10 - (10 + SNAP_RADIUS)) 1);
          cbn [andb]; try reflexivity; lia).
    replace (withinOne (10 + 2 * SNAP_RADIUS) 10) with false
      by (unfold withinOne;
          destruct (Z.leb_spec (10 + 2 * SNAP_RADIUS - 10) 1);
          cbn [andb]; try reflexivity; lia).
    rewrite andb_false_r. reflexivity.
  - intros w xmlBlock id block w' Htop Hroom Hx Hy Hdom.
    assert (Hhit : clobbers 0 0 block = true) by reflexivity.
    assert (Hfar : forall flag,
               scan_body SNAP_RADIUS (RTL w)
                 (mkCandidate (if RTL w then - SNAP_RADIUS else SNAP_RADIUS)
                    (SNAP_RADIUS * 2) flag) block
               = mkCandidate (if RTL w then - SNAP_RADIUS else SNAP_RADIUS)
                   (SNAP_RADIUS * 2) flag).
    { intros flag. unfold scan_body. cbn [blockX blockY].
      replace (clobbers (if RTL w then - SNAP_RADIUS else SNAP_RADIUS)
                 (SNAP_RADIUS * 2) block) with false; [reflexivity|].
      symmetry. apply clobbers_far. unfold block.
      cbn [getRelativeToSurfaceXY Coordinate.x Coordinate.y]. lia. }
    assert (Hfirst : scan_body SNAP_RADIUS (RTL w) (mkCandidate 0 0 false) block
                     = mkCandidate (if RTL w then - SNAP_RADIUS else SNAP_RADIUS)
                         (SNAP_RADIUS * 2) true).
    { unfold scan_body. cbn [blockX blockY]. rewrite Hhit.
      unfold offset. cbn [blockX blockY]. destruct (RTL w); reflexivity. }
    split; [|split; [|lia]].
    + unfold paste. rewrite reachesCapacity_exceeds, Hroom, Hdom, Hx, Hy.
      change (parseInt (Some "0")) with (Some 0).
      assert (Hrtl : RTL w' = RTL w) by reflexivity. rewrite Hrtl.
      assert (Hall : getAllBlocks w' = [block]) by reflexivity. rewrite Hall.
      replace (if RTL w then - 0 else 0) with 0 by (destruct (RTL w); reflexivity).
      cbn [offset_loop]. unfold scan at 1. cbn [fold_left]. rewrite Hfirst.
      cbn [collide blockX blockY]. unfold scan. cbn [fold_left]. rewrite Hfar.
      cbn [collide blockX blockY].
      replace (SNAP_RADIUS * 2) with (2 * SNAP_RADIUS) by lia. reflexivity.
    + unfold getAllBlocks. rewrite Htop. reflexivity.
Qed.

Lemma paste_scans_pasted_block_witness :
  0 < 20
  /\ paste 20 Sample.unlimited Sample.domToBlock 2 Sample.workspace Sample.xmlBlock
     = Some (set_topBlocks_ [Sample.existing; Sample.pasted] Sample.workspace,
             [Xml_domToBlock Sample.xmlBlock; Block_moveBy Sample.pasted 30 50;
              Block_select Sample.pasted])
  /\ place_by_spec 20 2 false (getAllBlocks Sample.workspace) 10 10 = Some (30, 50)
  /\ paste 20 Sample.unlimited Sample.domToBlock 2 Sample.emptyWorkspace
       (mkElement "block" [("x", "0"); ("y", "0")] [])
     = Some (set_topBlocks_ [Sample.pasted] Sample.emptyWorkspace,
             [Xml_domToBlock (mkElement "block" [("x", "0"); ("y", "0")] []);
              Block_moveBy Sample.pasted 20 40; Block_select Sample.pasted])
  /\ place_by_spec 20 1 false (getAllBlocks Sample.emptyWorkspace) 0 0 = Some (0, 0).
Proof.
  assert (Hpos : 0 < 20) by lia.
  pose proof (proj1 (proj2 (paste_scans_pasted_block 20 Sample.unlimited
                              Sample.domToBlock Hpos))
                Sample.workspace Sample.xmlBlock 1%nat 2%nat
                eq_refl eq_refl eq_refl eq_refl eq_refl eq_refl) as Hscenario.
  pose proof (proj2 (proj2 (paste_scans_pasted_block 20 Sample.unlimited
                              Sample.domToBlock Hpos))
                Sample.emptyWorkspace (mkElement "block" [("x", "0"); ("y", "0")] [])
                2%nat eq_refl eq_refl eq_refl eq_refl eq_refl) as Hself.
  split; [exact Hpos|].
  split; [exact (proj1 Hscenario)|].
  split; [exact (proj1 (proj2 Hscenario))|].
  split; [exact (proj1 Hself) | exact (proj1 (proj2 Hself))].
Defined.

(** C2.  [paste] returns at once, with the workspace untouched and nothing
    deserialized, exactly when the blocks of the serialized subtree are more
    than the remaining capacity; otherwise it deserializes the block, moves it
    when the recorded position parses, and selects it. *)
Theorem paste_capacity_guard :
  forall (SNAP_RADIUS : Z) (remainingCapacity : WorkspaceSvg -> Capacity)
         (domToBlock : WorkspaceSvg -> Element -> WorkspaceSvg * Block)
         (w : WorkspaceSvg) (xmlBlock : Element),
    0 < SNAP_RADIUS ->
    let block := snd (domToBlock w xmlBlock) in
    (exceedsCapacity xmlBlock (remainingCapacity w) = true ->
     forall fuel : nat,
       paste SNAP_RADIUS remainingCapacity domToBlock fuel w xmlBlock = Some (w, []))
    /\ (exceedsCapacity xmlBlock (remainingCapacity w) = false ->
        exists (fuel : nat) (moves : list Effect),
          paste SNAP_RADIUS remainingCapacity domToBlock fuel w xmlBlock
          = Some (fst (domToBlock w xmlBlock),
                  Xml_domToBlock xmlBlock :: moves ++ [Block_select block])
          /\ match parseInt (getAttribute xmlBlock "x"),
                   parseInt (getAttribute xmlBlock "y") with
             | Some _, Some _ =>
                 exists px py : Z, moves = [Block_moveBy block px py]
             | _, _ => moves = []
             end)
    /\ (forall (fuel : nat) (w1 : WorkspaceSvg),
           paste SNAP_RADIUS remainingCapacity domToBlock fuel w xmlBlock = Some (w1, []) ->
           exceedsCapacity xmlBlock (remainingCapacity w) = true).
Proof.
  intros SNAP_RADIUS rc dtb w xmlBlock Hpos block. split; [|split].
  - intros Hfull fuel. apply paste_rejects; exact Hfull.
  - intros Hroom.
    destruct (parseInt (getAttribute xmlBlock "x")) as [x0|] eqn:Hx.
    + destruct (parseInt (getAttribute xmlBlock "y")) as [y0|] eqn:Hy.
      * destruct (paste_accepts SNAP_RADIUS rc dtb w xmlBlock x0 y0 Hpos Hroom Hx Hy)
          as [px [py [_ Hpaste]]].
        eexists. exists [Block_moveBy block px py].
        split; [exact Hpaste|]. exists px, py. reflexivity.
      * exists 0%nat, []. split; [|reflexivity].
        apply paste_without_position; [exact Hroom | right; exact Hy].
    + exists 0%nat, []. split; [|reflexivity].
      apply paste_without_position; [exact Hroom | left; exact Hx].
  - intros fuel w1 Hrun.
    destruct (exceedsCapacity xmlBlock (rc w)) eqn:Hroom; [reflexivity|].
    destruct (paste_trace_nonempty SNAP_RADIUS rc dtb fuel w w1 xmlBlock [] Hroom Hrun)
      as [rest Hrest].
    discriminate.
Qed.

Lemma paste_capacity_guard_witness :
  0 < 20
  /\ paste 20 (fun _ => Finite 0) Sample.domToBlock 7 Sample.workspace Sample.xmlBlock
     = Some (Sample.workspace, [])
  /\ exists (fuel : nat) (moves : list Effect),
       paste 20 (fun _ => Finite 1) Sample.domToBlock fuel Sample.workspace
         Sample.xmlBlock
       = Some (set_topBlocks_ [Sample.existing; Sample.pasted] Sample.workspace,
               Xml_domToBlock Sample.xmlBlock :: moves ++ [Block_select Sample.pasted])
       /\ exists px py : Z, moves = [Block_moveBy Sample.pasted px py].
Proof.
  assert (Hpos : 0 < 20) by lia.
  split; [exact Hpos|]. split.
  - exact (proj1 (paste_capacity_guard 20 (fun _ => Finite 0) Sample.domToBlock
                    Sample.workspace Sample.xmlBlock Hpos) eq_refl 7%nat).
  - exact (proj1 (proj2 (paste_capacity_guard 20 (fun _ => Finite 1) Sample.domToBlock
                           Sample.workspace Sample.xmlBlock Hpos)) eq_refl).
Defined.

(** C4.  For an accepted paste with a parseable position, whose block is
    deserialized at the origin (in particular when the initial candidate
    collides with a block): the position the block is moved to differs by more
    than 1 unit, on at least one axis, from the position of every block the
    workspace holds; and every value the candidate takes, the final one
    included, lies below the initial candidate by exactly twice the distance it
    has moved sideways. *)
Theorem paste_clear_and_two_to_one :
  forall (SNAP_RADIUS : Z) (remainingCapacity : WorkspaceSvg -> Capacity)
         (domToBlock : WorkspaceSvg -> Element -> WorkspaceSvg * Block)
         (w : WorkspaceSvg) (xmlBlock : Element) (x0 y0 : Z),
    0 < SNAP_RADIUS ->
    exceedsCapacity xmlBlock (remainingCapacity w) = false ->
    parseInt (getAttribute xmlBlock "x") = Some x0 ->
    parseInt (getAttribute xmlBlock "y") = Some y0 ->
    let w' := fst (domToBlock w xmlBlock) in
    let block := snd (domToBlock w xmlBlock) in
    let cx := if RTL w' then - x0 else x0 in
    getRelativeToSurfaceXY block = Coordinate.mk 0 0 ->
    exists (fuel : nat) (px py : Z),
      paste SNAP_RADIUS remainingCapacity domToBlock fuel w xmlBlock
      = Some (w', [Xml_domToBlock xmlBlock; Block_moveBy block px py;
                   Block_select block])
      /\ (forall other : Block,
             In other (getAllBlocks w') ->
             1 < Z.abs (Coordinate.x (positionAfterMoveBy block px py)
                        - Coordinate.x (getRelativeToSurfaceXY other))
             \/ 1 < Z.abs (Coordinate.y (positionAfterMoveBy block px py)
                           - Coordinate.y (getRelativeToSurfaceXY other)))
      /\ Forall (fun c : Candidate => blockY c - y0 = 2 * Z.abs (blockX c - cx))
           (offset_history SNAP_RADIUS fuel (RTL w') (getAllBlocks w') cx y0)
      /\ last (map position (offset_history SNAP_RADIUS fuel (RTL w') (getAllBlocks w') cx y0))
           (cx, y0) = (px, py)
      /\ py - y0 = 2 * Z.abs (px - cx).
Proof.
  intros SNAP_RADIUS rc dtb w xmlBlock x0 y0 Hpos Hroom Hx Hy w' block cx Horigin.
  destruct (paste_accepts SNAP_RADIUS rc dtb w xmlBlock x0 y0 Hpos Hroom Hx Hy)
    as [px [py [Hloop Hpaste]]].
  fold w' block cx in Hloop, Hpaste.
  exists (enoughFuel (getAllBlocks w') y0), px, py.
  assert (Hinit : two_to_one (RTL w') cx y0 (mkCandidate cx y0 false)).
  { unfold two_to_one; cbn [blockX blockY]. split; [destruct (RTL w'); lia | lia]. }
  assert (Hall : Forall (two_to_one (RTL w') cx y0)
                   (offset_history SNAP_RADIUS (enoughFuel (getAllBlocks w') y0) (RTL w')
                      (getAllBlocks w') cx y0)).
  { apply offset_history_two_to_one; [lia | exact Hinit]. }
  pose proof (offset_history_last SNAP_RADIUS (RTL w') (getAllBlocks w') _ cx y0 (px, py) Hloop)
    as Hlast.
  split; [exact Hpaste|]. split; [|split; [|split]].
  - intros other Hin.
    destruct (offset_loop_sound SNAP_RADIUS (RTL w') (getAllBlocks w') _ cx y0 px py Hloop)
      as [k [_ [_ [Hfree _]]]].
    unfold positionAfterMoveBy. rewrite Horigin.
    cbn [Coordinate.x Coordinate.y].
    replace (0 + px) with px by lia. replace (0 + py) with py by lia.
    apply (collision_free_far _ _ _ Hfree); exact Hin.
  - eapply Forall_impl; [|exact Hall].
    intros c [_ Hratio]. exact Hratio.
  - exact Hlast.
  - destruct (offset_loop_sound SNAP_RADIUS (RTL w') (getAllBlocks w') _ cx y0 px py Hloop)
      as [k [Hpx [Hpy _]]].
    rewrite Hpx, Hpy. unfold stepX. destruct (RTL w'); nia.
Qed.

Lemma paste_clear_and_two_to_one_witness :
  0 < 20
  /\ exists (fuel : nat) (px py : Z),
       paste 20 Sample.unlimited Sample.domToBlock fuel Sample.workspace Sample.xmlBlock
       = Some (set_topBlocks_ [Sample.existing; Sample.pasted] Sample.workspace,
               [Xml_domToBlock Sample.xmlBlock; Block_moveBy Sample.pasted px py;
                Block_select Sample.pasted])
       /\ (forall other : Block,
              In other [Sample.existing; Sample.pasted] ->
              1 < Z.abs (Coordinate.x (positionAfterMoveBy Sample.pasted px py)
                         - Coordinate.x (getRelativeToSurfaceXY other))
              \/ 1 < Z.abs (Coordinate.y (positionAfterMoveBy Sample.pasted px py)
                            - Coordinate.y (getRelativeToSurfaceXY other)))
       /\ Forall (fun c : Candidate => blockY c - 10 = 2 * Z.abs (blockX c - 10))
            (offset_history 20 fuel false [Sample.existing; Sample.pasted] 10 10)
       /\ last (map position
                  (offset_history 20 fuel false [Sample.existing; Sample.pasted] 10 10))
            (10, 10) = (px, py)
       /\ py - 10 = 2 * Z.abs (px - 10).
Proof.
  assert (Hpos : 0 < 20) by lia.
  split; [exact Hpos|].
  exact (paste_clear_and_two_to_one 20 Sample.unlimited Sample.domToBlock
           Sample.workspace Sample.xmlBlock 10 10 Hpos eq_refl eq_refl eq_refl eq_refl).
Defined.

(* ------------------------------------------------------------------ *)
(** ** Delete areas *)

Lemma coordinate_eta (p : Coordinate.t) :
  Coordinate.mk (Coordinate.x p) (Coordinate.y p) = p.
Proof. destruct p; reflexivity. Qed.

(** After [recordDeleteAreas] a trash rectangle is only there together with
    the trashcan it was read from, so [isDeleteArea] cannot fail. *)
Lemma recordDeleteAreas_trash (w : WorkspaceSvg) :
  trashcan (recordDeleteAreas w) = trashcan w
  /\ deleteAreaTrash_ (recordDeleteAreas w) = option_map trashcanRect (trashcan w).
Proof.
  unfold recordDeleteAreas.
  destruct (trashcan w) as [t|] eqn:Ht;
    destruct w as [pw rt tb rd g bc uc [f|] [x|] tc dt dx sn];
    cbn in *; subst tc; split; reflexivity.
Qed.

Lemma isDeleteArea_after_record (mouseToSvg : MouseEvent -> Coordinate.t)
  (w : WorkspaceSvg) (e : MouseEvent) :
  isDeleteArea mouseToSvg (recordDeleteAreas w) e <> None.
Proof.
  destruct (recordDeleteAreas_trash w) as [Hcan Harea].
  unfold isDeleteArea. rewrite Harea, Hcan.
  destruct (trashcan w) as [t|]; cbn [option_map].
  - destruct (Rect.contains _ _); [discriminate|].
    destruct (isDeleteArea_toolbox _ _); discriminate.
  - discriminate.
Qed.

(** C3.  With [t] the trashcan behind the recorded trash rectangle and [p] the
    pointer in surface coordinates: inside the trash rectangle the trashcan is
    opened, the delete cursor set and the answer is true; with a trash
    rectangle and the point outside it the trashcan is closed first, wherever
    else the point lies; inside the palette rectangle (and not in the trash)
    the delete cursor is set and the answer is true; in neither, the cursor is
    set to the closed hand and the answer is false. *)
Theorem isDeleteArea_contract :
  forall (mouseToSvg : MouseEvent -> Coordinate.t) (w : WorkspaceSvg)
         (e : MouseEvent) (t : Trashcan),
    (deleteAreaTrash_ w <> None -> trashcan w = Some t) ->
    let p := mouseToSvg e in
    let closing :=
      match deleteAreaTrash_ w with
      | Some _ => [Trashcan_setOpen_ t false]
      | None => []
      end in
    (insideTrash w p = true ->
     isDeleteArea mouseToSvg w e
     = Some (true, [Trashcan_setOpen_ t true; Css_setCursor DELETE]))
    /\ (deleteAreaTrash_ w <> None -> insideTrash w p = false ->
        exists (isDelete : bool) (cursor : Cursor),
          isDeleteArea mouseToSvg w e
          = Some (isDelete, [Trashcan_setOpen_ t false; Css_setCursor cursor])
          /\ isDelete = insideToolbox w p)
    /\ (insideTrash w p = false -> insideToolbox w p = true ->
        isDeleteArea mouseToSvg w e = Some (true, closing ++ [Css_setCursor DELETE]))
    /\ (insideTrash w p = false -> insideToolbox w p = false ->
        isDeleteArea mouseToSvg w e = Some (false, closing ++ [Css_setCursor CLOSED])).
Proof.
  intros mouseToSvg w e t Hcan p closing.
  assert (Htail : isDeleteArea_toolbox w p
                  = (insideToolbox w p,
                     [Css_setCursor (if insideToolbox w p then DELETE else CLOSED)])).
  { unfold isDeleteArea_toolbox, insideToolbox.
    destruct (deleteAreaToolbox_ w) as [area|]; [|reflexivity].
    destruct (Rect.contains area p); reflexivity. }
  assert (Hrun : isDeleteArea mouseToSvg w e
                 = if insideTrash w p
                   then Some (true, [Trashcan_setOpen_ t true; Css_setCursor DELETE])
                   else Some (insideToolbox w p,
                              closing ++ [Css_setCursor
                                            (if insideToolbox w p then DELETE else CLOSED)])).
  { unfold isDeleteArea, insideTrash, closing. rewrite coordinate_eta. fold p.
    destruct (deleteAreaTrash_ w) as [area|] eqn:Harea.
    - rewrite Hcan by discriminate.
      destruct (Rect.contains area p); [reflexivity|].
      rewrite Htail. reflexivity.
    - rewrite Htail. reflexivity. }
  rewrite Hrun. split; [|split; [|split]].
  - intros Hin. rewrite Hin. reflexivity.
  - intros Harea Hout. rewrite Hout.
    exists (insideToolbox w p), (if insideToolbox w p then DELETE else CLOSED).
    split; [|reflexivity]. unfold closing.
    destruct (deleteAreaTrash_ w); [reflexivity | contradiction].
  - intros Hout Hin. rewrite Hout, Hin. reflexivity.
  - intros Hout Hout'. rewrite Hout, Hout'. reflexivity.
Qed.

Lemma isDeleteArea_contract_witness :
  isDeleteArea Sample.mouseToSvg Sample.withZones (mkMouseEvent 120 130)
  = Some (true, [Trashcan_setOpen_ Sample.bin true; Css_setCursor DELETE])
  /\ isDeleteArea Sample.mouseToSvg Sample.withZones (mkMouseEvent 10 10)
     = Some (true, [Trashcan_setOpen_ Sample.bin false; Css_setCursor DELETE])
  /\ isDeleteArea Sample.mouseToSvg Sample.withZones (mkMouseEvent 60 60)
     = Some (false, [Trashcan_setOpen_ Sample.bin false; Css_setCursor CLOSED]).
Proof.
  assert (Hcan : deleteAreaTrash_ Sample.withZones <> None ->
                 trashcan Sample.withZones = Some Sample.bin)
    by (intros _; reflexivity).
  split; [|split].
  - exact (proj1 (isDeleteArea_contract Sample.mouseToSvg Sample.withZones
                    (mkMouseEvent 120 130) Sample.bin Hcan) eq_refl).
  - exact (proj1 (proj2 (proj2 (isDeleteArea_contract Sample.mouseToSvg
                                  Sample.withZones (mkMouseEvent 10 10) Sample.bin Hcan)))
             eq_refl eq_refl).
  - exact (proj2 (proj2 (proj2 (isDeleteArea_contract Sample.mouseToSvg
                                  Sample.withZones (mkMouseEvent 60 60) Sample.bin Hcan)))
             eq_refl eq_refl).
Defined.

(* ------------------------------------------------------------------ *)
(** ** render *)

Lemma descendantBlocks_unfold (b : Block) :
  descendantBlocks b = flat_map (fun k => k :: descendantBlocks k) (getChildren b).
Proof. destruct b; reflexivity. Qed.

Lemma descendantOf_under_child (p k b : Block) :
  In k (getChildren p) -> descendantOf k b -> descendantOf p b.
Proof.
  intros Hk Hdesc. induction Hdesc as [b Hb | c b Hc IH Hb].
  - apply descendant_step with (c := k); [apply descendant_child; exact Hk | exact Hb].
  - apply descendant_step with (c := c); [exact IH | exact Hb].
Qed.

Lemma descendantBlocks_sound (p : Block) :
  forall b : Block, In b (descendantBlocks p) -> descendantOf p b.
Proof.
  induction p as [i xy kids IH] using Block_children_ind.
  intros b Hin. rewrite descendantBlocks_unfold in Hin. cbn [getChildren] in Hin.
  apply in_flat_map in Hin. destruct Hin as [k [Hk [Heq|Hdeep]]].
  - subst b. apply descendant_child. exact Hk.
  - rewrite Forall_forall in IH.
    apply descendantOf_under_child with (k := k); [exact Hk|].
    apply IH; assumption.
Qed.

Lemma descendantBlocks_trans (p : Block) :
  forall c b : Block,
    In c (descendantBlocks p) -> In b (descendantBlocks c) -> In b (descendantBlocks p).
Proof.
  induction p as [i xy kids IH] using Block_children_ind.
  intros c b Hc Hb. rewrite descendantBlocks_unfold in *. cbn [getChildren] in *.
  apply in_flat_map in Hc. destruct Hc as [k [Hk [Heq|Hdeep]]].
  - subst c. apply in_flat_map. exists k. split; [exact Hk|].
    right. rewrite descendantBlocks_unfold. exact Hb.
  - apply in_flat_map. exists k. split; [exact Hk|]. right.
    rewrite Forall_forall in IH.
    apply (IH k Hk c b Hdeep). rewrite descendantBlocks_unfold. exact Hb.
Qed.

Lemma descendantBlocks_complete (p b : Block) :
  descendantOf p b -> In b (descendantBlocks p).
Proof.
  intros Hdesc. induction Hdesc as [b Hb | c b Hc IH Hb].
  - rewrite descendantBlocks_unfold. apply in_flat_map.
    exists b. split; [exact Hb | left; reflexivity].
  - apply descendantBlocks_trans with (c := c); [exact IH|].
    rewrite descendantBlocks_unfold. apply in_flat_map.
    exists b. split; [exact Hb | left; reflexivity].
Qed.

(** The model of [getAllBlocks] holds the reachable blocks and no others. *)
Lemma getAllBlocks_reachable (w : WorkspaceSvg) (b : Block) :
  In b (getAllBlocks w) <-> reachable w b.
Proof.
  unfold getAllBlocks, reachable. rewrite in_flat_map. split.
  - intros [top [Htop [Heq|Hdeep]]].
    + subst b. left; exact Htop.
    + right. exists top. split; [exact Htop|].
      apply descendantBlocks_sound; exact Hdeep.
  - intros [Htop | [top [Htop Hdesc]]].
    + exists b. split; [exact Htop | left; reflexivity].
    + exists top. split; [exact Htop|]. right.
      apply descendantBlocks_complete; exact Hdesc.
Qed.

Lemma isLeaf_no_children (b : Block) :
  isLeaf b = true <-> getChildren b = [].
Proof.
  unfold isLeaf. rewrite Nat.eqb_eq. split.
  - intros Hlen. destruct (getChildren b); [reflexivity | discriminate].
  - intros Hnil. rewrite Hnil. reflexivity.
Qed.

Lemma render_loop_leaves (renderList : list Block) :
  render_loop renderList = map Block_render (filter isLeaf renderList).
Proof.
  induction renderList as [|block rest IH].
  - reflexivity.
  - cbn [render_loop filter]. fold (isLeaf block).
    destruct (isLeaf block); cbn [map app]; rewrite IH; reflexivity.
Qed.

(** C8.  [render] goes over the blocks reachable from the top-level set and
    calls [render] on exactly those of them that have no children, once for
    each place they take in the list; nothing else is called, so a block with
    children is never rendered.  With a block A whose only child is a childless
    block B as the top-level set, the one call is the rendering of B. *)
Theorem render_leaves_only :
  forall w : WorkspaceSvg,
    render w = map Block_render (filter isLeaf (getAllBlocks w))
    /\ (forall b : Block,
           In (Block_render b) (render w) <-> reachable w b /\ getChildren b = [])
    /\ (forall e : Effect,
           In e (render w) -> exists b : Block, e = Block_render b /\ getChildren b = [])
    /\ (forall (idA idB : nat) (xyA xyB : Coordinate.t),
           let B := mkBlock idB xyB [] in
           let A := mkBlock idA xyA [B] in
           render (set_topBlocks_ [A] w) = [Block_render B]).
Proof.
  intros w.
  assert (Hrender : render w = map Block_render (filter isLeaf (getAllBlocks w)))
    by apply render_loop_leaves.
  split; [exact Hrender|]. split; [|split].
  - intros b. rewrite Hrender, in_map_iff. split.
    + intros [b' [Heq Hin]]. inversion Heq; subst b'.
      apply filter_In in Hin. destruct Hin as [Hin Hleaf].
      split; [apply getAllBlocks_reachable; exact Hin
             | apply isLeaf_no_children; exact Hleaf].
    + intros [Hreach Hnil]. exists b. split; [reflexivity|].
      apply filter_In. split; [apply getAllBlocks_reachable; exact Hreach
                              | apply isLeaf_no_children; exact Hnil].
  - intros e Hin. rewrite Hrender in Hin. apply in_map_iff in Hin.
    destruct Hin as [b [Heq Hin]]. exists b. split; [symmetry; exact Heq|].
    apply filter_In in Hin. apply isLeaf_no_children. apply Hin.
  - intros idA idB xyA xyB B A. reflexivity.
Qed.

(* ------------------------------------------------------------------ *)
(** ** Playing sounds *)

Lemma playAudio_unfold (ua : UserAgent) (w : WorkspaceSvg) (name : string)
  (v : JsValue) :
  playAudio ua w name v
  = match lookupSound name (SOUNDS_ w) with
    | Some sound => playSound ua sound v
    | None =>
        match parentWorkspace w with
        | Some parent => Parent_playAudio parent name v :: playAudio ua parent name v
        | None => []
        end
    end.
Proof. destruct w; reflexivity. Qed.

Lemma ancestors_unfold (w : WorkspaceSvg) :
  ancestors w
  = match parentWorkspace w with
    | Some parent => parent :: ancestors parent
    | None => []
    end.
Proof. destruct w; reflexivity. Qed.

(** The calls of [playAudio]: one delegation for each workspace passed on the
    way up, then the playing at the first workspace that has the sound. *)
Lemma playAudio_chain (ua : UserAgent) (name : string) (v : JsValue) :
  forall w : WorkspaceSvg,
    playAudio ua w name v
    = map (fun parent => Parent_playAudio parent name v)
        (firstn (misses name (w :: ancestors w)) (ancestors w))
      ++ match nth_error (w :: ancestors w) (misses name (w :: ancestors w)) with
         | Some owner =>
             match lookupSound name (SOUNDS_ owner) with
             | Some sound => playSound ua sound v
             | None => []
             end
         | None => []
         end.
Proof.
  induction w as [w Hroot | w parent Hparent IH] using WorkspaceSvg_parent_ind;
    rewrite playAudio_unfold, ancestors_unfold;
    (rewrite Hroot || rewrite Hparent);
    cbn [misses].
  - destruct (lookupSound name (SOUNDS_ w)) as [sound|] eqn:Hhere.
    + cbn [firstn map app nth_error]. rewrite Hhere. reflexivity.
    + reflexivity.
  - destruct (lookupSound name (SOUNDS_ w)) as [sound|] eqn:Hhere.
    + cbn [firstn map app nth_error]. rewrite Hhere. reflexivity.
    + fold (misses name (parent :: ancestors parent)).
      cbn [firstn map app nth_error]. rewrite IH. reflexivity.
Qed.

Lemma misses_all (name : string) (chain : list WorkspaceSvg) :
  (forall a : WorkspaceSvg, In a chain -> lookupSound name (SOUNDS_ a) = None) ->
  misses name chain = List.length chain.
Proof.
  induction chain as [|a rest IH]; intros Hnone.
  - reflexivity.
  - cbn [misses List.length]. rewrite (Hnone a) by (left; reflexivity).
    rewrite IH; [reflexivity|]. intros a' Hin. apply Hnone. right; exact Hin.
Qed.

(** C7.  A sound registered on the workspace is played from its cached node:
    the node itself on IE9, iPad and Android, a clone of it elsewhere.  A sound
    not registered is asked of the parent, then of the parent's parent, one
    call for each level, up to the first workspace that has it, which plays it;
    when no workspace of the chain has it, the calls reach every ancestor once
    and nothing is played. *)
Theorem playAudio_delegation :
  forall (ua : UserAgent) (w : WorkspaceSvg) (name : string) (v : JsValue),
    let chain := w :: ancestors w in
    let volume := match v with Undefined => Number 1 | _ => v end in
    (forall sound : Sound,
        lookupSound name (SOUNDS_ w) = Some sound ->
        playAudio ua w name v
        = if ie9 ua || IPAD ua || ANDROID ua
          then [Audio_setVolume sound volume; Audio_play sound]
          else [Audio_cloneNode sound; Audio_setVolume (cloneNode sound) volume;
                Audio_play (cloneNode sound)])
    /\ playAudio ua w name v
       = map (fun parent => Parent_playAudio parent name v)
           (firstn (misses name chain) (ancestors w))
         ++ match nth_error chain (misses name chain) with
            | Some owner =>
                match lookupSound name (SOUNDS_ owner) with
                | Some sound => playSound ua sound v
                | None => []
                end
            | None => []
            end
    /\ ((forall a : WorkspaceSvg, In a chain -> lookupSound name (SOUNDS_ a) = None) ->
        playAudio ua w name v
        = map (fun parent => Parent_playAudio parent name v) (ancestors w)).
Proof.
  intros ua w name v chain volume. split; [|split].
  - intros sound Hhere. rewrite playAudio_unfold, Hhere. reflexivity.
  - apply playAudio_chain.
  - intros Hnone. rewrite playAudio_chain. fold chain.
    rewrite (misses_all name chain Hnone).
    subst chain. cbn [List.length].
    rewrite firstn_all2 by lia.
    assert (Hpast : nth_error (w :: ancestors w) (S (List.length (ancestors w))) = None)
      by (apply nth_error_None; cbn [List.length]; lia).
    rewrite Hpast. apply app_nil_r.
Qed.

(** C10.  For a sound the workspace has: a volume argument of 0 sets the
    node's volume to 0; the volume is 1 when the argument is [undefined]; and
    every argument other than [undefined] is assigned as it is. *)
Theorem playAudio_volume :
  forall (ua : UserAgent) (w : WorkspaceSvg) (name : string) (sound : Sound),
    lookupSound name (SOUNDS_ w) = Some sound ->
    let direct := ie9 ua || IPAD ua || ANDROID ua in
    let mySound := if direct then sound else cloneNode sound in
    let cloning := if direct then [] else [Audio_cloneNode sound] in
    playAudio ua w name (Number 0)
    = cloning ++ [Audio_setVolume mySound (Number 0); Audio_play mySound]
    /\ playAudio ua w name Undefined
       = cloning ++ [Audio_setVolume mySound (Number 1); Audio_play mySound]
    /\ (forall v : JsValue,
           v <> Undefined ->
           playAudio ua w name v
           = cloning ++ [Audio_setVolume mySound v; Audio_play mySound]).
Proof.
  intros ua w name sound Hhere direct mySound cloning.
  assert (Hplay : forall v,
             playAudio ua w name v
             = cloning ++ [Audio_setVolume mySound
                             match v with Undefined => Number 1 | _ => v end;
                           Audio_play mySound]).
  { intros v. rewrite playAudio_unfold, Hhere.
    unfold playSound, cloning, mySound, direct.
    destruct (ie9 ua || IPAD ua || ANDROID ua); reflexivity. }
  split; [|split].
  - apply Hplay.
  - apply Hplay.
  - intros v Hv. rewrite Hplay. destruct v; [contradiction | reflexivity | reflexivity].
Qed.

Lemma playAudio_volume_witness :
  playAudio Sample.desktop Sample.withSounds "click" (Number 0)
  = [Audio_cloneNode Sample.click;
     Audio_setVolume (cloneNode Sample.click) (Number 0);
     Audio_play (cloneNode Sample.click)]
  /\ playAudio Sample.tablet Sample.withSounds "click" Undefined
     = [Audio_setVolume Sample.click (Number 1); Audio_play Sample.click].
Proof.
  split.
  - exact (proj1 (playAudio_volume Sample.desktop Sample.withSounds "click"
                    Sample.click eq_refl)).
  - exact (proj1 (proj2 (playAudio_volume Sample.tablet Sample.withSounds "click"
                           Sample.click eq_refl))).
Defined.

(** ** Preloading *)

Lemma preloadAudio_loop_all (ua : UserAgent) (sounds : list (string * Sound)) :
  IPAD ua || IPHONE ua = false ->
  preloadAudio_loop ua sounds = flat_map (fun entry => preloadOne (snd entry)) sounds.
Proof.
  intros Hother. induction sounds as [|[name sound] rest IH].
  - reflexivity.
  - cbn [preloadAudio_loop flat_map snd]. rewrite Hother, IH. reflexivity.
Qed.

(** C9.  Off iPad and iPhone every registered sound has its volume set to
    0.01, is played and at once paused, in the order of the registry.  On iPad
    and iPhone this happens to the first registered sound only and the loop
    ends there. *)
Theorem preloadAudio_platforms :
  forall (ua : UserAgent) (w : WorkspaceSvg),
    (IPAD ua || IPHONE ua = false ->
     preloadAudio_ ua w = flat_map (fun entry => preloadOne (snd entry)) (SOUNDS_ w))
    /\ (IPAD ua || IPHONE ua = true ->
        preloadAudio_ ua w
        = flat_map (fun entry => preloadOne (snd entry)) (firstn 1 (SOUNDS_ w))).
Proof.
  intros ua w. unfold preloadAudio_. split.
  - apply preloadAudio_loop_all.
  - intros Hios. destruct (SOUNDS_ w) as [|[name sound] rest].
    + reflexivity.
    + cbn [preloadAudio_loop firstn flat_map snd]. rewrite Hios. reflexivity.
Qed.

Lemma preloadAudio_platforms_witness :
  preloadAudio_ Sample.desktop Sample.withSounds
  = preloadOne Sample.click ++ preloadOne (Audio "media/delete.wav")
  /\ preloadAudio_ Sample.tablet Sample.withSounds = preloadOne Sample.click.
Proof.
  split.
  - exact (proj1 (preloadAudio_platforms Sample.desktop Sample.withSounds) eq_refl).
  - exact (proj2 (preloadAudio_platforms Sample.tablet Sample.withSounds) eq_refl).
Defined.

Lemma playAudio_delegation_witness :
  playAudio Sample.desktop Sample.nested "click" Undefined
  = [Parent_playAudio Sample.withSounds "click" Undefined;
     Audio_cloneNode Sample.click;
     Audio_setVolume (cloneNode Sample.click) (Number 1);
     Audio_play (cloneNode Sample.click)]
  /\ playAudio Sample.tablet Sample.withSounds "click" (Number (1 # 2))
     = [Audio_setVolume Sample.click (Number (1 # 2)); Audio_play Sample.click]
  /\ playAudio Sample.desktop Sample.nested "boom" Undefined
     = [Parent_playAudio Sample.withSounds "boom" Undefined].
Proof.
  split; [|split].
  - exact (proj1 (proj2 (playAudio_delegation Sample.desktop Sample.nested "click"
                           Undefined))).
  - exact (proj1 (playAudio_delegation Sample.tablet Sample.withSounds "click"
                    (Number (1 # 2))) Sample.click eq_refl).
  - apply (proj2 (proj2 (playAudio_delegation Sample.desktop Sample.nested "boom"
                           Undefined))).
    intros a [Ha | [Ha | []]]; subst a; reflexivity.
Defined.

Lemma render_leaves_only_witness :
  render Sample.withStack = [Block_render Sample.blockB]
  /\ In (Block_render Sample.blockB) (render Sample.withStack)
  /\ ~ In (Block_render Sample.blockA) (render Sample.withStack).
Proof.
  split; [|split].
  - exact (proj1 (render_leaves_only Sample.withStack)).
  - apply (proj1 (proj2 (render_leaves_only Sample.withStack)) Sample.blockB).
    split; [|reflexivity].
    right. exists Sample.blockA. split; [left; reflexivity|].
    apply descendant_child. left; reflexivity.
  - intros Hin.
    apply (proj1 (proj2 (render_leaves_only Sample.withStack)) Sample.blockA) in Hin.
    destruct Hin as [_ Hnil]. discriminate.
Defined.

(* ------------------------------------------------------------------ *)
(** ** Registering sounds *)

Lemma storeSound_lookup (name : string) (sound : Sound) (sounds : list (string * Sound)) :
  lookupSound name (storeSound name sound sounds) = Some sound.
Proof.
  induction sounds as [|[k v] rest IH].
  - cbn [storeSound lookupSound]. rewrite String.eqb_refl. reflexivity.
  - cbn [storeSound]. destruct (String.eqb k name) eqn:Hk.
    + cbn [lookupSound]. rewrite Hk. reflexivity.
    + cbn [lookupSound]. rewrite Hk. exact IH.
Qed.

Lemma storeSound_lookup_other (name other : string) (sound : Sound)
  (sounds : list (string * Sound)) :
  other <> name ->
  lookupSound other (storeSound name sound sounds) = lookupSound other sounds.
Proof.
  intros Hother. induction sounds as [|[k v] rest IH].
  - cbn [storeSound lookupSound].
    destruct (String.eqb_spec name other) as [Heq|_]; [congruence | reflexivity].
  - cbn [storeSound]. destruct (String.eqb_spec k name) as [Hk|Hk].
    + subst k. cbn [lookupSound].
      destruct (String.eqb_spec name other) as [Heq|_]; [congruence | reflexivity].
    + cbn [lookupSound]. rewrite IH. reflexivity.
Qed.

(** Storing under a name keeps the names as they are, or adds the new one. *)
Lemma storeSound_names (name : string) (sound : Sound) (sounds : list (string * Sound)) :
  map fst (storeSound name sound sounds)
  = if in_dec string_dec name (map fst sounds)
    then map fst sounds
    else map fst sounds ++ [name].
Proof.
  induction sounds as [|[k v] rest IH].
  - reflexivity.
  - cbn [storeSound map fst]. destruct (String.eqb_spec k name) as [Hk|Hk].
    + subst k. cbn [map fst].
      destruct (in_dec string_dec name (name :: map fst rest)) as [_|Hout];
        [reflexivity | exfalso; apply Hout; left; reflexivity].
    + cbn [map fst]. rewrite IH.
      destruct (in_dec string_dec name (map fst rest)) as [Hin|Hout];
        destruct (in_dec string_dec name (k :: map fst rest)) as [Hin'|Hout'];
        try reflexivity.
      * exfalso. apply Hout'. right; exact Hin.
      * exfalso. destruct Hin' as [Heq|Hin']; [congruence | contradiction].
Qed.

Lemma storeSound_NoDup (name : string) (sound : Sound) (sounds : list (string * Sound)) :
  NoDup (map fst sounds) -> NoDup (map fst (storeSound name sound sounds)).
Proof.
  intros Hnd. rewrite storeSound_names.
  destruct (in_dec string_dec name (map fst sounds)) as [Hin|Hout]; [exact Hnd|].
  apply NoDup_app; [exact Hnd | constructor; [intros [] | constructor] |].
  intros a Ha [Heq | []]. subst a. contradiction.
Qed.

(** The [for] loop of [loadAudio_] stops at the first playable candidate and
    asks about no candidate after it. *)
Lemma loadAudio_loop_first (audioTest : AudioSupport) (filenames : list string) :
  loadAudio_loop audioTest filenames
  = (option_map Audio (find (playable audioTest) filenames),
     probes (upToFirst (playable audioTest) filenames)
     ++ match find (playable audioTest) filenames with
        | Some filename => [Audio_new filename]
        | None => []
        end).
Proof.
  induction filenames as [|filename rest IH].
  - reflexivity.
  - cbn [loadAudio_loop find upToFirst]. unfold playable at 1 3 5.
    destruct (matchExt filename) as [ext|] eqn:Hext.
    + destruct (truthy (canPlayType audioTest (String.append "audio/" ext))) eqn:Hcan.
      * unfold probes. cbn [flat_map option_map]. rewrite Hext. reflexivity.
      * rewrite IH. unfold probes. cbn [flat_map]. rewrite Hext. reflexivity.
    + rewrite IH. unfold probes. cbn [flat_map]. rewrite Hext. reflexivity.
Qed.

(** Whatever the browser, registering keeps the names of the registry
    distinct. *)
Lemma loadAudio_NoDup (window_Audio : option AudioSupport) (w : WorkspaceSvg)
  (filenames : list string) (name : string) :
  NoDup (map fst (SOUNDS_ w)) ->
  NoDup (map fst (SOUNDS_ (fst (loadAudio_ window_Audio w filenames name)))).
Proof.
  intros Hnd. unfold loadAudio_.
  destruct window_Audio as [audioTest|]; [|exact Hnd].
  destruct filenames as [|filename rest]; [exact Hnd|].
  destruct (loadAudio_loop audioTest (filename :: rest)) as [[sound|] trace];
    [|exact Hnd].
  destruct (hasPlay audioTest); [|exact Hnd].
  cbn [fst]. apply storeSound_NoDup. exact Hnd.
Qed.

Lemma loadAudio_result (audioTest : AudioSupport) (w : WorkspaceSvg)
  (filenames : list string) (name : string) :
  hasPlay audioTest = true ->
  filenames <> [] ->
  loadAudio_ (Some audioTest) w filenames name
  = (match find (playable audioTest) filenames with
     | Some filename =>
         set_SOUNDS_ (storeSound name (Audio filename) (SOUNDS_ w)) w
     | None => w
     end,
     Audio_new_test
     :: probes (upToFirst (playable audioTest) filenames)
        ++ match find (playable audioTest) filenames with
           | Some filename => [Audio_new filename]
           | None => []
           end).
Proof.
  intros Hplay Hsome. unfold loadAudio_.
  destruct filenames as [|filename rest]; [contradiction|].
  rewrite loadAudio_loop_first.
  destruct (find (playable audioTest) (filename :: rest)); cbn [option_map].
  - rewrite Hplay. reflexivity.
  - reflexivity.
Qed.

Lemma SOUNDS_set_SOUNDS_ (sounds : list (string * Sound)) (w : WorkspaceSvg) :
  SOUNDS_ (set_SOUNDS_ sounds w) = sounds.
Proof. reflexivity. Qed.

Lemma playSound_no_probe (ua : UserAgent) (sound : Sound) (v : JsValue) :
  existsb isProbe (playSound ua sound v) = false.
Proof.
  unfold playSound. destruct (ie9 ua || IPAD ua || ANDROID ua); reflexivity.
Qed.

Lemma playAudio_no_probe (ua : UserAgent) (name : string) (v : JsValue) :
  forall w : WorkspaceSvg, existsb isProbe (playAudio ua w name v) = false.
Proof.
  induction w as [w Hroot | w parent Hparent IH] using WorkspaceSvg_parent_ind;
    rewrite playAudio_unfold;
    (destruct (lookupSound name (SOUNDS_ w)); [apply playSound_no_probe|]).
  - rewrite Hroot. reflexivity.
  - rewrite Hparent. cbn [existsb isProbe orb]. exact IH.
Qed.

Lemma preloadAudio_no_probe (ua : UserAgent) (w : WorkspaceSvg) :
  existsb isProbe (preloadAudio_ ua w) = false.
Proof.
  unfold preloadAudio_. induction (SOUNDS_ w) as [|[name sound] rest IH].
  - reflexivity.
  - cbn [preloadAudio_loop app existsb isProbe orb].
    destruct (IPAD ua || IPHONE ua); [reflexivity | exact IH].
Qed.

(** C5.  Registering keeps the names of the registry distinct, so a name has
    at most one cached node.  In a browser with audio nodes the node cached
    is the one made for the first candidate whose extension the test node
    declares playable, and the other names keep theirs; when no candidate is
    playable the workspace is as before.  For ["a.mp3"; "a.wav"] with wav the
    only playable format the node of "a.wav" is cached.  One test node is made
    for the registration, it is asked about the candidates in order and about
    none after the chosen one; playing and preloading ask nothing.  Without
    audio support nothing is registered. *)
Theorem loadAudio_first_playable :
  forall (audioTest : AudioSupport) (w : WorkspaceSvg) (filenames : list string)
         (name : string),
    hasPlay audioTest = true ->
    let result := loadAudio_ (Some audioTest) w filenames name in
    (forall window_Audio : option AudioSupport,
        NoDup (map fst (SOUNDS_ w)) ->
        NoDup (map fst (SOUNDS_ (fst (loadAudio_ window_Audio w filenames name)))))
    /\ match find (playable audioTest) filenames with
       | Some filename =>
           lookupSound name (SOUNDS_ (fst result)) = Some (Audio filename)
           /\ (forall other : string,
                  other <> name ->
                  lookupSound other (SOUNDS_ (fst result))
                  = lookupSound other (SOUNDS_ w))
       | None => fst result = w
       end
    /\ (truthy (canPlayType audioTest "audio/wav") = true ->
        truthy (canPlayType audioTest "audio/mp3") = false ->
        lookupSound name
          (SOUNDS_ (fst (loadAudio_ (Some audioTest) w ["a.mp3"; "a.wav"] name)))
        = Some (Audio "a.wav"))
    /\ (filenames <> [] ->
        snd result
        = Audio_new_test
          :: probes (upToFirst (playable audioTest) filenames)
             ++ match find (playable audioTest) filenames with
                | Some filename => [Audio_new filename]
                | None => []
                end)
    /\ (forall (ua : UserAgent) (w0 : WorkspaceSvg) (n : string) (v : JsValue),
           existsb isProbe (playAudio ua w0 n v) = false)
    /\ (forall (ua : UserAgent) (w0 : WorkspaceSvg),
           existsb isProbe (preloadAudio_ ua w0) = false)
    /\ loadAudio_ None w filenames name = (w, []).
Proof.
  intros audioTest w filenames name Hplay result.
  assert (Hcases : filenames = [] /\ result = (w, [])
                   \/ filenames <> [] /\
                      result = (match find (playable audioTest) filenames with
                                | Some filename =>
                                    set_SOUNDS_
                                      (storeSound name (Audio filename) (SOUNDS_ w)) w
                                | None => w
                                end,
                                Audio_new_test
                                :: probes (upToFirst (playable audioTest) filenames)
                                   ++ match find (playable audioTest) filenames with
                                      | Some filename => [Audio_new filename]
                                      | None => []
                                      end)).
  { destruct filenames as [|filename rest].
    - left. split; reflexivity.
    - right. split; [discriminate|].
      apply loadAudio_result; [exact Hplay | discriminate]. }
  split; [|split; [|split; [|split; [|split; [|split]]]]].
  - intros window_Audio Hnd. apply loadAudio_NoDup; exact Hnd.
  - destruct Hcases as [[Hnil Hres] | [_ Hres]]; rewrite Hres; cbn [fst].
    + rewrite Hnil. reflexivity.
    + destruct (find (playable audioTest) filenames); [|reflexivity].
      rewrite SOUNDS_set_SOUNDS_. split.
      * apply storeSound_lookup.
      * intros other Hother. apply storeSound_lookup_other; exact Hother.
  - intros Hwav Hmp3.
    rewrite loadAudio_result by (exact Hplay || discriminate).
    assert (Hfirst : playable audioTest "a.mp3" = false) by exact Hmp3.
    assert (Hsecond : playable audioTest "a.wav" = true) by exact Hwav.
    cbn [find fst]. rewrite Hfirst, Hsecond.
    rewrite SOUNDS_set_SOUNDS_. apply storeSound_lookup.
  - intros Hsome. destruct Hcases as [[Hnil _] | [_ Hres]]; [contradiction|].
    rewrite Hres. reflexivity.
  - intros ua w0 n v. apply playAudio_no_probe.
  - intros ua w0. apply preloadAudio_no_probe.
  - reflexivity.
Qed.

Lemma loadAudio_first_playable_witness :
  lookupSound "go"
    (SOUNDS_ (fst (loadAudio_ (Some Sample.wavOnly) Sample.emptyWorkspace
                     ["a.mp3"; "a.wav"] "go")))
  = Some (Audio "a.wav")
  /\ snd (loadAudio_ (Some Sample.wavOnly) Sample.emptyWorkspace
            ["a.wav"; "a.mp3"] "go")
     = [Audio_new_test; Audio_canPlayType "audio/wav"; Audio_new "a.wav"].
Proof.
  split.
  - exact (proj1 (proj2 (proj2 (loadAudio_first_playable Sample.wavOnly
                                  Sample.emptyWorkspace ["a.mp3"; "a.wav"] "go"
                                  eq_refl)))
             eq_refl eq_refl).
  - apply (proj1 (proj2 (proj2 (proj2 (loadAudio_first_playable Sample.wavOnly
                                         Sample.emptyWorkspace ["a.wav"; "a.mp3"] "go"
                                         eq_refl))))).
    discriminate.
Defined.

(* ------------------------------------------------------------------ *)
(** ** dispose *)

(** C6.  [dispose] releases the flyout and the trashcan of every workspace and
    clears both references, as its documentation promises of all that the
    workspace is linked to, but it misses the toolbox: the reference stays as it
    was.  On a workspace built with a category toolbox nothing is called on the
    toolbox and the reference is still there after [dispose], so that the
    components are not all released. *)
Lemma dispose_keeps_toolbox :
  (forall w : WorkspaceSvg,
      flyout_ (fst (dispose w)) = None
      /\ trashcan (fst (dispose w)) = None
      /\ toolbox_ (fst (dispose w)) = toolbox_ w)
  /\ toolbox_ (fst (dispose Sample.withCategories)) = Some Sample.categories
  /\ snd (dispose Sample.withCategories)
     = [Workspace_dispose; Dom_removeNode 1; Trashcan_dispose Sample.bin]
  /\ ~ componentsReleased (fst (dispose Sample.withCategories)).
Proof.
  split.
  { intros [pw rt tb rd [g|] bc uc [f|] x [t|] dt dx sn]; repeat split. }
  split; [reflexivity|]. split; [reflexivity|].
  intros [_ [_ [_ [_ [Htoolbox _]]]]]. discriminate.
Qed.

(** The rest of the contract of [dispose], which holds of every workspace.
    [dispose] clears the rendering flag before anything else:
    after its first statement nothing has been called yet, and from then on the
    flag is off, so that [fireChangeEvent] does nothing.  It then calls the
    base class, removes the surface node if there is one, and disposes of the
    flyout and of the trashcan if they are there; the surface, its two layers,
    the flyout and the trashcan end up null, the toolbox and the other fields
    are as before.  A second [dispose] only calls the base class again and
    leaves the workspace as the first one left it. *)
Theorem dispose_contract :
  forall w : WorkspaceSvg,
    run (firstn 1 dispose_statements) w = (set_rendered false w, [])
    /\ (forall n : nat,
           rendered (fst (run (firstn (S n) dispose_statements) w)) = false)
    /\ (forall n : nat,
           fireChangeEvent (fst (run (firstn (S n) dispose_statements) w)) = [])
    /\ snd (dispose w)
       = Workspace_dispose
         :: match svgGroup_ w with Some g => [Dom_removeNode g] | None => [] end
            ++ match flyout_ w with Some f => [Flyout_dispose f] | None => [] end
            ++ match trashcan w with Some t => [Trashcan_dispose t] | None => [] end
    /\ fst (dispose w)
       = mkWorkspaceSvg (parentWorkspace w) (RTL w) (topBlocks_ w) false
           None None None None (toolbox_ w) None
           (deleteAreaTrash_ w) (deleteAreaToolbox_ w) (SOUNDS_ w)
    /\ dispose (fst (dispose w)) = (fst (dispose w), [Workspace_dispose]).
Proof.
  intros [pw rt tb rd [g|] bc uc [f|] x [t|] dt dx sn];
    (split; [reflexivity|]);
    (split; [intros n; do 8 (destruct n as [|n]; [reflexivity|]); reflexivity|]);
    (split; [intros n; do 8 (destruct n as [|n]; [reflexivity|]); reflexivity|]);
    (split; [reflexivity|]); split; reflexivity.
Qed.

(* ------------------------------------------------------------------ *)
(** * Further properties of the code *)

(** ** The collision loop: how far the block is displaced *)

Lemma offset_loop_complete (SNAP_RADIUS : Z) (rtl : bool) (allBlocks : list Block) :
  forall (k : nat) (bx by_ : Z),
    (forall i : nat, (i < k)%nat ->
       collision allBlocks (bx + Z.of_nat i * stepX SNAP_RADIUS rtl)
         (by_ + Z.of_nat i * (SNAP_RADIUS * 2)) = true) ->
    collision allBlocks (bx + Z.of_nat k * stepX SNAP_RADIUS rtl)
      (by_ + Z.of_nat k * (SNAP_RADIUS * 2)) = false ->
    offset_loop SNAP_RADIUS (S k) rtl allBlocks bx by_
    = Some (bx + Z.of_nat k * stepX SNAP_RADIUS rtl,
            by_ + Z.of_nat k * (SNAP_RADIUS * 2)).
Proof.
  induction k as [k IH] using lt_wf_ind. intros bx by_ Hbusy Hfree.
  cbn [offset_loop].
  destruct (scan_spec SNAP_RADIUS rtl allBlocks bx by_) as [j [Hscan [Hleft Hzero]]].
  rewrite Hscan. cbn [collide blockX blockY].
  destruct j as [|j]; cbn [Nat.eqb negb].
  - destruct k as [|k]; [reflexivity|].
    exfalso. specialize (Hbusy 0%nat ltac:(lia)).
    replace (bx + Z.of_nat 0 * stepX SNAP_RADIUS rtl) with bx in Hbusy by lia.
    replace (by_ + Z.of_nat 0 * (SNAP_RADIUS * 2)) with by_ in Hbusy by lia.
    rewrite (Hzero eq_refl) in Hbusy. discriminate.
  - assert (Hjk : (S j <= k)%nat).
    { destruct (Nat.le_gt_cases (S j) k) as [Hle|Hgt]; [exact Hle|].
      exfalso. rewrite (Hleft k Hgt) in Hfree. discriminate. }
    assert (Hz : Z.of_nat k = Z.of_nat (S j) + Z.of_nat (k - S j)) by lia.
    apply offset_loop_more_fuel with (fuel := S (k - S j)); [|lia].
    rewrite (IH (k - S j)%nat).
    + f_equal. f_equal; rewrite Hz; ring.
    + lia.
    + intros i Hi.
      assert (Hi' : (S j + i < k)%nat) by lia.
      specialize (Hbusy (S j + i)%nat Hi').
      replace (Z.of_nat (S j + i)) with (Z.of_nat (S j) + Z.of_nat i) in Hbusy by lia.
      replace (bx + Z.of_nat (S j) * stepX SNAP_RADIUS rtl
               + Z.of_nat i * stepX SNAP_RADIUS rtl)
        with (bx + (Z.of_nat (S j) + Z.of_nat i) * stepX SNAP_RADIUS rtl) by ring.
      replace (by_ + Z.of_nat (S j) * (SNAP_RADIUS * 2)
               + Z.of_nat i * (SNAP_RADIUS * 2))
        with (by_ + (Z.of_nat (S j) + Z.of_nat i) * (SNAP_RADIUS * 2)) by ring.
      exact Hbusy.
    + replace (bx + Z.of_nat (S j) * stepX SNAP_RADIUS rtl
               + Z.of_nat (k - S j) * stepX SNAP_RADIUS rtl)
        with (bx + Z.of_nat k * stepX SNAP_RADIUS rtl) by (rewrite Hz; ring).
      replace (by_ + Z.of_nat (S j) * (SNAP_RADIUS * 2)
               + Z.of_nat (k - S j) * (SNAP_RADIUS * 2))
        with (by_ + Z.of_nat k * (SNAP_RADIUS * 2)) by (rewrite Hz; ring).
      exact Hfree.
Qed.

Lemma place_by_words_sound (SNAP_RADIUS : Z) (rtl : bool) (allBlocks : list Block) :
  forall (fuel : nat) (bx by_ : Z) (r : Z * Z),
    place_by_words SNAP_RADIUS fuel rtl allBlocks bx by_ = Some r ->
    exists k : nat,
      r = (bx + Z.of_nat k * stepX SNAP_RADIUS rtl,
           by_ + Z.of_nat k * (SNAP_RADIUS * 2))
      /\ collision allBlocks (bx + Z.of_nat k * stepX SNAP_RADIUS rtl)
           (by_ + Z.of_nat k * (SNAP_RADIUS * 2)) = false
      /\ (forall i : nat, (i < k)%nat ->
            collision allBlocks (bx + Z.of_nat i * stepX SNAP_RADIUS rtl)
              (by_ + Z.of_nat i * (SNAP_RADIUS * 2)) = true).
Proof.
  induction fuel as [|fuel IH]; intros bx by_ r Hrun.
  - discriminate.
  - rewrite place_by_words_step in Hrun.
    destruct (collision allBlocks bx by_) eqn:Hhere.
    + apply IH in Hrun. destruct Hrun as [k [Hr [Hfree Hbusy]]].
      exists (S k).
      assert (Hz : Z.of_nat (S k) = 1 + Z.of_nat k) by lia.
      split; [|split].
      * rewrite Hr. f_equal; rewrite Hz; ring.
      * replace (bx + Z.of_nat (S k) * stepX SNAP_RADIUS rtl)
          with (bx + stepX SNAP_RADIUS rtl + Z.of_nat k * stepX SNAP_RADIUS rtl)
          by (rewrite Hz; ring).
        replace (by_ + Z.of_nat (S k) * (SNAP_RADIUS * 2))
          with (by_ + 2 * SNAP_RADIUS + Z.of_nat k * (SNAP_RADIUS * 2))
          by (rewrite Hz; ring).
        exact Hfree.
      * intros i Hi. destruct i as [|i].
        -- replace (bx + Z.of_nat 0 * stepX SNAP_RADIUS rtl) with bx by lia.
           replace (by_ + Z.of_nat 0 * (SNAP_RADIUS * 2)) with by_ by lia.
           exact Hhere.
        -- assert (Hzi : Z.of_nat (S i) = 1 + Z.of_nat i) by lia.
           replace (bx + Z.of_nat (S i) * stepX SNAP_RADIUS rtl)
             with (bx + stepX SNAP_RADIUS rtl + Z.of_nat i * stepX SNAP_RADIUS rtl)
             by (rewrite Hzi; ring).
           replace (by_ + Z.of_nat (S i) * (SNAP_RADIUS * 2))
             with (by_ + 2 * SNAP_RADIUS + Z.of_nat i * (SNAP_RADIUS * 2))
             by (rewrite Hzi; ring).
           apply Hbusy. lia.
    + inversion Hrun; subst r. exists 0%nat.
      replace (bx + Z.of_nat 0 * stepX SNAP_RADIUS rtl) with bx by lia.
      replace (by_ + Z.of_nat 0 * (SNAP_RADIUS * 2)) with by_ by lia.
      split; [reflexivity|]. split; [exact Hhere|]. intros i Hi; lia.
Qed.


Lemma scan_history_below (SNAP_RADIUS : Z) (rtl : bool) (bound : Z) :
  forall (allBlocks : list Block) (c : Candidate),
    Forall (fun b => Coordinate.y (getRelativeToSurfaceXY b) <= bound) allBlocks ->
    blockY c <= bound + 1 + 2 * SNAP_RADIUS ->
    Forall (fun c' => blockY c' <= bound + 1 + 2 * SNAP_RADIUS)
      (scan_history SNAP_RADIUS rtl allBlocks c)
    /\ blockY (fold_left (scan_body SNAP_RADIUS rtl) allBlocks c)
       <= bound + 1 + 2 * SNAP_RADIUS.
Proof.
  induction allBlocks as [|b rest IH]; intros c Hblocks Hc.
  - split; [constructor | exact Hc].
  - inversion Hblocks as [|b' rest' Hb Hrest]; subst b' rest'.
    cbn [scan_history fold_left].
    assert (Hc' : blockY (scan_body SNAP_RADIUS rtl c b)
                  <= bound + 1 + 2 * SNAP_RADIUS).
    { unfold scan_body.
      destruct (clobbers (blockX c) (blockY c) b) eqn:Hhit; [|exact Hc].
      apply clobbers_near in Hhit. destruct Hhit as [_ Hy].
      unfold offset. cbn [blockY]. lia. }
    destruct (IH _ Hrest Hc') as [Hall Hend].
    split; [constructor; assumption | exact Hend].
Qed.

Lemma offset_history_below (SNAP_RADIUS : Z) (rtl : bool) (bound : Z)
  (allBlocks : list Block) :
  Forall (fun b => Coordinate.y (getRelativeToSurfaceXY b) <= bound) allBlocks ->
  forall (fuel : nat) (bx by_ : Z),
    by_ <= bound + 1 + 2 * SNAP_RADIUS ->
    Forall (fun c => blockY c <= bound + 1 + 2 * SNAP_RADIUS)
      (offset_history SNAP_RADIUS fuel rtl allBlocks bx by_).
Proof.
  intros Hblocks. induction fuel as [|fuel IH]; intros bx by_ Hstart.
  - constructor.
  - cbn [offset_history]. apply Forall_app.
    destruct (scan_history_below SNAP_RADIUS rtl bound allBlocks
                (mkCandidate bx by_ false) Hblocks Hstart) as [Hall Hend].
    split; [exact Hall|].
    fold (scan SNAP_RADIUS rtl allBlocks bx by_) in Hend.
    destruct (collide (scan SNAP_RADIUS rtl allBlocks bx by_)); [|constructor].
    apply IH. exact Hend.
Qed.

Lemma last_default_or_in {A : Type} (l : list A) (d : A) :
  last l d = d \/ In (last l d) l.
Proof.
  destruct l as [|a l]; [left; reflexivity|]. right.
  revert a. induction l as [|b l IH]; intros a; [left; reflexivity|].
  change (last (a :: b :: l) d) with (last (b :: l) d). right. apply IH.
Qed.

Lemma lowestEdge_within (bound : Z) (allBlocks : list Block) :
  0 <= bound ->
  Forall (fun b => Coordinate.y (getRelativeToSurfaceXY b) <= bound) allBlocks ->
  0 <= lowestEdge allBlocks <= bound.
Proof.
  intros Hbound Hblocks. induction Hblocks as [|b rest Hb Hrest IH].
  - cbn [lowestEdge fold_right]. lia.
  - cbn [lowestEdge fold_right]. fold (lowestEdge rest). lia.
Qed.

(** X1.  Where the arithmetic of the source is exact, an accepted paste with
    a recorded position returns.  Let the snap radius be positive and at most
    [bound], the recorded position and every block of the workspace lie within
    [bound] of the origin on both axes, and [4 * bound + 1] be below 2^53.
    Then the collision loop ends within [2 * bound + 3] passes, and from the
    pass at which it ends the result is there and stays the same; and every
    value the loop variables take, as well as every difference the loop
    computes against a block, stays below 2^53 in absolute value, so that the
    floating-point numbers of the source are the integers of this model. *)
Theorem paste_returns_in_exact_range :
  forall (SNAP_RADIUS : Z) (remainingCapacity : WorkspaceSvg -> Capacity)
         (domToBlock : WorkspaceSvg -> Element -> WorkspaceSvg * Block)
         (w : WorkspaceSvg) (xmlBlock : Element) (x0 y0 bound : Z),
    0 < SNAP_RADIUS ->
    SNAP_RADIUS <= bound ->
    4 * bound + 1 < 2 ^ 53 ->
    exceedsCapacity xmlBlock (remainingCapacity w) = false ->
    parseInt (getAttribute xmlBlock "x") = Some x0 ->
    parseInt (getAttribute xmlBlock "y") = Some y0 ->
    Z.abs x0 <= bound ->
    Z.abs y0 <= bound ->
    let w' := fst (domToBlock w xmlBlock) in
    let block := snd (domToBlock w xmlBlock) in
    let cx := if RTL w' then - x0 else x0 in
    blocksWithin bound (getAllBlocks w') ->
    exists (enough : nat) (px py : Z),
      Z.of_nat enough <= 2 * bound + 3
      /\ (forall fuel : nat,
            (enough <= fuel)%nat ->
            paste SNAP_RADIUS remainingCapacity domToBlock fuel w xmlBlock
            = Some (w', [Xml_domToBlock xmlBlock; Block_moveBy block px py;
                         Block_select block]))
      /\ inExactRange px /\ inExactRange py
      /\ (forall fuel : nat,
            Forall (exactPass (getAllBlocks w'))
              (offset_history SNAP_RADIUS fuel (RTL w') (getAllBlocks w') cx y0)).
Proof.
  intros SNAP_RADIUS rc dtb w xmlBlock x0 y0 bound Hpos Hradius Hexact Hroom Hx Hy
    Hx0 Hy0 w' block cx Hblocks.
  assert (Hys : Forall (fun b => Coordinate.y (getRelativeToSurfaceXY b) <= bound)
                  (getAllBlocks w')).
  { apply Forall_forall. intros b Hb.
    pose proof (proj1 (Forall_forall _ _) Hblocks b Hb) as [_ Hyb]. lia. }
  assert (Hcx : Z.abs cx <= bound) by (unfold cx; destruct (RTL w'); lia).
  assert (Hhistory : forall fuel : nat,
            Forall (fun c => Z.abs (blockX c) <= 3 * bound
                             /\ Z.abs (blockY c) <= 3 * bound + 1)
              (offset_history SNAP_RADIUS fuel (RTL w') (getAllBlocks w') cx y0)).
  { intros fuel. apply Forall_forall. intros c Hc.
    pose proof (offset_history_below SNAP_RADIUS (RTL w') bound (getAllBlocks w') Hys
                  fuel cx y0 ltac:(lia)) as Hlow.
    pose proof (offset_history_two_to_one SNAP_RADIUS (RTL w') cx y0 (getAllBlocks w')
                  ltac:(lia) fuel cx y0) as Hratio.
    assert (Hstart : two_to_one (RTL w') cx y0 (mkCandidate cx y0 false)).
    { unfold two_to_one. cbn [blockX blockY]. destruct (RTL w'); split; lia. }
    specialize (Hratio Hstart).
    pose proof (proj1 (Forall_forall _ _) Hlow c Hc) as Hc1.
    pose proof (proj1 (Forall_forall _ _) Hratio c Hc) as [_ Hc2].
    cbv beta in Hc1. split; lia. }
  destruct (paste_accepts SNAP_RADIUS rc dtb w xmlBlock x0 y0 Hpos Hroom Hx Hy)
    as [px [py [Hloop Hpaste]]].
  fold w' in Hloop. fold cx in Hloop.
  assert (Hresult : Z.abs px <= 3 * bound /\ Z.abs py <= 3 * bound + 1).
  { pose proof (offset_history_last SNAP_RADIUS (RTL w') (getAllBlocks w')
                  (enoughFuel (getAllBlocks w') y0) cx y0 (px, py) Hloop) as Hlast.
    destruct (last_default_or_in
                (map position
                   (offset_history SNAP_RADIUS (enoughFuel (getAllBlocks w') y0)
                      (RTL w') (getAllBlocks w') cx y0)) (cx, y0)) as [Hd|Hin].
    - rewrite Hlast in Hd. inversion Hd. lia.
    - rewrite Hlast in Hin. apply in_map_iff in Hin.
      destruct Hin as [c [Hpos' Hc]]. unfold position in Hpos'. inversion Hpos'.
      exact (proj1 (Forall_forall _ _)
               (Hhistory (enoughFuel (getAllBlocks w') y0)) c Hc). }
  exists (enoughFuel (getAllBlocks w') y0), px, py.
  split; [|split; [|split; [|split]]].
  - unfold enoughFuel.
    pose proof (lowestEdge_within bound (getAllBlocks w') ltac:(lia) Hys). lia.
  - intros fuel Hfuel.
    apply offset_loop_more_fuel with (fuel' := fuel) in Hloop; [|exact Hfuel].
    unfold paste. rewrite reachesCapacity_exceeds, Hroom, Hx, Hy.
    subst w' block cx. destruct (dtb w xmlBlock) as [w1 b1]. cbn [fst snd] in *.
    rewrite Hloop. reflexivity.
  - destruct Hresult as [Hpx _]. unfold inExactRange. lia.
  - destruct Hresult as [_ Hpy]. unfold inExactRange. lia.
  - intros fuel. apply Forall_forall. intros c Hc.
    pose proof (proj1 (Forall_forall _ _) (Hhistory fuel) c Hc) as [Hcx' Hcy'].
    unfold exactPass, inExactRange. split; [lia|]. split; [lia|].
    apply Forall_forall. intros b Hb.
    pose proof (proj1 (Forall_forall _ _) Hblocks b Hb) as [Hbx Hby].
    split; lia.
Qed.

Lemma paste_returns_in_exact_range_witness :
  exists (enough : nat) (px py : Z),
    Z.of_nat enough <= 2 * 20 + 3
    /\ (forall fuel : nat,
          (enough <= fuel)%nat ->
          paste 20 Sample.unlimited Sample.domToBlock fuel Sample.workspace
            Sample.xmlBlock
          = Some (fst (Sample.domToBlock Sample.workspace Sample.xmlBlock),
                  [Xml_domToBlock Sample.xmlBlock;
                   Block_moveBy
                     (snd (Sample.domToBlock Sample.workspace Sample.xmlBlock)) px py;
                   Block_select
                     (snd (Sample.domToBlock Sample.workspace Sample.xmlBlock))]))
    /\ inExactRange px /\ inExactRange py
    /\ (forall fuel : nat,
          Forall
            (exactPass
               (getAllBlocks (fst (Sample.domToBlock Sample.workspace Sample.xmlBlock))))
            (offset_history 20 fuel false
               (getAllBlocks (fst (Sample.domToBlock Sample.workspace Sample.xmlBlock)))
               10 10)).
Proof.
  assert (Hpos : 0 < 20) by lia.
  assert (Hradius : 20 <= 20) by lia.
  assert (Hexact : 4 * 20 + 1 < 2 ^ 53) by reflexivity.
  assert (Hx0 : Z.abs 10 <= 20) by (cbn; lia).
  assert (Hblocks : blocksWithin 20
            (getAllBlocks (fst (Sample.domToBlock Sample.workspace Sample.xmlBlock)))).
  { repeat constructor; cbn; lia. }
  exact (paste_returns_in_exact_range 20 Sample.unlimited Sample.domToBlock
           Sample.workspace Sample.xmlBlock 10 10 20
           Hpos Hradius Hexact eq_refl eq_refl eq_refl Hx0 Hx0 Hblocks).
Defined.



(** X3.  For every snap radius, zero and negative ones included, the loop of
    [paste] (which goes on with the rest of the list after an offset) and the
    algorithm that starts over after each offset have the same outcome: either
    both return, and the same position, or neither ever does. *)
Theorem offset_loop_iff_words :
  forall (SNAP_RADIUS : Z) (rtl : bool) (allBlocks : list Block) (bx by_ : Z)
         (r : Z * Z),
    (exists fuel : nat, offset_loop SNAP_RADIUS fuel rtl allBlocks bx by_ = Some r)
    <-> (exists fuel : nat,
            place_by_words SNAP_RADIUS fuel rtl allBlocks bx by_ = Some r).
Proof.
  intros SNAP_RADIUS rtl allBlocks bx by_ [rx ry]. split.
  - intros [fuel Hrun].
    apply offset_loop_refines_words with (fuel := fuel); exact Hrun.
  - intros [fuel Hrun].
    destruct (place_by_words_sound SNAP_RADIUS rtl allBlocks fuel bx by_ _ Hrun)
      as [k [Hr [Hfree Hbusy]]].
    exists (S k). rewrite Hr. apply offset_loop_complete; assumption.
Qed.

Lemma offset_loop_iff_words_witness :
  exists fuel : nat,
    offset_loop 20 fuel false [Sample.existing; Sample.pasted] 10 10 = Some (30, 50).
Proof.
  apply (proj2 (offset_loop_iff_words 20 false [Sample.existing; Sample.pasted]
                  10 10 (30, 50))).
  exists 2%nat. reflexivity.
Defined.

Lemma collision_same_blocks (l l' : list Block) (bx by_ : Z) :
  (forall b : Block, In b l <-> In b l') ->
  collision l bx by_ = collision l' bx by_.
Proof.
  intros Hsame. unfold collision.
  destruct (existsb (clobbers bx by_) l') eqn:Hl'.
  - apply existsb_exists in Hl'. destruct Hl' as [b [Hin Hhit]].
    apply existsb_exists. exists b. split; [apply Hsame; exact Hin | exact Hhit].
  - destruct (existsb (clobbers bx by_) l) eqn:Hl; [|reflexivity].
    apply existsb_exists in Hl. destruct Hl as [b [Hin Hhit]].
    rewrite <- Hl'. symmetry. apply existsb_exists.
    exists b. split; [apply Hsame; exact Hin | exact Hhit].
Qed.

(** X4.  The position the loop returns does not depend on the order, nor on
    the repetitions, in which the blocks are listed: two lists holding the same
    blocks lead to the same position (after possibly a different number of
    passes). *)
Theorem offset_loop_order_independent :
  forall (SNAP_RADIUS : Z) (rtl : bool) (l l' : list Block) (fuel : nat)
         (bx by_ : Z) (r : Z * Z),
    (forall b : Block, In b l <-> In b l') ->
    offset_loop SNAP_RADIUS fuel rtl l bx by_ = Some r ->
    exists fuel' : nat, offset_loop SNAP_RADIUS fuel' rtl l' bx by_ = Some r.
Proof.
  intros SNAP_RADIUS rtl l l' fuel bx by_ [rx ry] Hsame Hrun.
  destruct (offset_loop_sound SNAP_RADIUS rtl l fuel bx by_ rx ry Hrun)
    as [k [Hx [Hy [Hfree Hbusy]]]].
  exists (S k). rewrite Hx, Hy. apply offset_loop_complete.
  - intros i Hi. rewrite <- (collision_same_blocks l l' _ _ Hsame).
    apply Hbusy; exact Hi.
  - rewrite <- (collision_same_blocks l l' _ _ Hsame).
    rewrite <- Hx, <- Hy. exact Hfree.
Qed.

Lemma offset_loop_order_independent_witness :
  exists fuel' : nat,
    offset_loop 20 fuel' false [Sample.pasted; Sample.existing; Sample.pasted] 10 10
    = Some (30, 50).
Proof.
  apply (offset_loop_order_independent 20 false [Sample.existing; Sample.pasted]
           [Sample.pasted; Sample.existing; Sample.pasted] 2 10 10 (30, 50)).
  - intros b. cbn [In]. tauto.
  - reflexivity.
Defined.



(* ------------------------------------------------------------------ *)
(** ** Sounds: registering, then playing and preloading *)

Lemma loadAudio_cases (window_Audio : option AudioSupport) (w : WorkspaceSvg)
  (filenames : list string) (name : string) :
  fst (loadAudio_ window_Audio w filenames name) = w
  \/ exists sound : Sound,
       fst (loadAudio_ window_Audio w filenames name)
       = set_SOUNDS_ (storeSound name sound (SOUNDS_ w)) w.
Proof.
  unfold loadAudio_.
  destruct window_Audio as [audioTest|]; [|left; reflexivity].
  destruct filenames as [|filename rest]; [left; reflexivity|].
  destruct (loadAudio_loop audioTest (filename :: rest)) as [[sound|] trace];
    [|left; reflexivity].
  destruct (hasPlay audioTest); [|left; reflexivity].
  right. exists sound. reflexivity.
Qed.

Lemma loadAudio_parent (window_Audio : option AudioSupport) (w : WorkspaceSvg)
  (filenames : list string) (name : string) :
  parentWorkspace (fst (loadAudio_ window_Audio w filenames name)) = parentWorkspace w.
Proof.
  destruct (loadAudio_cases window_Audio w filenames name) as [Heq | [sound Heq]];
    rewrite Heq; reflexivity.
Qed.

Lemma loadAudio_lookup_other (window_Audio : option AudioSupport) (w : WorkspaceSvg)
  (filenames : list string) (name other : string) :
  other <> name ->
  lookupSound other (SOUNDS_ (fst (loadAudio_ window_Audio w filenames name)))
  = lookupSound other (SOUNDS_ w).
Proof.
  intros Hother.
  destruct (loadAudio_cases window_Audio w filenames name) as [Heq | [sound Heq]];
    rewrite Heq; [reflexivity|].
  rewrite SOUNDS_set_SOUNDS_. apply storeSound_lookup_other; exact Hother.
Qed.

Lemma find_some_nonempty {A : Type} (f : A -> bool) (l : list A) (a : A) :
  find f l = Some a -> l <> [].
Proof. destruct l; [discriminate | discriminate]. Qed.

(** X6.  A sound registered from a list with a playable candidate is what
    [playAudio] then plays under that name: the node made for the first
    playable candidate, set to the volume asked for, with no call to the parent
    workspace, whatever the parent has under the name. *)
Theorem register_then_play :
  forall (ua : UserAgent) (audioTest : AudioSupport) (w : WorkspaceSvg)
         (filenames : list string) (name filename : string) (v : JsValue),
    hasPlay audioTest = true ->
    find (playable audioTest) filenames = Some filename ->
    playAudio ua (fst (loadAudio_ (Some audioTest) w filenames name)) name v
    = playSound ua (Audio filename) v.
Proof.
  intros ua audioTest w filenames name filename v Hplay Hfind.
  rewrite loadAudio_result;
    [|exact Hplay | apply (find_some_nonempty _ _ _ Hfind)].
  rewrite Hfind. cbn [fst].
  rewrite playAudio_unfold, SOUNDS_set_SOUNDS_, storeSound_lookup. reflexivity.
Qed.

Lemma register_then_play_witness :
  playAudio Sample.desktop
    (fst (loadAudio_ (Some Sample.wavOnly) Sample.nested ["go.mp3"; "go.wav"] "click"))
    "click" (Number (1 # 2))
  = [Audio_cloneNode (Audio "go.wav");
     Audio_setVolume (cloneNode (Audio "go.wav")) (Number (1 # 2));
     Audio_play (cloneNode (Audio "go.wav"))].
Proof.
  exact (register_then_play Sample.desktop Sample.wavOnly Sample.nested
           ["go.mp3"; "go.wav"] "click" "go.wav" (Number (1 # 2)) eq_refl eq_refl).
Defined.

(** X7.  Registering under one name leaves every other name alone: whatever
    the browser supports and whatever the candidates, [playAudio] for another
    name makes the same calls as before the registration. *)
Theorem registration_leaves_other_names :
  forall (ua : UserAgent) (window_Audio : option AudioSupport) (w : WorkspaceSvg)
         (filenames : list string) (name other : string) (v : JsValue),
    other <> name ->
    playAudio ua (fst (loadAudio_ window_Audio w filenames name)) other v
    = playAudio ua w other v.
Proof.
  intros ua window_Audio w filenames name other v Hother.
  rewrite (playAudio_unfold ua (fst (loadAudio_ window_Audio w filenames name))).
  rewrite (playAudio_unfold ua w).
  rewrite loadAudio_lookup_other by exact Hother.
  rewrite loadAudio_parent. reflexivity.
Qed.

Lemma registration_leaves_other_names_witness :
  playAudio Sample.tablet
    (fst (loadAudio_ (Some Sample.wavOnly) Sample.withSounds ["x.wav"] "delete"))
    "click" Undefined
  = [Audio_setVolume Sample.click (Number 1); Audio_play Sample.click].
Proof.
  assert (Hother : "click" <> "delete") by discriminate.
  exact (registration_leaves_other_names Sample.tablet (Some Sample.wavOnly)
           Sample.withSounds ["x.wav"] "delete" "click" Undefined Hother).
Defined.

Lemma playSound_plays_once (ua : UserAgent) (sound : Sound) (v : JsValue) :
  List.length (filter isPlay (playSound ua sound v)) = 1%nat.
Proof.
  unfold playSound. destruct (ie9 ua || IPAD ua || ANDROID ua); reflexivity.
Qed.

(** X8.  One request plays at most one node: exactly one when the workspace or
    one of its ancestors has the sound, also when several of them have it, and
    none otherwise. *)
Theorem playAudio_plays_once :
  forall (ua : UserAgent) (name : string) (v : JsValue) (w : WorkspaceSvg),
    List.length (filter isPlay (playAudio ua w name v))
    = if existsb (hasSound name) (w :: ancestors w) then 1%nat else 0%nat.
Proof.
  intros ua name v.
  induction w as [w Hroot | w parent Hparent IH] using WorkspaceSvg_parent_ind;
    rewrite playAudio_unfold, ancestors_unfold;
    (rewrite Hroot || rewrite Hparent);
    cbn [existsb]; unfold hasSound at 1;
    (destruct (lookupSound name (SOUNDS_ w)) as [sound|];
     [apply playSound_plays_once|]).
  - reflexivity.
  - cbn [filter isPlay orb]. exact IH.
Qed.

Lemma storeSound_new (name : string) (sound : Sound) (sounds : list (string * Sound)) :
  lookupSound name sounds = None ->
  storeSound name sound sounds = sounds ++ [(name, sound)].
Proof.
  induction sounds as [|[k v] rest IH]; intros Hnew.
  - reflexivity.
  - cbn [lookupSound] in Hnew. cbn [storeSound app].
    destruct (String.eqb k name); [discriminate|].
    rewrite IH by exact Hnew. reflexivity.
Qed.

Lemma storeSound_plain (name : string) (sound : Sound) (sounds : list (string * Sound)) :
  plainName name = true ->
  plainRegistry sounds = true ->
  plainRegistry (storeSound name sound sounds) = true.
Proof.
  intros Hname. unfold plainRegistry.
  induction sounds as [|[k v] rest IH]; intros Hsounds.
  - cbn [storeSound forallb fst]. rewrite Hname. reflexivity.
  - cbn [forallb fst] in Hsounds. apply andb_true_iff in Hsounds.
    destruct Hsounds as [Hk Hrest]. cbn [storeSound].
    destruct (String.eqb k name); cbn [forallb fst]; rewrite Hk; cbn [andb];
      [exact Hrest | apply IH; exact Hrest].
Qed.

(** X9.  Sound names that do not start with a digit are no array indices, and
    [for ... in] visits such names in the order in which they were added.  Off
    iPad and iPhone, with a registry of such names, a sound registered under
    such a name that is new to the registry is preloaded after all the sounds
    that were there: preloading makes the calls it made before, followed by
    those for the new node.  The registry is again one of such names. *)
Theorem new_sound_preloaded_last :
  forall (ua : UserAgent) (audioTest : AudioSupport) (w : WorkspaceSvg)
         (filenames : list string) (name filename : string),
    plainRegistry (SOUNDS_ w) = true ->
    plainName name = true ->
    IPAD ua || IPHONE ua = false ->
    hasPlay audioTest = true ->
    find (playable audioTest) filenames = Some filename ->
    lookupSound name (SOUNDS_ w) = None ->
    preloadAudio_ ua (fst (loadAudio_ (Some audioTest) w filenames name))
    = preloadAudio_ ua w ++ preloadOne (Audio filename)
    /\ plainRegistry (SOUNDS_ (fst (loadAudio_ (Some audioTest) w filenames name)))
       = true.
Proof.
  intros ua audioTest w filenames name filename Hplain Hname Hother Hplay Hfind Hnew.
  rewrite loadAudio_result;
    [|exact Hplay | apply (find_some_nonempty _ _ _ Hfind)].
  rewrite Hfind. cbn [fst]. unfold preloadAudio_.
  rewrite SOUNDS_set_SOUNDS_. split.
  - rewrite (storeSound_new _ _ _ Hnew).
    rewrite !preloadAudio_loop_all by exact Hother.
    rewrite flat_map_app. cbn [flat_map snd]. rewrite app_nil_r. reflexivity.
  - apply storeSound_plain; assumption.
Qed.

Lemma new_sound_preloaded_last_witness :
  plainRegistry (SOUNDS_ Sample.withSounds) = true
  /\ plainName "go" = true
  /\ preloadAudio_ Sample.desktop
       (fst (loadAudio_ (Some Sample.wavOnly) Sample.withSounds ["go.mp3"; "go.wav"] "go"))
     = preloadOne Sample.click ++ preloadOne (Audio "media/delete.wav")
       ++ preloadOne (Audio "go.wav").
Proof.
  split; [reflexivity|]. split; [reflexivity|].
  exact (proj1 (new_sound_preloaded_last Sample.desktop Sample.wavOnly
                  Sample.withSounds ["go.mp3"; "go.wav"] "go" "go.wav"
                  eq_refl eq_refl eq_refl eq_refl eq_refl eq_refl)).
Defined.

(** X10.  With a registry of names that do not start with a digit, visited by
    [for ... in] in the order in which they were added: on iPad and iPhone the
    one sound that is preloaded is the one under the first name of the
    registry, and registering under any other such name, again or anew, does
    not change that. *)
Theorem first_sound_stays_preloaded :
  forall (ua : UserAgent) (window_Audio : option AudioSupport) (w : WorkspaceSvg)
         (filenames : list string) (name first : string) (sound : Sound)
         (rest : list (string * Sound)),
    plainRegistry (SOUNDS_ w) = true ->
    plainName name = true ->
    IPAD ua || IPHONE ua = true ->
    SOUNDS_ w = (first, sound) :: rest ->
    first <> name ->
    preloadAudio_ ua w = preloadOne sound
    /\ preloadAudio_ ua (fst (loadAudio_ window_Audio w filenames name))
       = preloadOne sound
    /\ plainRegistry (SOUNDS_ (fst (loadAudio_ window_Audio w filenames name))) = true.
Proof.
  intros ua window_Audio w filenames name first sound rest Hplain Hname Hios Hfirst
    Hother.
  assert (Hone : forall l, preloadAudio_loop ua ((first, sound) :: l) = preloadOne sound).
  { intros l. cbn [preloadAudio_loop]. rewrite Hios. reflexivity. }
  split; [|split].
  - unfold preloadAudio_. rewrite Hfirst. apply Hone.
  - unfold preloadAudio_.
    destruct (loadAudio_cases window_Audio w filenames name) as [Heq | [s Heq]];
      rewrite Heq.
    + rewrite Hfirst. apply Hone.
    + rewrite SOUNDS_set_SOUNDS_, Hfirst. cbn [storeSound].
      destruct (String.eqb_spec first name) as [Hsame|_]; [contradiction|].
      apply Hone.
  - destruct (loadAudio_cases window_Audio w filenames name) as [Heq | [s Heq]];
      rewrite Heq.
    + exact Hplain.
    + rewrite SOUNDS_set_SOUNDS_. apply storeSound_plain; assumption.
Qed.

Lemma first_sound_stays_preloaded_witness :
  plainRegistry (SOUNDS_ Sample.withSounds) = true
  /\ plainName "delete" = true
  /\ preloadAudio_ Sample.tablet
       (fst (loadAudio_ (Some Sample.wavOnly) Sample.withSounds ["d.wav"] "delete"))
     = preloadOne Sample.click.
Proof.
  assert (Hother : "click" <> "delete") by discriminate.
  split; [reflexivity|]. split; [reflexivity|].
  exact (proj1 (proj2 (first_sound_stays_preloaded Sample.tablet (Some Sample.wavOnly)
                         Sample.withSounds ["d.wav"] "delete" "click" Sample.click
                         [("delete", Audio "media/delete.wav")]
                         eq_refl eq_refl eq_refl eq_refl Hother))).
Defined.

(* ------------------------------------------------------------------ *)
(** ** The extension of a file name *)

Lemma allWordChars_dot (prefix ext : string) :
  allWordChars (String.append prefix (String "."%char ext)) = false.
Proof.
  induction prefix as [|c prefix IH].
  - reflexivity.
  - cbn [String.append allWordChars]. rewrite IH. apply andb_false_r.
Qed.

(** X11.  The extension [loadAudio_] reads off a file name is what follows
    the last dot, provided that is not empty and made of letters, digits and
    underscores only; a name without a dot, ending in a dot, or with anything
    else after its last dot (a query string, a hyphen) has no extension and is
    never offered to [canPlayType]. *)
Theorem matchExt_spec :
  forall filename ext : string,
    matchExt filename = Some ext
    <-> (exists prefix : string,
            filename = String.append prefix (String "."%char ext))
        /\ ext <> EmptyString
        /\ allWordChars ext = true.
Proof.
  intros filename ext. split.
  - induction filename as [|c rest IH]; intros Hmatch.
    + discriminate.
    + cbn [matchExt] in Hmatch.
      destruct (Ascii.eqb c "."%char && truthy rest && allWordChars rest) eqn:Hhere.
      * inversion Hmatch; subst ext.
        apply andb_true_iff in Hhere. destruct Hhere as [Hhere Hword].
        apply andb_true_iff in Hhere. destruct Hhere as [Hdot Hsome].
        apply Ascii.eqb_eq in Hdot. subst c.
        split; [exists EmptyString; reflexivity|].
        split; [|exact Hword].
        intros Hempty. subst rest. discriminate.
      * destruct (IH Hmatch) as [[prefix Hsplit] [Hsome Hword]].
        split; [|split; assumption].
        exists (String c prefix). rewrite Hsplit. reflexivity.
  - intros [[prefix Hsplit] [Hsome Hword]]. subst filename.
    induction prefix as [|c prefix IH].
    + cbn [String.append matchExt]. rewrite Hword.
      destruct ext; [contradiction|]. reflexivity.
    + cbn [String.append matchExt].
      rewrite allWordChars_dot, andb_false_r. exact IH.
Qed.

Lemma matchExt_spec_witness :
  matchExt "media/click.old.wav" = Some "wav"
  /\ (exists prefix : string, "a.mp3" = String.append prefix (String "."%char "mp3")).
Proof.
  split.
  - apply (proj2 (matchExt_spec "media/click.old.wav" "wav")).
    split; [exists "media/click.old"; reflexivity|].
    split; [discriminate | reflexivity].
  - exact (proj1 (proj1 (matchExt_spec "a.mp3" "mp3") eq_refl)).
Defined.

(* ------------------------------------------------------------------ *)
(** ** Delete areas through the life of the workspace *)

Lemma isDeleteArea_toolbox_value (w : WorkspaceSvg) (p : Coordinate.t) :
  isDeleteArea_toolbox w p
  = (insideRect (deleteAreaToolbox_ w) p,
     [Css_setCursor (if insideRect (deleteAreaToolbox_ w) p then DELETE else CLOSED)]).
Proof.
  unfold isDeleteArea_toolbox, insideRect.
  destruct (deleteAreaToolbox_ w) as [area|]; [|reflexivity].
  destruct (Rect.contains area p); reflexivity.
Qed.

Lemma recordDeleteAreas_fields (w : WorkspaceSvg) :
  trashcan (recordDeleteAreas w) = trashcan w
  /\ flyout_ (recordDeleteAreas w) = flyout_ w
  /\ toolbox_ (recordDeleteAreas w) = toolbox_ w
  /\ deleteAreaTrash_ (recordDeleteAreas w) = option_map trashcanRect (trashcan w)
  /\ deleteAreaToolbox_ (recordDeleteAreas w) = paletteRect w.
Proof.
  destruct w as [pw rt tb rd g bc uc [f|] [x|] [t|] dt dx sn];
    repeat split; reflexivity.
Qed.

(** X12.  Right after [recordDeleteAreas], [isDeleteArea] cannot fail, and
    its answer is true exactly when the pointer lies in the rectangle of the
    current trashcan or in that of the current palette, the flyout's when there
    is a flyout and the toolbox's otherwise.  Recording a second time changes
    nothing. *)
Theorem isDeleteArea_after_recording :
  forall (mouseToSvg : MouseEvent -> Coordinate.t) (w : WorkspaceSvg) (e : MouseEvent),
    (exists trace : list Effect,
        isDeleteArea mouseToSvg (recordDeleteAreas w) e
        = Some (insideRect (option_map trashcanRect (trashcan w)) (mouseToSvg e)
                || insideRect (paletteRect w) (mouseToSvg e),
                trace))
    /\ recordDeleteAreas (recordDeleteAreas w) = recordDeleteAreas w.
Proof.
  intros mouseToSvg w e. split.
  - destruct (recordDeleteAreas_fields w) as [Hcan [_ [_ [Htrash Hpalette]]]].
    unfold isDeleteArea. rewrite coordinate_eta, Htrash, Hcan.
    rewrite isDeleteArea_toolbox_value, Hpalette.
    destruct (trashcan w) as [t|]; cbn [option_map insideRect].
    + destruct (Rect.contains (trashcanRect t) (mouseToSvg e)); cbn [orb];
        eexists; reflexivity.
    + cbn [orb]. eexists; reflexivity.
  - destruct w as [pw rt tb rd g bc uc [f|] [x|] [t|] dt dx sn]; reflexivity.
Qed.

(** X13.  [dispose] nulls the trashcan but keeps the trash rectangle that was
    recorded: on a disposed workspace whose trash rectangle was recorded,
    [isDeleteArea] fails for every pointer event, with the TypeError of
    calling [setOpen_] on null, until the areas are recorded again. *)
Theorem isDeleteArea_after_dispose :
  forall (mouseToSvg : MouseEvent -> Coordinate.t) (w : WorkspaceSvg) (e : MouseEvent),
    deleteAreaTrash_ w <> None ->
    isDeleteArea mouseToSvg (fst (dispose w)) e = None.
Proof.
  intros mouseToSvg w e Harea.
  assert (Hfields : deleteAreaTrash_ (fst (dispose w)) = deleteAreaTrash_ w
                    /\ trashcan (fst (dispose w)) = None).
  { destruct w as [pw rt tb rd [g|] bc uc [f|] x [t|] dt dx sn];
      split; reflexivity. }
  destruct Hfields as [Hkept Hnull].
  unfold isDeleteArea. rewrite Hkept, Hnull.
  destruct (deleteAreaTrash_ w); [reflexivity | contradiction].
Qed.

Lemma isDeleteArea_after_dispose_witness :
  isDeleteArea Sample.mouseToSvg (fst (dispose Sample.withZones)) (mkMouseEvent 10 10)
  = None.
Proof.
  assert (Harea : deleteAreaTrash_ Sample.withZones <> None) by discriminate.
  exact (isDeleteArea_after_dispose Sample.mouseToSvg Sample.withZones
           (mkMouseEvent 10 10) Harea).
Defined.

(** X14.  Once the areas are recorded again after [dispose], no trash
    rectangle is left and the flyout's is gone, but the rectangle of a category
    toolbox is still a delete area: [isDeleteArea] only sets the cursor, never
    calls a trashcan, and answers true exactly inside the toolbox's
    rectangle. *)
Theorem isDeleteArea_after_dispose_and_recording :
  forall (mouseToSvg : MouseEvent -> Coordinate.t) (w : WorkspaceSvg) (e : MouseEvent),
    let inside := insideRect (option_map toolboxRect (toolbox_ w)) (mouseToSvg e) in
    deleteAreaTrash_ (recordDeleteAreas (fst (dispose w))) = None
    /\ deleteAreaToolbox_ (recordDeleteAreas (fst (dispose w)))
       = option_map toolboxRect (toolbox_ w)
    /\ isDeleteArea mouseToSvg (recordDeleteAreas (fst (dispose w))) e
       = Some (inside, [Css_setCursor (if inside then DELETE else CLOSED)]).
Proof.
  intros mouseToSvg w e inside.
  assert (Hfields : deleteAreaTrash_ (recordDeleteAreas (fst (dispose w))) = None
                    /\ deleteAreaToolbox_ (recordDeleteAreas (fst (dispose w)))
                       = option_map toolboxRect (toolbox_ w)).
  { destruct w as [pw rt tb rd [g|] bc uc [f|] [x|] [t|] dt dx sn];
      split; reflexivity. }
  destruct Hfields as [Htrash Hpalette].
  split; [exact Htrash|]. split; [exact Hpalette|].
  unfold isDeleteArea. rewrite coordinate_eta, Htrash.
  rewrite isDeleteArea_toolbox_value, Hpalette. reflexivity.
Qed.

(* ------------------------------------------------------------------ *)
(** ** render reaches every block through its leaves *)

Lemma block_has_leaf (b : Block) :
  exists leaf : Block,
    In leaf (b :: descendantBlocks b) /\ getChildren leaf = [].
Proof.
  induction b as [i xy kids IH] using Block_children_ind.
  destruct kids as [|k kids].
  - exists (mkBlock i xy []). split; [left; reflexivity | reflexivity].
  - inversion IH as [|k' kids' Hk _]; subst.
    destruct Hk as [leaf [Hin Hleaf]].
    exists leaf. split; [|exact Hleaf].
    right. rewrite descendantBlocks_unfold. cbn [getChildren flat_map].
    apply in_or_app. left. exact Hin.
Qed.

Lemma getAllBlocks_descendants (w : WorkspaceSvg) (b d : Block) :
  In b (getAllBlocks w) -> In d (descendantBlocks b) -> In d (getAllBlocks w).
Proof.
  unfold getAllBlocks. rewrite !in_flat_map.
  intros [top [Htop Hb]] Hd. exists top. split; [exact Htop|].
  right. destruct Hb as [Heq|Hdeep].
  - subst b. exact Hd.
  - apply descendantBlocks_trans with (c := b); assumption.
Qed.

(** X15.  [render] skips the blocks that have children, yet no block is left
    out: every block of the workspace is rendered itself or has a descendant
    that is, so the rendering of leaves can reach it from below.  In particular
    a workspace with a block gets at least one call. *)
Theorem render_covers_every_block :
  forall (w : WorkspaceSvg) (b : Block),
    In b (getAllBlocks w) ->
    (exists leaf : Block,
        (leaf = b \/ descendantOf b leaf)
        /\ In (Block_render leaf) (render w))
    /\ render w <> [].
Proof.
  intros w b Hin.
  assert (Hleaf : exists leaf : Block,
             (leaf = b \/ descendantOf b leaf) /\ In (Block_render leaf) (render w)).
  { destruct (block_has_leaf b) as [leaf [Hwhere Hnone]].
    exists leaf. split.
    - destruct Hwhere as [Heq|Hdeep];
        [left; symmetry; exact Heq
        | right; apply descendantBlocks_sound; exact Hdeep].
    - unfold render. rewrite render_loop_leaves. apply in_map.
      apply filter_In. split; [|apply isLeaf_no_children; exact Hnone].
      destruct Hwhere as [Heq|Hdeep].
      + subst leaf. exact Hin.
      + apply getAllBlocks_descendants with (b := b); assumption. }
  split; [exact Hleaf|].
  destruct Hleaf as [leaf [_ Hrendered]].
  intros Hempty. rewrite Hempty in Hrendered. destruct Hrendered.
Qed.

Lemma render_covers_every_block_witness :
  exists leaf : Block,
    (leaf = Sample.blockA \/ descendantOf Sample.blockA leaf)
    /\ In (Block_render leaf) (render Sample.withStack).
Proof.
  apply (proj1 (render_covers_every_block Sample.withStack Sample.blockA
                  (or_introl eq_refl))).
Defined.

(* ------------------------------------------------------------------ *)
(** ** Trace mode *)

Lemma Wrapper_eqb_refl (wrapper : Wrapper) : Wrapper_eqb wrapper wrapper = true.
Proof.
  unfold Wrapper_eqb. rewrite String.eqb_refl.
  destruct (wrapperNode wrapper); [rewrite Nat.eqb_refl|]; reflexivity.
Qed.

Lemma listenersAfter_app (bound : list Wrapper) (calls calls' : list TraceCall) :
  listenersAfter bound (calls ++ calls')
  = listenersAfter (listenersAfter bound calls) calls'.
Proof. unfold listenersAfter. apply fold_left_app. Qed.

Lemma traceOn_listeners (armed : bool) (t : Traced) (bound : list Wrapper) :
  listenersHeld t bound ->
  listenersHeld (fst (traceOn armed t)) (listenersAfter bound (snd (traceOn armed t))).
Proof.
  unfold listenersHeld, traceOn. intros Hheld. subst bound.
  destruct (traceWrapper_ t) as [wrapper|]; destruct armed;
    cbn [fst snd traceWrapper_ app listenersAfter fold_left afterCall unbind];
    rewrite ?Wrapper_eqb_refl; reflexivity.
Qed.

Lemma traceOn_off (t : Traced) :
  traceOn_ (fst (traceOn false t)) = false
  /\ traceWrapper_ (fst (traceOn false t)) = None
  /\ workspace (fst (traceOn false t)) = workspace t.
Proof. repeat split. Qed.

Lemma highlightBlock_off (getBlockById : WorkspaceSvg -> string -> option Block)
  (dragMode_ : Z) (selected : option Block) (id : option string) (t : Traced) :
  traceOn_ t = false ->
  highlightBlock getBlockById dragMode_ selected id t = (t, []).
Proof.
  intros Hoff. unfold highlightBlock. rewrite Hoff. cbn [andb negb].
  rewrite Hoff. reflexivity.
Qed.

Lemma highlightBlock_dragging (getBlockById : WorkspaceSvg -> string -> option Block)
  (dragMode_ : Z) (selected : option Block) (id : option string) (t : Traced) :
  traceOn_ t = true ->
  dragMode_ <> 0 ->
  highlightBlock getBlockById dragMode_ selected id t = traceOn false t.
Proof.
  intros Hon Hdrag. unfold highlightBlock. rewrite Hon.
  destruct (Z.eqb_spec dragMode_ 0) as [Hzero|_]; [contradiction|].
  cbn [andb negb]. reflexivity.
Qed.

Lemma highlightBlock_still (getBlockById : WorkspaceSvg -> string -> option Block)
  (selected : option Block) (id : option string) (t : Traced) :
  traceOn_ t = true ->
  highlightBlock getBlockById 0 selected id t
  = let block :=
      match id with
      | Some s => if truthy s then getBlockById (workspace t) s else None
      | None => None
      end in
    match idGiven id, block with
    | true, None => (t, [])
    | _, _ =>
        (fst (traceOn false t),
         snd (traceOn false t)
         ++ match block with
            | Some b => [Highlight_select b]
            | None =>
                match selected with
                | Some s => [Selected_unselect s]
                | None => []
                end
            end
         ++ [SetTimeout_traceOn true 1])
    end.
Proof.
  intros Hon. unfold highlightBlock. rewrite Hon. cbn [andb negb Z.eqb].
  rewrite Hon. cbn [negb]. cbv zeta.
  destruct (idGiven id);
    destruct (match id with
              | Some s => if truthy s then getBlockById (workspace t) s else None
              | None => None
              end); reflexivity.
Qed.

(** X16.  The listener of trace mode is never leaked and never doubled: if
    the selection listeners bound for the workspace are exactly the one it
    holds a wrapper for (none when it holds none), the same is true after
    [traceOn], after [highlightBlock], after the listener has run and after the
    timer of [highlightBlock] has fired; so at most one is ever bound. *)
Theorem trace_listener_invariant :
  forall (t : Traced) (bound : list Wrapper),
    listenersHeld t bound ->
    (forall armed : bool,
        listenersHeld (fst (traceOn armed t))
          (listenersAfter bound (snd (traceOn armed t))))
    /\ (forall (getBlockById : WorkspaceSvg -> string -> option Block)
               (dragMode_ : Z) (selected : option Block) (id : option string),
           listenersHeld (fst (highlightBlock getBlockById dragMode_ selected id t))
             (listenersAfter bound
                (snd (highlightBlock getBlockById dragMode_ selected id t))))
    /\ listenersHeld (onSelectChange t) bound
    /\ listenersHeld (fst (onTimeout t)) (listenersAfter bound (snd (onTimeout t)))
    /\ (List.length bound <= 1)%nat.
Proof.
  intros t bound Hheld. split; [|split; [|split; [|split]]].
  - intros armed. apply traceOn_listeners; exact Hheld.
  - intros getBlockById dragMode_ selected id.
    destruct (traceOn_ t) eqn:Hon.
    + destruct (Z.eq_dec dragMode_ 0) as [Hzero|Hdrag].
      * subst dragMode_. rewrite highlightBlock_still by exact Hon. cbv zeta.
        destruct (idGiven id);
          destruct (match id with
                    | Some s => if truthy s then getBlockById (workspace t) s else None
                    | None => None
                    end) as [b|];
          cbn [fst snd]; try exact Hheld;
          rewrite !listenersAfter_app;
          pose proof (traceOn_listeners false t bound Hheld) as Hoff;
          unfold listenersHeld in *; rewrite Hoff;
          destruct selected; reflexivity.
      * rewrite highlightBlock_dragging by assumption.
        apply traceOn_listeners; exact Hheld.
    + rewrite highlightBlock_off by exact Hon. exact Hheld.
  - exact Hheld.
  - apply traceOn_listeners; exact Hheld.
  - unfold listenersHeld in Hheld. subst bound.
    destruct (traceWrapper_ t); cbn [List.length]; lia.
Qed.

Lemma trace_listener_invariant_witness :
  listenersHeld
    (fst (highlightBlock SampleTrace.getBlockById 0 None (Some "one")
            SampleTrace.tracing))
    (listenersAfter [mkWrapper (Some 2%nat) "blocklySelectChange"]
       (snd (highlightBlock SampleTrace.getBlockById 0 None (Some "one")
               SampleTrace.tracing))).
Proof.
  exact (proj1 (proj2 (trace_listener_invariant SampleTrace.tracing
                         [mkWrapper (Some 2%nat) "blocklySelectChange"] eq_refl))
           SampleTrace.getBlockById 0 None (Some "one")).
Defined.

(** X17.  [highlightBlock] leaves everything as it is, making no call, when
    trace mode is off, in particular once the user's own selection has run the
    listener, and when, outside a drag, it is given an id that no block of the
    workspace has: trace mode then stays on, with its listener bound. *)
Theorem highlightBlock_quiet :
  forall (getBlockById : WorkspaceSvg -> string -> option Block)
         (dragMode_ : Z) (selected : option Block) (id : option string) (t : Traced),
    (traceOn_ t = false ->
     highlightBlock getBlockById dragMode_ selected id t = (t, []))
    /\ highlightBlock getBlockById dragMode_ selected id (onSelectChange t)
       = (onSelectChange t, [])
    /\ (forall s : string,
           traceOn_ t = true ->
           truthy s = true ->
           getBlockById (workspace t) s = None ->
           highlightBlock getBlockById 0 selected (Some s) t = (t, [])).
Proof.
  intros getBlockById dragMode_ selected id t. split; [|split].
  - apply highlightBlock_off.
  - apply highlightBlock_off. reflexivity.
  - intros s Hon Hs Hmissing.
    rewrite highlightBlock_still by exact Hon. cbv zeta.
    cbn [idGiven]. rewrite Hs, Hmissing. reflexivity.
Qed.

Lemma highlightBlock_quiet_witness :
  highlightBlock SampleTrace.getBlockById 0 None (Some "one") SampleTrace.idle
  = (SampleTrace.idle, [])
  /\ highlightBlock SampleTrace.getBlockById 0 None (Some "three") SampleTrace.tracing
     = (SampleTrace.tracing, []).
Proof.
  split.
  - exact (proj1 (highlightBlock_quiet SampleTrace.getBlockById 0 None (Some "one")
                    SampleTrace.idle) eq_refl).
  - exact (proj2 (proj2 (highlightBlock_quiet SampleTrace.getBlockById 0 None None
                           SampleTrace.tracing))
             "three" eq_refl eq_refl eq_refl).
Defined.

(** X18.  A highlight requested during a drag turns trace mode off: the flag
    is cleared and the listener unbound, nothing is selected or deselected and
    no timer is set, whatever the id.  On the state this leaves,
    [highlightBlock] does nothing, whatever its arguments.  But no timer is
    cancelled either: when a timer set by an earlier highlight is still pending,
    its firing turns trace mode on again, with a new listener on the block
    canvas, and a highlight outside a drag then selects again. *)
Theorem highlightBlock_during_drag :
  forall (getBlockById : WorkspaceSvg -> string -> option Block)
         (dragMode_ : Z) (selected : option Block) (id : option string) (t : Traced),
    traceOn_ t = true ->
    dragMode_ <> 0 ->
    let after := fst (highlightBlock getBlockById dragMode_ selected id t) in
    let canvas := svgBlockCanvas_ (workspace t) in
    let rearmed :=
      mkTraced (workspace t) true (Some (mkWrapper canvas "blocklySelectChange")) in
    highlightBlock getBlockById dragMode_ selected id t
    = (mkTraced (workspace t) false None,
       match traceWrapper_ t with
       | Some wrapper => [Blockly_unbindEvent_ wrapper]
       | None => []
       end)
    /\ (forall (dragMode' : Z) (selected' : option Block) (id' : option string),
           highlightBlock getBlockById dragMode' selected' id' after = (after, []))
    /\ onTimeout after = (rearmed, [Blockly_bindEvent_ canvas "blocklySelectChange"])
    /\ (forall (s : string) (b : Block),
           truthy s = true ->
           getBlockById (workspace t) s = Some b ->
           highlightBlock getBlockById 0 selected (Some s) (fst (onTimeout after))
           = (mkTraced (workspace t) false None,
              [Blockly_unbindEvent_ (mkWrapper canvas "blocklySelectChange");
               Highlight_select b; SetTimeout_traceOn true 1])).
Proof.
  intros getBlockById dragMode_ selected id t Hon Hdrag after canvas rearmed.
  assert (Hrun : highlightBlock getBlockById dragMode_ selected id t = traceOn false t)
    by (apply highlightBlock_dragging; assumption).
  assert (Hafter : after = mkTraced (workspace t) false None)
    by (unfold after; rewrite Hrun; reflexivity).
  split; [|split; [|split]].
  - rewrite Hrun. reflexivity.
  - intros dragMode' selected' id'. apply highlightBlock_off.
    rewrite Hafter. reflexivity.
  - rewrite Hafter. reflexivity.
  - intros s b Hs Hfound. rewrite Hafter.
    change (fst (onTimeout (mkTraced (workspace t) false None))) with rearmed.
    rewrite highlightBlock_still by reflexivity. cbv zeta.
    cbn [idGiven]. rewrite Hs.
    change (workspace rearmed) with (workspace t). rewrite Hfound. reflexivity.
Qed.

Lemma highlightBlock_during_drag_witness :
  highlightBlock SampleTrace.getBlockById 2 None (Some "one") SampleTrace.tracing
  = (SampleTrace.idle,
     [Blockly_unbindEvent_ (mkWrapper (Some 2%nat) "blocklySelectChange")])
  /\ onTimeout SampleTrace.idle
     = (SampleTrace.tracing, [Blockly_bindEvent_ (Some 2%nat) "blocklySelectChange"])
  /\ highlightBlock SampleTrace.getBlockById 0 None (Some "one")
       (fst (onTimeout SampleTrace.idle))
     = (SampleTrace.idle,
        [Blockly_unbindEvent_ (mkWrapper (Some 2%nat) "blocklySelectChange");
         Highlight_select Sample.existing; SetTimeout_traceOn true 1]).
Proof.
  assert (Hdrag : 2 <> 0) by discriminate.
  pose proof (highlightBlock_during_drag SampleTrace.getBlockById 2 None (Some "one")
                SampleTrace.tracing eq_refl Hdrag) as [Hoff [_ [Htimer Hagain]]].
  split; [exact Hoff|]. split; [exact Htimer|].
  exact (Hagain "one" Sample.existing eq_refl eq_refl).
Defined.

(** X19.  In trace mode and outside a drag, highlighting a block the
    workspace has unbinds the listener first, then selects the block, then sets
    a timer of 1 ms; with no id it deselects the current selection instead, if
    there is one.  Until the timer fires the flag is off and no wrapper is held,
    so the selection made here cannot end trace mode; when it fires, trace mode
    is on again with a listener on the block canvas. *)
Theorem highlightBlock_rearms :
  forall (getBlockById : WorkspaceSvg -> string -> option Block)
         (selected : option Block) (t : Traced),
    traceOn_ t = true ->
    let unbinding :=
      match traceWrapper_ t with
      | Some wrapper => [Blockly_unbindEvent_ wrapper]
      | None => []
      end in
    let paused := mkTraced (workspace t) false None in
    let canvas := svgBlockCanvas_ (workspace t) in
    (forall (s : string) (b : Block),
        truthy s = true ->
        getBlockById (workspace t) s = Some b ->
        highlightBlock getBlockById 0 selected (Some s) t
        = (paused, unbinding ++ [Highlight_select b; SetTimeout_traceOn true 1]))
    /\ highlightBlock getBlockById 0 selected None t
       = (paused,
          unbinding
          ++ match selected with
             | Some s => [Selected_unselect s]
             | None => []
             end
          ++ [SetTimeout_traceOn true 1])
    /\ onTimeout paused
       = (mkTraced (workspace t) true (Some (mkWrapper canvas "blocklySelectChange")),
          [Blockly_bindEvent_ canvas "blocklySelectChange"]).
Proof.
  intros getBlockById selected t Hon unbinding paused canvas. split; [|split].
  - intros s b Hs Hfound. rewrite highlightBlock_still by exact Hon. cbv zeta.
    cbn [idGiven]. rewrite Hs, Hfound. reflexivity.
  - rewrite highlightBlock_still by exact Hon. reflexivity.
  - reflexivity.
Qed.

Lemma highlightBlock_rearms_witness :
  highlightBlock SampleTrace.getBlockById 0 (Some Sample.pasted) (Some "one")
    SampleTrace.tracing
  = (SampleTrace.idle,
     [Blockly_unbindEvent_ (mkWrapper (Some 2%nat) "blocklySelectChange");
      Highlight_select Sample.existing; SetTimeout_traceOn true 1])
  /\ highlightBlock SampleTrace.getBlockById 0 (Some Sample.pasted) None
       SampleTrace.tracing
     = (SampleTrace.idle,
        [Blockly_unbindEvent_ (mkWrapper (Some 2%nat) "blocklySelectChange");
         Selected_unselect Sample.pasted; SetTimeout_traceOn true 1]).
Proof.
  split.
  - exact (proj1 (highlightBlock_rearms SampleTrace.getBlockById (Some Sample.pasted)
                    SampleTrace.tracing eq_refl)
             "one" Sample.existing eq_refl eq_refl).
  - exact (proj1 (proj2 (highlightBlock_rearms SampleTrace.getBlockById
                           (Some Sample.pasted) SampleTrace.tracing eq_refl))).
Defined.

(* ------------------------------------------------------------------ *)
(** ** Building the surface *)

Ltac decide_eqb :=
  repeat match goal with
    | |- context [(?a =? ?b)%nat] =>
        first [ replace (a =? b)%nat with true by (symmetry; apply Nat.eqb_eq; lia)
              | replace (a =? b)%nat with false by (symmetry; apply Nat.eqb_neq; lia) ]
    end.

(** What [createDom] builds on a workspace that has no component yet, in a
    document where the next node has no children. *)
Lemma createDom_built (trashRect flyRect boxRect : Rect.t)
  (opt_backgroundClass : option string) (s : Surface) (d : Document) :
  unbuilt s ->
  childrenOf d (fresh d) = [] ->
  exists (group blockCanvas bubbleCanvas : nat) (s' : Surface) (d' : Document)
         (calls : list DomCall),
    createDom trashRect flyRect boxRect opt_backgroundClass s d
    = Some (Some group, s', d', calls)
    /\ svgGroup_ (this s') = Some group
    /\ svgBlockCanvas_ (this s') = Some blockCanvas
    /\ svgBubbleCanvas_ (this s') = Some bubbleCanvas
    /\ childrenOf d' group = layers s'
    /\ NoDup (group :: layers s')
    /\ Forall (fun n => (fresh d <= n < fresh d')%nat) (group :: layers s')
    /\ option_map trashcanRect (trashcan (this s'))
       = (if hasTrashcan (options s) then Some trashRect else None)
    /\ option_map toolboxRect (toolbox_ (this s'))
       = (if hasCategories (options s) then Some boxRect else None)
    /\ option_map flyoutRect (flyout_ (this s'))
       = (if hasCategories (options s) then None
          else if languageTree (options s) then Some flyRect else None)
    /\ rendered (this s') = rendered (this s)
    /\ deleteAreaTrash_ (this s') = deleteAreaTrash_ (this s)
    /\ deleteAreaToolbox_ (this s') = deleteAreaToolbox_ (this s).
Proof.
  intros [Hbg [Htc [Hfl Htb]]] Hkids.
  destruct s as [[pw rt tb rd g bc uc f x tc dt dx sn] [ht hc lt] bgf].
  cbn in Hbg, Htc, Hfl, Htb. subst bgf tc f x.
  destruct d as [n tr]. unfold childrenOf in Hkids. cbn in Hkids.
  assert (Hclass : opt_backgroundClass = None
                   \/ (exists c, opt_backgroundClass = Some c /\ truthy c = false)
                   \/ (exists c, opt_backgroundClass = Some c /\ truthy c = true)).
  { destruct opt_backgroundClass as [c|]; [|left; reflexivity].
    right. destruct (truthy c) eqn:Hc; [right|left]; exists c; split; auto. }
  destruct Hclass as [Hb | [[c [Hb Hc]] | [c [Hb Hc]]]]; subst opt_backgroundClass;
    destruct ht, hc, lt;
    unfold createDom, addTrashcan_, addFlyout_, createSvgElement, newNode,
      insertBefore, appendChild, setChildren, childrenOf;
    repeat (progress (cbn -[Nat.eqb]; rewrite ?Hc, ?Hkids; decide_eqb)).
  all: do 6 eexists.
  all: (split; [reflexivity|]).
  all: cbn -[Nat.eqb]; decide_eqb.
  all: repeat (split; [reflexivity|]).
  all: split; [repeat constructor; cbn; intuition lia|].
  all: split; [repeat constructor; lia|].
  all: repeat split.
Qed.

Lemma suffix_cons {A : Type} (a : A) (l tail : list A) :
  (exists before : list A, l = before ++ tail) ->
  exists before : list A, a :: l = before ++ tail.
Proof. intros [before Heq]. exists (a :: before). rewrite Heq. reflexivity. Qed.

Lemma suffix_app {A : Type} (front l tail : list A) :
  (exists before : list A, l = before ++ tail) ->
  exists before : list A, front ++ l = before ++ tail.
Proof.
  intros [before Heq]. exists (front ++ before). rewrite Heq. apply app_assoc.
Qed.

(** The change notification is the last thing [createDom] does. *)
Lemma createDom_fires_last (trashRect flyRect boxRect : Rect.t)
  (opt_backgroundClass : option string) (s s' : Surface) (d d' : Document)
  (group : option nat) (calls : list DomCall) :
  createDom trashRect flyRect boxRect opt_backgroundClass s d
  = Some (group, s', d', calls) ->
  exists before : list DomCall,
    calls = before ++ map Workspace_call (fireChangeEvent (this s')).
Proof.
  unfold createDom, createSvgElement, newNode. intros Hrun.
  destruct opt_backgroundClass as [class|]; [destruct (truthy class)|];
    cbv beta iota zeta in Hrun;
    (destruct (hasTrashcan _) in Hrun;
     [match type of Hrun with
      | context [addTrashcan_ ?r ?a ?b] =>
          destruct (addTrashcan_ r a b) as [[[s5 d5] c5]|]; [|discriminate]
      end|]);
    (destruct (hasCategories _) in Hrun;
     [|destruct (languageTree _) in Hrun;
       [match type of Hrun with
        | context [addFlyout_ ?r ?a ?b] =>
            destruct (addFlyout_ r a b) as [[[s6 d6] c6]|]; [|discriminate]
        end|]]);
    inversion Hrun; subst;
    repeat (apply suffix_cons || apply suffix_app);
    exists []; reflexivity.
Qed.

(** The nodes [createDom] makes, by their numbers in the document, and the
    calls it makes. *)
Lemma createDom_nodes (trashRect flyRect boxRect : Rect.t)
  (opt_backgroundClass : option string) (s : Surface) (d : Document) :
  unbuilt s ->
  childrenOf d (fresh d) = [] ->
  let group := fresh d in
  let given := backgroundGiven opt_backgroundClass in
  let background := S group in
  let blockCanvas := (if given then S (S group) else S group) in
  let bubbleCanvas := S blockCanvas in
  let svgTrashcan := S bubbleCanvas in
  let svgFlyout := (if hasTrashcan (options s) then S svgTrashcan else svgTrashcan) in
  exists (s' : Surface) (d' : Document) (calls : list DomCall),
    createDom trashRect flyRect boxRect opt_backgroundClass s d
    = Some (Some group, s', d', calls)
    /\ svgBlockCanvas_ (this s') = Some blockCanvas
    /\ svgBubbleCanvas_ (this s') = Some bubbleCanvas
    /\ svgBackground_ s' = (if given then Some background else None)
    /\ option_map trashcanNode (trashcan (this s'))
       = (if hasTrashcan (options s) then Some svgTrashcan else None)
    /\ option_map flyoutNode (flyout_ (this s'))
       = (if hasCategories (options s) then None
          else if languageTree (options s) then Some svgFlyout else None)
    /\ (forall class : string,
           opt_backgroundClass = Some class ->
           truthy class = true ->
           In (Blockly_createSvgElement "rect"
                 [("height", "100%"); ("width", "100%"); ("class", class)]
                 (Some group) background) calls)
    /\ (given = false ->
        forall (attrs : list (string * string)) (parent : option nat) (node : nat),
          ~ In (Blockly_createSvgElement "rect" attrs parent node) calls)
    /\ calls
       = filter (fun c => negb (isNotification c)) calls
         ++ (if rendered (this s)
             then [Workspace_call (FireUiEvent blockCanvas "blocklyWorkspaceChange")]
             else []).
Proof.
  intros [Hbg [Htc [Hfl Htb]]] Hkids.
  destruct s as [[pw rt tb rd g bc uc f x tc dt dx sn] [ht hc lt] bgf].
  cbn in Hbg, Htc, Hfl, Htb. subst bgf tc f x.
  destruct d as [n tr]. unfold childrenOf in Hkids. cbn in Hkids.
  assert (Hclass : opt_backgroundClass = None
                   \/ (exists c, opt_backgroundClass = Some c /\ truthy c = false)
                   \/ (exists c, opt_backgroundClass = Some c /\ truthy c = true)).
  { destruct opt_backgroundClass as [c|]; [|left; reflexivity].
    right. destruct (truthy c) eqn:Hc; [right|left]; exists c; split; auto. }
  destruct Hclass as [Hb | [[c [Hb Hc]] | [c [Hb Hc]]]]; subst opt_backgroundClass;
    destruct ht, hc, lt, rd;
    unfold createDom, addTrashcan_, addFlyout_, createSvgElement, newNode,
      insertBefore, appendChild, setChildren, childrenOf, backgroundGiven,
      fireChangeEvent;
    repeat (progress (cbn -[Nat.eqb]; rewrite ?Hc, ?Hkids; decide_eqb)).
  all: do 3 eexists.
  all: (split; [reflexivity|]).
  all: cbn -[Nat.eqb]; rewrite ?Hc.
  all: do 5 (split; [reflexivity|]).
  all: split;
    [intros class Hgiven Htruthy;
     first [discriminate Hgiven
           | inversion Hgiven; subst class;
             first [congruence | right; left; reflexivity]]|].
  all: split;
    [intros Hnone attrs parent node Hin;
     first [discriminate Hnone | cbn in Hin; intuition discriminate]|].
  all: reflexivity.
Qed.

(** X20.  On a workspace without components, [createDom] cannot fail and
    returns the group it has made.  The background is made exactly when a
    background class is given, as a [rect] with that class, appended to the
    group and kept in [svgBackground_]; without a class no [rect] is made and
    the field stays as it was.  The children of the group are then, in this
    order from back to front: the background when a class is given, the
    trashcan's node when the options ask for a trashcan, the flyout's node when
    they ask for a flat palette, the block canvas and the bubble canvas, that
    is the structure drawn in the comment at the head of [createDom].  All
    these nodes are new and distinct. *)
Theorem createDom_layers :
  forall (trashRect flyRect boxRect : Rect.t) (opt_backgroundClass : option string)
         (s : Surface) (d : Document),
    unbuilt s ->
    childrenOf d (fresh d) = [] ->
    exists (group background svgTrashcan svgFlyout blockCanvas bubbleCanvas : nat)
           (s' : Surface) (d' : Document) (calls : list DomCall),
      createDom trashRect flyRect boxRect opt_backgroundClass s d
      = Some (Some group, s', d', calls)
      /\ svgGroup_ (this s') = Some group
      /\ svgBackground_ s'
         = (if backgroundGiven opt_backgroundClass then Some background else None)
      /\ (forall class : string,
             opt_backgroundClass = Some class ->
             truthy class = true ->
             In (Blockly_createSvgElement "rect"
                   [("height", "100%"); ("width", "100%"); ("class", class)]
                   (Some group) background) calls)
      /\ (backgroundGiven opt_backgroundClass = false ->
          forall (attrs : list (string * string)) (parent : option nat) (node : nat),
            ~ In (Blockly_createSvgElement "rect" attrs parent node) calls)
      /\ option_map trashcanNode (trashcan (this s'))
         = (if hasTrashcan (options s) then Some svgTrashcan else None)
      /\ option_map flyoutNode (flyout_ (this s'))
         = (if hasCategories (options s) then None
            else if languageTree (options s) then Some svgFlyout else None)
      /\ getCanvas (this s') = Some blockCanvas
      /\ getBubbleCanvas (this s') = Some bubbleCanvas
      /\ childrenOf d' group
         = (if backgroundGiven opt_backgroundClass then [background] else [])
           ++ (if hasTrashcan (options s) then [svgTrashcan] else [])
           ++ (if hasCategories (options s) then []
               else if languageTree (options s) then [svgFlyout] else [])
           ++ [blockCanvas; bubbleCanvas]
      /\ childrenOf d' group = layers s'
      /\ NoDup (group :: layers s')
      /\ Forall (fun n => (fresh d <= n < fresh d')%nat) (group :: layers s').
Proof.
  intros trashRect flyRect boxRect opt_backgroundClass s d Hnew Hfresh.
  destruct (createDom_built trashRect flyRect boxRect opt_backgroundClass s d
              Hnew Hfresh)
    as [group [bc [uc [s' [d' [calls
         [Hrun [Hgroup [Hbc [Huc [Hkids [Hnd [Hnodes _]]]]]]]]]]]]].
  destruct (createDom_nodes trashRect flyRect boxRect opt_backgroundClass s d
              Hnew Hfresh)
    as [s2 [d2 [calls2 [Hrun2 [Hbc2 [Huc2 [Hback [Htrash [Hfly [Hrect [Hnorect _]]]]]]]]]]].
  rewrite Hrun in Hrun2. inversion Hrun2. subst group s2 d2 calls2. clear Hrun2.
  rewrite Hbc in Hbc2. rewrite Huc in Huc2.
  exists (fresh d), (S (fresh d)).
  exists (S (S (if backgroundGiven opt_backgroundClass
                then S (S (fresh d)) else S (fresh d)))).
  exists (if hasTrashcan (options s)
          then S (S (S (if backgroundGiven opt_backgroundClass
                        then S (S (fresh d)) else S (fresh d))))
          else S (S (if backgroundGiven opt_backgroundClass
                     then S (S (fresh d)) else S (fresh d)))).
  exists bc, uc, s', d', calls.
  split; [exact Hrun|]. split; [exact Hgroup|]. split; [exact Hback|].
  split; [exact Hrect|]. split; [exact Hnorect|].
  split; [exact Htrash|]. split; [exact Hfly|].
  split; [exact Hbc|]. split; [exact Huc|].
  split; [|split; [exact Hkids|split; assumption]].
  rewrite Hkids. unfold layers. rewrite Hback, Hbc, Huc.
  assert (Ht : match trashcan (this s') with
               | Some t => [trashcanNode t]
               | None => []
               end
               = if hasTrashcan (options s)
                 then [S (S (if backgroundGiven opt_backgroundClass
                             then S (S (fresh d)) else S (fresh d)))]
                 else []).
  { destruct (trashcan (this s')), (hasTrashcan (options s));
      cbn [option_map] in Htrash; try discriminate;
      [inversion Htrash; reflexivity | reflexivity]. }
  assert (Hf : match flyout_ (this s') with
               | Some f => [flyoutNode f]
               | None => []
               end
               = if hasCategories (options s) then []
                 else if languageTree (options s)
                      then [if hasTrashcan (options s)
                            then S (S (S (if backgroundGiven opt_backgroundClass
                                          then S (S (fresh d)) else S (fresh d))))
                            else S (S (if backgroundGiven opt_backgroundClass
                                       then S (S (fresh d)) else S (fresh d)))]
                      else []).
  { destruct (flyout_ (this s')), (hasCategories (options s)),
      (languageTree (options s));
      cbn [option_map] in Hfly; try discriminate;
      try reflexivity; inversion Hfly; reflexivity. }
  rewrite Ht, Hf.
  destruct (backgroundGiven opt_backgroundClass); reflexivity.
Qed.

Lemma createDom_layers_witness :
  exists (s' : Surface) (d' : Document) (calls : list DomCall),
    createDom SampleDom.binRect SampleDom.trayRect SampleDom.boxRect
      (Some "blocklyMainBackground") SampleDom.surface SampleDom.document
    = Some (Some 5%nat, s', d', calls)
    /\ svgBackground_ s' = Some 6%nat
    /\ In (Blockly_createSvgElement "rect"
             [("height", "100%"); ("width", "100%"); ("class", "blocklyMainBackground")]
             (Some 5%nat) 6%nat) calls
    /\ childrenOf d' 5%nat = [6; 9; 10; 7; 8]%nat.
Proof.
  assert (Hnew : unbuilt SampleDom.surface) by (repeat split).
  destruct (createDom_layers SampleDom.binRect SampleDom.trayRect SampleDom.boxRect
              (Some "blocklyMainBackground") SampleDom.surface SampleDom.document
              Hnew eq_refl)
    as [group [background [svgTrashcan [svgFlyout [blockCanvas [bubbleCanvas
         [s' [d' [calls
           [Hrun [Hgroup [Hback [Hrect [_ [_ [_ [_ [_ [_ [Hkids _]]]]]]]]]]]]]]]]]]]].
  assert (Hvalues : group = 5%nat /\ background = 6%nat
                    /\ childrenOf d' 5%nat = [6; 9; 10; 7; 8]%nat).
  { pose proof Hrun as Hcomputed. vm_compute in Hcomputed.
    inversion Hcomputed as [[Hg Hs Hd Hc]].
    rewrite <- Hs in Hback. cbn in Hback. inversion Hback.
    repeat split. }
  destruct Hvalues as [Hg [Hb Hkids']]. subst group background.
  exists s', d', calls.
  split; [exact Hrun|]. split; [exact Hback|]. split; [|exact Hkids'].
  exact (Hrect "blocklyMainBackground" eq_refl eq_refl).
Defined.

(** X21.  The options decide the components and, through them, the delete
    areas: after [createDom] on a workspace without components there is a
    trashcan exactly when [hasTrashcan] is set, a toolbox exactly when
    [hasCategories] is set, a flyout exactly when [hasCategories] is not set
    and there is a language tree, hence never a toolbox and a flyout together;
    and [recordDeleteAreas] then records the trashcan's rectangle and the
    rectangle of that one palette. *)
Theorem createDom_components :
  forall (trashRect flyRect boxRect : Rect.t) (opt_backgroundClass : option string)
         (s : Surface) (d : Document),
    unbuilt s ->
    childrenOf d (fresh d) = [] ->
    exists (group : option nat) (s' : Surface) (d' : Document) (calls : list DomCall),
      createDom trashRect flyRect boxRect opt_backgroundClass s d
      = Some (group, s', d', calls)
      /\ option_map trashcanRect (trashcan (this s'))
         = (if hasTrashcan (options s) then Some trashRect else None)
      /\ option_map toolboxRect (toolbox_ (this s'))
         = (if hasCategories (options s) then Some boxRect else None)
      /\ option_map flyoutRect (flyout_ (this s'))
         = (if hasCategories (options s) then None
            else if languageTree (options s) then Some flyRect else None)
      /\ (toolbox_ (this s') = None \/ flyout_ (this s') = None)
      /\ deleteAreaTrash_ (recordDeleteAreas (this s'))
         = (if hasTrashcan (options s) then Some trashRect else None)
      /\ deleteAreaToolbox_ (recordDeleteAreas (this s'))
         = (if hasCategories (options s) then Some boxRect
            else if languageTree (options s) then Some flyRect else None).
Proof.
  intros trashRect flyRect boxRect opt_backgroundClass s d Hnew Hfresh.
  destruct (createDom_built trashRect flyRect boxRect opt_backgroundClass s d
              Hnew Hfresh)
    as [group [bc [uc [s' [d' [calls
         [Hrun [_ [_ [_ [_ [_ [_ [Htc [Htb [Hfl _]]]]]]]]]]]]]]]].
  exists (Some group), s', d', calls.
  destruct (recordDeleteAreas_fields (this s')) as [_ [_ [_ [Htrash Hpalette]]]].
  split; [exact Hrun|]. split; [exact Htc|]. split; [exact Htb|].
  split; [exact Hfl|]. split; [|split].
  - destruct (hasCategories (options s)).
    + right. destruct (flyout_ (this s')); [discriminate | reflexivity].
    + left. destruct (toolbox_ (this s')); [discriminate | reflexivity].
  - rewrite Htrash. exact Htc.
  - rewrite Hpalette. unfold paletteRect.
    destruct (flyout_ (this s')) as [f|]; cbn [option_map] in Hfl.
    + destruct (hasCategories (options s)); [discriminate|].
      destruct (languageTree (options s)); [exact Hfl | discriminate].
    + rewrite Htb. destruct (hasCategories (options s)); [reflexivity|].
      destruct (languageTree (options s)); [discriminate | reflexivity].
Qed.

Lemma createDom_components_witness :
  exists (group : option nat) (s' : Surface) (d' : Document) (calls : list DomCall),
    createDom SampleDom.binRect SampleDom.trayRect SampleDom.boxRect None
      SampleDom.surface SampleDom.document
    = Some (group, s', d', calls)
    /\ deleteAreaTrash_ (recordDeleteAreas (this s')) = Some SampleDom.binRect
    /\ deleteAreaToolbox_ (recordDeleteAreas (this s')) = Some SampleDom.trayRect.
Proof.
  assert (Hnew : unbuilt SampleDom.surface) by (repeat split).
  destruct (createDom_components SampleDom.binRect SampleDom.trayRect SampleDom.boxRect
              None SampleDom.surface SampleDom.document Hnew eq_refl)
    as [group [s' [d' [calls [Hrun [_ [_ [_ [_ [Htrash Hpalette]]]]]]]]]].
  exists group, s', d', calls. repeat split; assumption.
Defined.

Lemma forallb_filter {A : Type} (f : A -> bool) (l : list A) :
  forallb f (filter f l) = true.
Proof.
  induction l as [|a l IH]; [reflexivity|].
  cbn [filter]. destruct (f a) eqn:Hfa; [|exact IH].
  cbn [forallb]. rewrite Hfa, IH. reflexivity.
Qed.

(** X22.  From [createDom] to [dispose]: once built, the workspace hands out
    its two layers, and [translate] puts one and the same transform
    [translate(x,y)] on both of them, [x] and [y] being integers that the
    source prints in full, as it does below 2^53.  [createDom] notifies of a change exactly
    when the workspace is rendered: its calls are calls that are no
    notification, followed, on a rendered workspace, by the one notification on
    the new block canvas, and by nothing otherwise.  After [dispose] the group
    that [createDom] returned has been removed, the layers are null and
    [translate] fails with a TypeError. *)
Theorem surface_lifecycle :
  forall (trashRect flyRect boxRect : Rect.t) (opt_backgroundClass : option string)
         (s : Surface) (d : Document) (x y : Z),
    unbuilt s ->
    childrenOf d (fresh d) = [] ->
    exists (group blockCanvas bubbleCanvas : nat) (s' : Surface) (d' : Document)
           (calls before : list DomCall),
      createDom trashRect flyRect boxRect opt_backgroundClass s d
      = Some (Some group, s', d', calls)
      /\ getCanvas (this s') = Some blockCanvas
      /\ getBubbleCanvas (this s') = Some bubbleCanvas
      /\ blockCanvas <> bubbleCanvas
      /\ forallb (fun c => negb (isNotification c)) before = true
      /\ calls
         = before
           ++ (if rendered (this s)
               then [Workspace_call (FireUiEvent blockCanvas "blocklyWorkspaceChange")]
               else [])
      /\ (inExactRange x ->
          inExactRange y ->
          translate x y (this s')
          = Some [Node_setAttribute blockCanvas "transform" (translation x y);
                  Node_setAttribute bubbleCanvas "transform" (translation x y)])
      /\ In (Dom_removeNode group) (snd (dispose (this s')))
      /\ getCanvas (fst (dispose (this s'))) = None
      /\ getBubbleCanvas (fst (dispose (this s'))) = None
      /\ translate x y (fst (dispose (this s'))) = None.
Proof.
  intros trashRect flyRect boxRect opt_backgroundClass s d x y Hnew Hfresh.
  destruct (createDom_built trashRect flyRect boxRect opt_backgroundClass s d
              Hnew Hfresh)
    as [group [bc [uc [s' [d' [calls
         [Hrun [Hgroup [Hbc [Huc [Hkids [Hnd _]]]]]]]]]]]].
  destruct (createDom_nodes trashRect flyRect boxRect opt_backgroundClass s d
              Hnew Hfresh)
    as [s2 [d2 [calls2 [Hrun2 [Hbc2 [_ [_ [_ [_ [_ [_ Hcalls]]]]]]]]]]].
  rewrite Hrun in Hrun2. inversion Hrun2. subst group s2 d2 calls2. clear Hrun2.
  rewrite Hbc in Hbc2. inversion Hbc2 as [Hsame]. rewrite <- Hsame in Hcalls.
  exists (fresh d), bc, uc, s', d', calls.
  exists (filter (fun c => negb (isNotification c)) calls).
  split; [exact Hrun|]. split; [exact Hbc|]. split; [exact Huc|].
  split; [|split; [|split; [|split; [|split]]]].
  - intros Heq. subst uc.
    assert (Hin : exists back, layers s' = back ++ [bc; bc]).
    { unfold layers. rewrite Hbc, Huc.
      eexists. rewrite !app_assoc. rewrite <- app_assoc. reflexivity. }
    destruct Hin as [back Hlayers]. rewrite Hlayers in Hnd.
    apply NoDup_cons_iff in Hnd. destruct Hnd as [_ Hnd].
    apply NoDup_remove_2 in Hnd. apply Hnd.
    apply in_or_app. right. left. reflexivity.
  - apply forallb_filter.
  - exact Hcalls.
  - intros _ _. unfold translate, translation. rewrite Hbc, Huc. reflexivity.
  - destruct (this s') as [pw rt tb rd g bc' uc' f b t dt dx sn].
    cbn in Hgroup. inversion Hgroup. subst g.
    destruct f, t; right; left; reflexivity.
  - destruct (this s') as [pw rt tb rd g bc' uc' f b t dt dx sn].
    cbn in Hgroup. inversion Hgroup. subst g.
    repeat split; destruct f, t; reflexivity.
Qed.

Lemma surface_lifecycle_witness :
  exists (group blockCanvas bubbleCanvas : nat) (s' : Surface) (d' : Document)
         (calls before : list DomCall),
    createDom SampleDom.binRect SampleDom.trayRect SampleDom.boxRect None
      SampleDom.surface SampleDom.document
    = Some (Some group, s', d', calls)
    /\ getCanvas (this s') = Some blockCanvas
    /\ getBubbleCanvas (this s') = Some bubbleCanvas
    /\ forallb (fun c => negb (isNotification c)) before = true
    /\ calls
       = before ++ [Workspace_call (FireUiEvent blockCanvas "blocklyWorkspaceChange")]
    /\ translate 3 (-4) (this s')
       = Some [Node_setAttribute blockCanvas "transform" "translate(3,-4)";
               Node_setAttribute bubbleCanvas "transform" "translate(3,-4)"]
    /\ translate 3 (-4) (fst (dispose (this s'))) = None.
Proof.
  assert (Hnew : unbuilt SampleDom.surface) by (repeat split).
  destruct (surface_lifecycle SampleDom.binRect SampleDom.trayRect SampleDom.boxRect
              None SampleDom.surface SampleDom.document 3 (-4) Hnew eq_refl)
    as [group [bc [uc [s' [d' [calls [before
         [Hrun [Hbc [Huc [_ [Hquiet [Hcalls [Hmove [_ [_ [_ Hgone]]]]]]]]]]]]]]]]].
  exists group, bc, uc, s', d', calls, before.
  split; [exact Hrun|]. split; [exact Hbc|]. split; [exact Huc|].
  split; [exact Hquiet|]. split; [exact Hcalls|].
  split; [exact (Hmove eq_refl eq_refl) | exact Hgone].
Defined.
